(** * conda-forge-feedstock-check-solvable: the mamba solver driver

    A shallow embedding of [conda_forge_feedstock_check_solvable/mamba_solver.py]
    and the properties of its requirement handling: version broadening,
    spec normalisation, run-export bundles, the build/host/run/test phases
    of one rendered output, the variant iteration driver and the
    bounded-execution wrapper.

    Conventions of the embedding:
    - a Python [str] is a [string]; a character is a code point below 256;
    - a Python [list] is a [list], a [set] of strings a [gset string], a
      [dict] with string keys a [gmap string _];
    - code that raises returns [Raise e]; code that reads or writes the
      process state (the solver calls made so far, the run-export cache)
      runs in the monad [M];
    - what the code obtains from its collaborators (the renderer, libmamba,
      conda's [MatchSpec], the channels) is a [Variable] of a [Section]. *)

From Stdlib Require Import Ascii ZArith Lia.
From stdpp Require Import gmap strings list fin_maps.
From stdpp Require pretty.

Local Open Scope Z_scope.
#[local] Set Warnings "-clear-no-such-hyp".

(** ** Python string primitives *)

Module Py.

(** [str.isspace] on one character (code points below 256). *)
Definition isspace (c : ascii) : bool :=
  let n := nat_of_ascii c in
  ((9 <=? n)%nat && (n <=? 13)%nat) || ((28 <=? n)%nat && (n <=? 32)%nat)
  || (n =? 133)%nat || (n =? 160)%nat.

Definition ascii_eqb (a b : ascii) : bool := bool_decide (a = b).

(** [s.split(sep)] for a one-character separator: every occurrence
    splits, empty pieces are kept, the result is never empty. *)
Fixpoint split (sep : ascii) (s : string) : list string :=
  match s with
  | EmptyString => [EmptyString]
  | String c s' =>
      if ascii_eqb c sep then EmptyString :: split sep s'
      else match split sep s' with
           | h :: t => String c h :: t
           | [] => [String c EmptyString]
           end
  end.

Fixpoint lstrip (s : string) : string :=
  match s with
  | EmptyString => EmptyString
  | String c s' => if isspace c then lstrip s' else s
  end.

Fixpoint rstrip (s : string) : string :=
  match s with
  | EmptyString => EmptyString
  | String c s' =>
      match rstrip s' with
      | EmptyString => if isspace c then EmptyString else String c EmptyString
      | r => String c r
      end
  end.

(** [s.strip()] *)
Definition strip (s : string) : string := rstrip (lstrip s).

(** [s.startswith(p)] *)
Fixpoint startswith (s p : string) : bool :=
  match p, s with
  | EmptyString, _ => true
  | String a p', String b s' => ascii_eqb a b && startswith s' p'
  | String _ _, EmptyString => false
  end.

(** [c in s] for a character [c] *)
Fixpoint contains (c : ascii) (s : string) : bool :=
  match s with
  | EmptyString => false
  | String d s' => ascii_eqb c d || contains c s'
  end.

(** [s[1:]] *)
Definition drop1 (s : string) : string :=
  match s with
  | EmptyString => EmptyString
  | String _ t => t
  end.

(** [sep.join(l)] *)
Fixpoint join (sep : string) (l : list string) : string :=
  match l with
  | [] => EmptyString
  | [x] => x
  | x :: l' => x +:+ sep +:+ join sep l'
  end.

(** [s.split()]: pieces between runs of white space, none empty.
    [cur] is the piece being read, in reverse. *)
Fixpoint split_ws_aux (cur : list ascii) (s : string) : list string :=
  let flush rest :=
    match cur with
    | [] => rest
    | _ => String.string_of_list_ascii (rev cur) :: rest
    end in
  match s with
  | EmptyString => flush []
  | String c s' =>
      if isspace c then flush (split_ws_aux [] s')
      else split_ws_aux (c :: cur) s'
  end.

Definition split_ws (s : string) : list string := split_ws_aux [] s.

(** [enumerate(l)] with Python integers as indices. *)
Definition enumerate {A} (l : list A) : list (Z * A) :=
  imap (fun i x => (Z.of_nat i, x)) l.

(** [len(l)] *)
Definition len {A} (l : list A) : Z := Z.of_nat (length l).

(** [os.path.basename(p)]: what follows the last slash. *)
Definition basename (p : string) : string := List.last (split "/" p) EmptyString.

(** [s.rsplit(sep, maxsplit=1)[0]]: what precedes the last [sep], or
    all of [s] when [sep] does not occur. *)
Definition rsplit1_head (sep : ascii) (s : string) : string :=
  match split sep s with
  | [] | [_] => s
  | pieces => join (String sep EmptyString) (removelast pieces)
  end.

(** [os.path.join(a, b)] for a relative [b]. *)
Definition path_join (a b : string) : string :=
  match a with
  | EmptyString => b
  | _ => if ascii_eqb (List.last (String.list_ascii_of_string a) "/"%char) "/"
         then a +:+ b else a +:+ "/" +:+ b
  end.

End Py.

(** ** Version broadening: [_munge_req_star] *)

Definition REQ_START : list string := ["!="; "=="; ">"; "<"; ">="; "<="; "~="].

(** [any(pp.startswith(__v) for __v in REQ_START)] *)
Definition starts_with_req_start (pp : string) : bool :=
  existsb (Py.startswith pp) REQ_START.

(** The body of the inner loop for one alternative [pp]: what is appended
    to [reqs] before the separator. *)
Definition munge_alternative (pp : string) : string :=
  let pp := Py.strip pp in
  if starts_with_req_start pp || Py.contains "*" pp then pp
  else
    let pp := if Py.startswith pp "=" then Py.drop1 pp else pp in
    pp +:+ ".*".

Definition munge_pipe_loop (psplit : list string) (reqs : list string) : list string :=
  let nps := Py.len psplit in
  fold_left
    (fun reqs '(ip, pp) =>
       let reqs := reqs ++ [munge_alternative pp] in
       if bool_decide (ip ≠ nps - 1) then reqs ++ ["|"] else reqs)
    (Py.enumerate psplit) reqs.

Definition munge_comma_loop (csplit : list string) (reqs : list string) : list string :=
  let ncs := Py.len csplit in
  fold_left
    (fun reqs '(ic, p) =>
       let reqs := munge_pipe_loop (Py.split "|" p) reqs in
       if bool_decide (ic ≠ ncs - 1) then reqs ++ [","] else reqs)
    (Py.enumerate csplit) reqs.

Definition _munge_req_star (req : string) : string :=
  Py.join "" (munge_comma_loop (Py.split "," req) []).

(** The alternatives of a version string: the pieces between [|] of the
    pieces between [,]. *)
Definition alternatives (req : string) : list (list string) :=
  Py.split "|" <$> Py.split "," req.

(** The reading of the broadening as a map over the alternatives, to
    compare [_munge_req_star] with: every alternative is treated on its
    own and the separators go back where they were. *)
Definition broaden_alternatives (req : string) : string :=
  Py.join "," (Py.join "|" <$> (fmap munge_alternative <$> alternatives req)).

(** [x, sep, y, sep, z] for [x, y, z] *)
Fixpoint intersperse {A} (sep : A) (l : list A) : list A :=
  match l with
  | [] => []
  | [x] => [x]
  | x :: l' => x :: sep :: intersperse sep l'
  end.


(** ** Exceptions and results *)

Inductive exn : Type :=
| RuntimeError (msg : string)
| TypeError (msg : string)
| IndexError (msg : string)
| KeyError (key : string)
| ValueError (msg : string)
| CollaboratorError (msg : string).

Inductive result (A : Type) : Type :=
| Ok (a : A)
| Raise (e : exn).
Arguments Ok {A} a.
Arguments Raise {A} e.

#[global] Instance result_ret : MRet result := fun A a => Ok a.
#[global] Instance result_bind : MBind result := fun A B k r =>
  match r with
  | Ok a => k a
  | Raise e => Raise e
  end.

(** A list comprehension whose body may raise: the first exception ends it. *)
Fixpoint comprehension {A B} (f : A -> result B) (l : list A) : result (list B) :=
  match l with
  | [] => Ok []
  | x :: l' => y ← f x; ys ← comprehension f l'; Ok (y :: ys)
  end.

(** ** conda's [MatchSpec], as far as the code reads it *)

Record version_spec : Type := { raw_value : string; spec_str : string }.

Record match_spec : Type := {
  exact_name : option string;     (* m.get_exact_value("name") *)
  version : option version_spec;  (* m.version *)
  raw_build : option string       (* m.get_raw_value("build") *)
}.

(** [m.get_raw_value("version")] *)
Definition raw_version (m : match_spec) : option string := raw_value <$> version m.

(** Truth value of [None] or a [str]. *)
Definition truthy (o : option string) : bool :=
  match o with
  | Some (String _ _) => true
  | _ => false
  end.

(** The position of the first [None] of the list, from [i] on. *)
Fixpoint first_none (i : nat) (parts : list (option string)) : nat :=
  match parts with
  | Some _ :: parts' => first_none (S i) parts'
  | _ => i
  end.

(** [" ".join(parts)] where an entry may be [None]. *)
Definition join_parts (parts : list (option string)) : result string :=
  match mapM id parts with
  | Some l => Ok (Py.join " " l)
  | None =>
      Raise (TypeError ("sequence item " +:+ pretty.pretty (first_none 0 parts)
                        +:+ ": expected str instance, NoneType found"))
  end.

(** [_norm_spec], given the parsed [MatchSpec(myspec)]. *)
Definition norm_parsed (myspec : string) (m : match_spec) : result string :=
  let parts := [exact_name m] in
  let version_ := raw_version m in
  let build := raw_build m in
  if truthy build && negb (truthy version_) then
    Raise (RuntimeError ("spec '" +:+ myspec +:+ "' has build but not version!"))
  else
    let parts :=
      if truthy version_ then
        parts ++ [_munge_req_star <$> (spec_str <$> version m)]
      else parts in
    let parts := if truthy build then parts ++ [build] else parts in
    join_parts parts.

(** The parts [_norm_spec] joins for a spec with an exact name. *)
Definition normal_parts (n : string) (m : match_spec) : list string :=
  [n]
  ++ (if truthy (raw_version m)
      then [_munge_req_star (default "" (spec_str <$> version m))] else [])
  ++ (if truthy (raw_build m) then [default "" (raw_build m)] else []).

(** ** Requirement lists *)

(** [r.split(" ")[0]] *)
Definition req_name (r : string) : string := hd EmptyString (Py.split " " r).

(** [any(r.split(" ")[0] == nm for nm in names)] *)
Definition names_req (names : list string) (r : string) : bool :=
  existsb (fun nm => bool_decide (req_name r = nm)) names.

Definition _clean_reqs (reqs names : list string) : list string :=
  List.filter (fun r => negb (names_req names r)) reqs.

Definition problem_reqs : gset string := {[ "parquet-cpp" ]}.

Definition _filter_problematic_reqs (reqs : list string) : list string :=
  List.filter (fun r => bool_decide (req_name r ∉ problem_reqs)) reqs.

(** [list(set(reqs) | exported)]: the order Python gives the list is
    unspecified, [elements] fixes one. *)
Definition merge_reqs (reqs : list string) (exported : gset string) : list string :=
  elements (list_to_set reqs ∪ exported).

(** ** Run-export bundles *)

Definition DEFAULT_RUN_EXPORTS : gmap string (gset string) :=
  {[ "weak" := ∅; "strong" := ∅; "noarch" := ∅ ]}.

(** A raw export declaration, as one of the sources yields it. *)
Inductive raw_run_exports : Type :=
| RxNone
| RxStr (s : string)
| RxList (l : list string)
| RxMap (d : gmap string (list string)).

(** Truth value of the declaration ([if rx:]). *)
Definition rx_truthy (rx : raw_run_exports) : bool :=
  match rx with
  | RxNone => false
  | RxStr s => truthy (Some s)
  | RxList l => bool_decide (l ≠ [])
  | RxMap d => bool_decide (d ≠ ∅)
  end.

(** [run_exports[key]] *)
Definition bucket (run_exports : gmap string (gset string)) (key : string) : result (gset string) :=
  match run_exports !! key with
  | Some s => Ok s
  | None => Raise (KeyError key)
  end.

(** One turn of [for k in rx] over a list: [rx[k]] on a list raises. *)
Definition sanitize_list_step (run_exports : gmap string (gset string)) (k : string)
  : result (gmap string (gset string)) :=
  if bool_decide (k ∈ dom DEFAULT_RUN_EXPORTS) then
    Raise (TypeError "list indices must be integers or slices, not str")
  else
    weak ← bucket run_exports "weak";
    Ok (<["weak" := weak ∪ {[ k ]}]> run_exports).

(** One turn of [for k in rx] over a mapping, [v] being [rx[k]]. *)
Definition sanitize_map_step (run_exports : gmap string (gset string)) (kv : string * list string)
  : result (gmap string (gset string)) :=
  let '(k, v) := kv in
  if bool_decide (k ∈ dom DEFAULT_RUN_EXPORTS) then
    s ← bucket run_exports k;
    Ok (<[k := s ∪ list_to_set v]> run_exports)
  else
    weak ← bucket run_exports "weak";
    Ok (<["weak" := weak ∪ {[ k ]}]> run_exports).

(** A loop whose body may raise. *)
Fixpoint for_each {S A} (body : S -> A -> result S) (l : list A) (s : S) : result S :=
  match l with
  | [] => Ok s
  | x :: l' => s' ← body s x; for_each body l' s'
  end.

(** The last part of [_get_run_export]: from the raw declaration to the bundle. *)
Definition sanitize_run_exports (rx : raw_run_exports) : result (gmap string (gset string)) :=
  let run_exports := DEFAULT_RUN_EXPORTS in
  if rx_truthy rx then
    match rx with
    | RxNone => Ok run_exports
    | RxStr s => for_each sanitize_list_step [s] run_exports
    | RxList l => for_each sanitize_list_step l run_exports
    | RxMap d => for_each sanitize_map_step (map_to_list d) run_exports
    end
  else Ok run_exports.

(** *** What the properties of the bundles are stated with *)

(** The bundle with the given buckets. *)
Definition mk_bundle (weak strong noarch_ : gset string) : gmap string (gset string) :=
  {[ "weak" := weak; "strong" := strong; "noarch" := noarch_ ]}.

Definition BUCKETS : gset string := {[ "weak"; "strong"; "noarch" ]}.

(** A mapping with exactly the three buckets as keys. *)
Definition bundle_wf (b : gmap string (gset string)) : Prop := dom b = BUCKETS.

(** The tokens a mapping declares under [key]. *)
Definition declared (d : gmap string (list string)) (key : string) : gset string :=
  list_to_set (default [] (d !! key)).

(** The same over the items of a mapping, in any order. *)
Definition declared_in (l : list (string * list string)) (key : string) : gset string :=
  ⋃ ((fun kv => if bool_decide (kv.1 = key) then list_to_set kv.2 else ∅) <$> l).

(** The keys of the items that name no bucket. *)
Definition unknown_keys (l : list (string * list string)) : gset string :=
  list_to_set (List.filter (fun k => bool_decide (k ∉ BUCKETS)) l.*1).

(** ** The solver, its calls and the process state *)

(** A package of the transaction: [(channel, file, jdata)], and the fields
    the code reads from the decoded [jdata]. *)
Record link_tuple : Type := {
  lt_channel : string;
  lt_file : string;
  lt_jdata : string;
  lt_name : string;
  lt_version : string;
  lt_build : string
}.

#[global] Instance link_tuple_eq_dec : EqDecision link_tuple.
Proof. solve_decision. Defined.

(** What libmamba answers to [solver.solve()]: the problems it explains,
    or the packages to link. *)
Inductive sat_answer : Type :=
| Unsat (problems : string)
| Sat (to_link : list link_tuple).

(** A [MambaSolver]: its channels and its platform. *)
Record MambaSolver : Type := { channels : list string; platform : string }.

(** The calls that reach a solver, in order: [EvSolve] when
    [MambaSolver.solve] is entered with its [specs], [EvJobs] when the
    normalised specs are handed to libmamba. *)
Inductive event : Type :=
| EvSolve (solver : MambaSolver) (specs : list string)
| EvJobs (solver : MambaSolver) (_specs : list string).

(** The process state: the calls made so far, and the [lru_cache] of
    [_get_run_export], most recently used entry first. *)
Record world : Type := {
  solver_log : list event;
  rx_cache : list (link_tuple * gmap string (gset string))
}.

Definition initial_world : world := {| solver_log := []; rx_cache := [] |}.

Definition M (A : Type) : Type := world -> result A * world.

#[global] Instance M_ret : MRet M := fun A a w => (Ok a, w).
#[global] Instance M_bind : MBind M := fun A B k m w =>
  match m w with
  | (Ok a, w') => k a w'
  | (Raise e, w') => (Raise e, w')
  end.

Definition raise {A} (e : exn) : M A := fun w => (Raise e, w).
Definition lift {A} (r : result A) : M A := fun w => (r, w).

Definition log (ev : event) : M () := fun w =>
  (Ok (), {| solver_log := solver_log w ++ [ev]; rx_cache := rx_cache w |}).

(** A loop whose body runs in [M]. *)
Fixpoint for_eachM {S A} (body : S -> A -> M S) (l : list A) (s : S) : M S :=
  match l with
  | [] => mret s
  | x :: l' => s' ← body s x; for_eachM body l' s'
  end.

(** *** The cache of [_get_run_export] *)

Definition RX_CACHE_MAXSIZE : nat := Z.to_nat 10240.

Definition cache_lookup (lt : link_tuple)
    (cache : list (link_tuple * gmap string (gset string)))
  : option (gmap string (gset string)) :=
  snd <$> List.find (fun e => bool_decide (fst e = lt)) cache.

Definition cache_remove (lt : link_tuple)
    (cache : list (link_tuple * gmap string (gset string))) :=
  List.filter (fun e => negb (bool_decide (fst e = lt))) cache.

(** A hit or a fresh entry becomes the most recent one; the least recent
    entries beyond [maxsize] are dropped. *)
Definition cache_put (lt : link_tuple) (b : gmap string (gset string))
    (cache : list (link_tuple * gmap string (gset string))) :=
  take RX_CACHE_MAXSIZE ((lt, b) :: cache_remove lt cache).

(** Assignment into the dictionary the cache holds for [lt]: the caller of
    [_get_run_export] and the cache share that object. *)
Definition cache_mutate (lt : link_tuple) (b : gmap string (gset string))
    (cache : list (link_tuple * gmap string (gset string))) :=
  List.map (fun e => if bool_decide (fst e = lt) then (lt, b) else e) cache.

Definition set_cache (f : list (link_tuple * gmap string (gset string)) ->
                          list (link_tuple * gmap string (gset string))) : M () :=
  fun w => (Ok (), {| solver_log := solver_log w; rx_cache := f (rx_cache w) |}).

(** Every bundle the cache holds has the three buckets. *)
Definition cache_wf (cache : list (link_tuple * gmap string (gset string))) : Prop :=
  Forall (fun e => bundle_wf e.2) cache.

(** What [m] returns satisfies [Post], and [m] keeps the cache well formed. *)
Definition keeps_cache {A} (m : M A) (Post : A -> Prop) : Prop :=
  forall w r w',
    cache_wf (rx_cache w) -> m w = (r, w') ->
    cache_wf (rx_cache w') ∧ forall a, r = Ok a -> Post a.

(** ** The rendered recipe *)

(** One rendered output, with what [m.get_value] returns at the paths the
    code reads. [noarch] and [noarch_python] are the truth values. *)
Record MetaData : Type := {
  name : string;
  is_cross : bool;
  noarch : bool;
  noarch_python : bool;
  build_is_host : bool;
  requirements_build : list string;
  requirements_host : list string;
  requirements_run : list string;
  ignore_run_exports : list string;
  ignore_run_exports_from : list string;
  test_requires : list string;
  test_requirements : list string
}.

(** The parsed variant configuration file: its [channel_sources] entry. *)
Record cbc_cfg : Type := { channel_sources : option (list string) }.

(** The local variables of the loop over the outputs. [l_build_req] and
    [l_host_req] hold the declared lists until the phase has solved, then
    the solution, [None] when there is none. *)
Record locals : Type := {
  l_solvable : bool;
  l_errors : list string;
  l_build_req : option (list string);
  l_host_req : option (list string);
  l_run_req : list string
}.

(** [x or []] *)
Definition or_empty (x : option (list string)) : list string := default [] x.

(** What [solve] returns: [(success, err, solution)], and the run exports
    as a fourth component when they were asked for. *)
Definition solve_result : Type :=
  bool * option string * option (list string) * option (gmap string (gset string)).

(** What one pipe message of the worker holds. *)
Inductive message : Type :=
| SentResult (res : bool * list string * gmap string bool)
| SentException (e : exn).

(** What the parent observes of the worker within [timeout] seconds: a
    message, or nothing. A worker that dies without sending is late too:
    the parent keeps its own handle on the worker's end of the pipe, so
    the pipe never reads as closed. *)
Inductive worker_fate : Type :=
| Delivers      (* [parent_conn.poll(timeout)] is true *)
| Late.         (* [parent_conn.poll(timeout)] is false *)


(** *** What the properties of the runs are stated with *)

(** The run exports of a [solve] that was asked for them: a well-formed
    bundle, the empty one when the solve failed. *)
Definition exports_wf (r : solve_result) : Prop :=
  exists b, r.2 = Some b ∧ bundle_wf b
            ∧ (r.1.1.1 = false -> b = mk_bundle ∅ ∅ ∅).


(** Whatever the state and the outcome, [m] only adds calls to the log,
    and every call it adds satisfies [Q]. *)
Definition emits {A} (Q : event -> Prop) (m : M A) : Prop :=
  forall w, exists new, solver_log (m w).2 = solver_log w ++ new ∧ Forall Q new.

(** ** What the further properties are stated with *)

(** Whenever [m] returns, what it returns satisfies [Post]. *)
Definition returns {A} (m : M A) (Post : A -> Prop) : Prop :=
  forall w a w', m w = (Ok a, w') -> Post a.

(** The outcome of a solve as its docstring gives it: a solve that
    succeeds has no error and a solution, one that fails has an error and
    no solution. *)
Definition outcome_consistent (r : solve_result) : Prop :=
  match r with
  | (true, err, sol, _) => err = None ∧ is_Some sol
  | (false, err, sol, _) => is_Some err ∧ sol = None
  end.

(** A verdict and its errors agree: solvable with no error, or not
    solvable with one at least. *)
Definition verdict_consistent (solvable : bool) (errors : list string) : Prop :=
  solvable = true <-> errors = [].

(** [os.path.basename(cbc_fname).rsplit(".", maxsplit=1)[0]] *)
Definition cbc_name (cbc_fname : string) : string :=
  Py.rsplit1_head "." (Py.basename cbc_fname).

(** The solver a call went to. *)
Definition event_solver (ev : event) : MambaSolver :=
  match ev with EvSolve s _ => s | EvJobs s _ => s end.

(** What the loop of the driver keeps, [done] being the variant files
    checked so far: the verdict and the errors agree, a solvable verdict
    has only solvable variants, the map has the names of the files checked
    as keys, and every error carries the name of its variant file. *)
Definition driver_invariant (done : list string)
    (acc : bool * list string * gmap string bool) : Prop :=
  let '(solvable, errors, solvable_by_cbc) := acc in
  verdict_consistent solvable errors
  ∧ (solvable = true -> forall k v, solvable_by_cbc !! k = Some v -> v = true)
  ∧ dom solvable_by_cbc = list_to_set (cbc_name <$> done)
  ∧ Forall (fun e => exists cbc e0, cbc ∈ done ∧ e = cbc_name cbc +:+ ": " +:+ e0)
      errors.

(** No token of the bundle is one of the names to ignore. *)
Definition tokens_avoid (ign_rex : list (option string))
    (b : gmap string (gset string)) : Prop :=
  forall key s v, b !! key = Some s -> v ∈ s -> Some v ∉ ign_rex.

(** ** Channel urls *)

(** [sub in s] for a string [sub] *)
Fixpoint contains_str (sub s : string) : bool :=
  Py.startswith s sub
  || match s with
     | EmptyString => false
     | String _ s' => contains_str sub s'
     end.

(** [l.index(x)]: the first position of [x], [ValueError] when there is
    none. *)
Fixpoint py_index (x : string) (l : list string) : result Z :=
  match l with
  | [] => Raise (ValueError ("'" +:+ x +:+ "' is not in list"))
  | y :: l' => if bool_decide (y = x) then Ok 0 else i ← py_index x l'; Ok (1 + i)
  end.

(** [i != tindex and i != tindex + 1] *)
Definition beside_token (tindex : Z) (ip : Z * string) : bool :=
  negb (ip.1 =? tindex) && negb (ip.1 =? tindex + 1).

Definition _strip_anaconda_tokens (url : string) : result string :=
  if contains_str "/t/" url then
    let parts := Py.split "/" url in
    tindex ← py_index "t" parts;
    let new_parts := snd <$> List.filter (beside_token tindex) (Py.enumerate parts) in
    Ok (Py.join "/" new_parts)
  else Ok url.

(** [enumerate(l, start)], the pairs one after the other. *)
Fixpoint enumerate_from (start : Z) (l : list string) : list (Z * string) :=
  match l with
  | [] => []
  | x :: l' => (start, x) :: enumerate_from (start + 1) l'
  end.

(** ** The fake channel of virtual packages *)


(** The dataclass [FakePackage]; [timestamp] is the clock reading taken
    when the package is made. *)
Record FakePackage : Type := {
  fp_name : string;
  fp_version : string;
  fp_build_string : string;
  fp_build_number : Z;
  fp_noarch : string;
  fp_depends : gset string;
  fp_timestamp : Z
}.

#[global] Instance FakePackage_eq_dec : EqDecision FakePackage.
Proof. solve_decision. Defined.

(** The dictionary [to_repodata_entry] returns: the fields of the
    package, [depends] as a list, [build], and the [subdir] that
    [_write_subdir] assigns. *)
Record repodata_entry : Type := {
  e_name : string;
  e_version : string;
  e_build_string : string;
  e_build_number : Z;
  e_noarch : string;
  e_depends : list string;
  e_timestamp : Z;
  e_build : string;
  e_subdir : option string
}.

(** [f"{self.build_string}_{self.build_number}"] or [f"{self.build_number}"] *)
Definition fp_build (self : FakePackage) : string :=
  if bool_decide (fp_build_string self ≠ "")
  then fp_build_string self +:+ "_" +:+ pretty.pretty (fp_build_number self)
  else pretty.pretty (fp_build_number self).

Definition to_repodata_entry (self : FakePackage) : string * repodata_entry :=
  let build := fp_build self in
  let out :=
    {| e_name := fp_name self; e_version := fp_version self;
       e_build_string := fp_build_string self;
       e_build_number := fp_build_number self;
       e_noarch := fp_noarch self;
       e_depends := elements (fp_depends self);
       e_timestamp := fp_timestamp self;
       e_build := build; e_subdir := None |} in
  let fname := fp_name self +:+ "-" +:+ fp_version self +:+ "-" +:+ build +:+ ".tar.bz2" in
  (fname, out).








(** ** Sample collaborators and recipes, for the examples *)

Module Sample.

(** The characters that begin a constraint joined to a name. *)
Definition is_operator (c : ascii) : bool :=
  bool_decide (c ∈ ["="; "<"; ">"; "!"; "~"]%char).

(** A character of a name of the sample: no white space, no operator,
    no upper-case letter. *)
Definition name_char (c : ascii) : bool :=
  negb (Py.isspace c) && negb (is_operator c)
  && negb ((65 <=? nat_of_ascii c)%nat && (nat_of_ascii c <=? 90)%nat).

Definition no_space (s : string) : bool :=
  forallb (fun c => negb (Py.isspace c)) (String.list_ascii_of_string s).

(** [name<op>version]: the name and the constraint joined to it. *)
Fixpoint split_at_operator (s : string) : string * string :=
  match s with
  | EmptyString => (EmptyString, EmptyString)
  | String c s' =>
      if is_operator c then (EmptyString, s)
      else let '(n, v) := split_at_operator s' in (String c n, v)
  end.

(** The parse of a name, a version and a build that are in order: a name
    that holds [*] is a pattern and has no exact value. *)
Definition parsed (n : string) (v b : option string) : result match_spec :=
  if bool_decide (n ≠ "") && forallb name_char (String.list_ascii_of_string n)
     && bool_decide (v ≠ Some "") && bool_decide (b ≠ Some "")
     && no_space (default "" v) && no_space (default "" b)
  then
    if Py.startswith (default "" v) "=" then
      Raise (CollaboratorError "spec outside the sample")
    else
      Ok {| exact_name := if Py.contains "*" n then None else Some n;
            version := (fun v => {| raw_value := v; spec_str := v |}) <$> v;
            raw_build := b |}
  else Raise (CollaboratorError "InvalidMatchSpec").

(** A stand-in for conda's parser on the forms the examples use: [name],
    [name version], [name version build] with single spaces between the
    parts, [name<op>version] with the constraint joined to the name, and
    one spec with a build and no version. Names are in lower case, and a
    version does not begin with [=] (conda rewrites those). Every other
    string is refused, one that begins or ends with white space among
    them. *)
Definition MatchSpec (s : string) : result match_spec :=
  if bool_decide (s = "numpy[build=py3*]") then
    Ok {| exact_name := Some "numpy"; version := None; raw_build := Some "py3*" |}
  else
    match Py.split " " s with
    | [n] =>
        let '(nm, v) := split_at_operator n in
        parsed nm (if bool_decide (v = "") then None else Some v) None
    | [n; v] => parsed n (Some v) None
    | [n; v; b] => parsed n (Some v) (Some b)
    | _ => Raise (CollaboratorError "InvalidMatchSpec")
    end.

(** [gcc] exports [libgcc] strongly and [libstdcxx] weakly. *)
Definition find_run_exports (lt : link_tuple) : result raw_run_exports :=
  if bool_decide (lt_name lt = "gcc") then
    Ok (RxMap {[ "strong" := ["libgcc"]; "weak" := ["libstdcxx"] ]})
  else Ok RxNone.

(** Every package exists in version [1.0], build [0], but [nonexistent]. *)
Definition libsolv (channels_ : list string) (platform_ : string) (_specs : list string)
  : sat_answer :=
  if bool_decide ("nonexistent" ∈ req_name <$> _specs) then
    Unsat "nothing provides nonexistent"
  else
    Sat ((fun s => {| lt_channel := "https://conda.anaconda.org/conda-forge/" +:+ platform_;
                      lt_file := req_name s +:+ "-1.0-0.conda";
                      lt_jdata := "{name: " +:+ req_name s +:+ ", version: 1.0, build: 0}";
                      lt_name := req_name s;
                      lt_version := "1.0";
                      lt_build := "0" |}) <$> _specs).

Definition get_pin_from_build (m : MetaData) (dep : string) (versions : gmap string string)
  : result string := Ok dep.

Definition load_cbc (cbc_path : string) : result cbc_cfg :=
  Ok {| channel_sources := Some ["conda-forge"] |}.

(** A library built with [gcc]: neither cross-compiled nor noarch, with a
    host environment of its own. *)
Definition mylib : MetaData := {|
  name := "mylib"; is_cross := false; noarch := false; noarch_python := false;
  build_is_host := false;
  requirements_build := ["gcc"]; requirements_host := ["zlib"];
  requirements_run := ["zlib"];
  ignore_run_exports := []; ignore_run_exports_from := [];
  test_requires := []; test_requirements := []
|}.

(** A package whose test requirements repeat a run requirement. *)
Definition mypkg : MetaData := {|
  name := "mypkg"; is_cross := false; noarch := true; noarch_python := false;
  build_is_host := false;
  requirements_build := []; requirements_host := ["mylib 1.0"; "python"];
  requirements_run := ["foo"; "mylib"];
  ignore_run_exports := []; ignore_run_exports_from := [];
  test_requires := ["foo"]; test_requirements := ["pytest"]
|}.


Definition render (recipe_dir platform_ arch cbc_path : string) (channel_urls : list string)
  : result (list MetaData) :=
  if bool_decide (recipe_dir = "ok/recipe") then Ok [mylib; mypkg] else Ok [].

Definition ci_support_yamls (feedstock_dir : string) : list string :=
  if bool_decide (feedstock_dir = "ok") then ["ok/.ci_support/linux_64_.yaml"]
  else if bool_decide (feedstock_dir = "nometa") then ["nometa/.ci_support/linux_64_.yaml"]
  else if bool_decide (feedstock_dir = "odd") then ["odd/.ci_support/linux.yaml"]
  else [].

Definition meta_yaml_exists (feedstock_dir : string) : bool :=
  bool_decide (feedstock_dir ≠ "nometa").

Definition virtual_package_repodata : string := "file:///tmp/virtual".

Definition repr (e : exn) : string :=
  match e with
  | RuntimeError msg => "RuntimeError: " +:+ msg
  | TypeError msg => "TypeError: " +:+ msg
  | IndexError msg => "IndexError: " +:+ msg
  | KeyError key => "KeyError: " +:+ key
  | ValueError msg => "ValueError: " +:+ msg
  | CollaboratorError msg => msg
  end.

Definition linux64 : MambaSolver :=
  {| channels := ["conda-forge"; "msys2"]; platform := "linux-64" |}.

End Sample.

(** ** Further sample recipes *)

Module CrossSample.

(** A cross-compiled output: [gcc] in the build environment and in the
    host environment. *)
Definition crosslib : MetaData := {|
  name := "crosslib"; is_cross := true; noarch := false; noarch_python := false;
  build_is_host := false;
  requirements_build := ["gcc"]; requirements_host := ["gcc"; "zlib"];
  requirements_run := ["zlib"];
  ignore_run_exports := []; ignore_run_exports_from := [];
  test_requires := []; test_requirements := []
|}.

(** An output whose build requirement has a build string and no version. *)
Definition badbuild : MetaData := {|
  name := "badbuild"; is_cross := false; noarch := false; noarch_python := false;
  build_is_host := false;
  requirements_build := ["numpy[build=py3*]"]; requirements_host := [];
  requirements_run := [];
  ignore_run_exports := []; ignore_run_exports_from := [];
  test_requires := []; test_requirements := []
|}.

(** The local variables after a build phase that solved nothing. *)
Definition before_host (m : MetaData) : locals :=
  {| l_solvable := true; l_errors := [];
     l_build_req := Some (requirements_build m);
     l_host_req := Some (requirements_host m);
     l_run_req := requirements_run m |}.

(** The link tuple libmamba gives for [gcc] on [linux-64]. *)
Definition gcc_tuple : link_tuple :=
  {| lt_channel := "https://conda.anaconda.org/conda-forge/linux-64";
     lt_file := "gcc-1.0-0.conda";
     lt_jdata := "{name: gcc, version: 1.0, build: 0}";
     lt_name := "gcc"; lt_version := "1.0"; lt_build := "0" |}.

(** Sources that answer nothing. *)
Definition no_sources (lt : link_tuple) : result raw_run_exports :=
  Raise (CollaboratorError "offline").

End CrossSample.
(** ** The engine, over its collaborators *)

Section Engine.

#[local] Set Default Proof Using "Type".

(** conda's parser of a spec string (it may raise). *)
Variable MatchSpec : string -> result match_spec.
(** The raw export declaration the three sources of [_get_run_export]
    yield for a package (the lookups may raise). *)
Variable find_run_exports : link_tuple -> result raw_run_exports.
(** libmamba: the answer for channels, a platform and the jobs. *)
Variable libsolv : list string -> string -> list string -> sat_answer.
(** conda-build's [get_pin_from_build(m, dep, versions)] (it may raise). *)
Variable get_pin_from_build : MetaData -> string -> gmap string string -> result string.
(** The variant configuration file, read and parsed (it may raise). *)
Variable load_cbc : string -> result cbc_cfg.
(** conda-build's rendering of the recipe: [recipe_dir], platform, arch,
    the variant file and the channels (it may raise). *)
Variable render : string -> string -> string -> string -> list string -> result (list MetaData).
(** [sorted(glob.glob(os.path.join(feedstock_dir, ".ci_support", "*.yaml")))] *)
Variable ci_support_yamls : string -> list string.
(** [os.path.exists(os.path.join(feedstock_dir, "recipe", "meta.yaml"))] *)
Variable meta_yaml_exists : string -> bool.
(** The channel url [virtual_package_repodata()] returns. *)
Variable virtual_package_repodata : string.
(** Python's [repr] of an exception. *)
Variable repr : exn -> string.

Definition _norm_spec (myspec : string) : result string :=
  m ← MatchSpec myspec; norm_parsed myspec m.

(** [MatchSpec(s).get_exact_value("name")] *)
Definition spec_name (s : string) : result (option string) :=
  m ← MatchSpec s; Ok (exact_name m).

Definition _get_run_export (lt : link_tuple) : M (gmap string (gset string)) :=
  fun w =>
    match cache_lookup lt (rx_cache w) with
    | Some b => (set_cache (cache_put lt b) ≫= fun _ => mret b) w
    | None =>
        (rx ← lift (find_run_exports lt);
         run_exports ← lift (sanitize_run_exports rx);
         _ ← set_cache (cache_put lt run_exports);
         mret run_exports) w
    end.

(** [{v for v in s if v not in ign_rex}] *)
Definition drop_ignored (ign_rex : list (option string)) (s : gset string) : gset string :=
  filter (fun v => Some v ∉ ign_rex) s.

(** [for key in DEFAULT_RUN_EXPORTS: run_exports[key] |= rx[key]] *)
Definition union_buckets (run_exports rx : gmap string (gset string))
  : result (gmap string (gset string)) :=
  for_each
    (fun run_exports key =>
       mine ← bucket run_exports key;
       theirs ← bucket rx key;
       Ok (<[key := mine ∪ theirs]> run_exports))
    ["weak"; "strong"; "noarch"] run_exports.

Definition _get_run_exports (link_tuples : list link_tuple)
    (_specs ignore_run_exports_from ignore_run_exports : list string)
  : M (gmap string (gset string)) :=
  names ← lift (comprehension spec_name _specs);
  ign_rex_from ← lift (comprehension spec_name ignore_run_exports_from);
  ign_rex ← lift (comprehension spec_name ignore_run_exports);
  for_eachM
    (fun run_exports lt =>
       if bool_decide (Some (lt_name lt) ∈ names)
          && bool_decide (Some (lt_name lt) ∉ ign_rex_from)
       then
         rx ← _get_run_export lt;
         let rx := drop_ignored ign_rex <$> rx in
         _ ← set_cache (cache_mutate lt rx);
         lift (union_buckets run_exports rx)
       else mret run_exports)
    link_tuples DEFAULT_RUN_EXPORTS.

(** [" ".join([data["name"], data["version"], data["build"]])] *)
Definition concrete_spec (lt : link_tuple) : string :=
  Py.join " " [lt_name lt; lt_version lt; lt_build lt].

Definition solve (self : MambaSolver) (specs : list string) (get_run_exports : bool)
    (ignore_run_exports_from ignore_run_exports : list string) : M solve_result :=
  _ ← log (EvSolve self specs);
  _specs ← lift (comprehension _norm_spec specs);
  _ ← log (EvJobs self _specs);
  match libsolv (channels self) (platform self) _specs with
  | Unsat problems =>
      mret (false, Some problems, None,
            if get_run_exports then Some DEFAULT_RUN_EXPORTS else None)
  | Sat to_link =>
      let solution := concrete_spec <$> to_link in
      if get_run_exports then
        run_exports ← _get_run_exports to_link _specs
                         ignore_run_exports_from ignore_run_exports;
        mret (true, None, Some solution, Some run_exports)
      else mret (true, None, Some solution, None)
  end.

(** [@cachetools.func.ttl_cache] apart, the factory builds the solver. *)
Definition _mamba_factory (channels_ : list string) (platform_ : string) : MambaSolver :=
  {| channels := channels_; platform := platform_ |}.

(** [dep.split()[0]: " ".join(dep.split()[1:])] for every [dep] *)
Definition full_build_dep_versions (pin_deps : list string) : result (gmap string string) :=
  for_each
    (fun (d : gmap string string) dep =>
       match Py.split_ws dep with
       | [] => Raise (IndexError "list index out of range")
       | nm :: rest => Ok (<[nm := Py.join " " rest]> d)
       end)
    pin_deps ∅.

Definition apply_pins (reqs host_req build_req outnames : list string) (m : MetaData)
  : result (list string) :=
  let pin_deps := if is_cross m then host_req else build_req in
  versions ← full_build_dep_versions (_clean_reqs pin_deps outnames);
  let pinned_req :=
    (fun dep =>
       match get_pin_from_build m dep versions with
       | Ok pinned => pinned
       | Raise _ => dep
       end) <$> reqs in
  Ok (_filter_problematic_reqs pinned_req).

(** [errors.append(_err)] when [_err is not None] *)
Definition add_error (errors : list string) (err : option string) : list string :=
  match err with
  | Some e => errors ++ [e]
  | None => errors
  end.

(** Unpacking the result of a solve that asked for run exports. *)
Definition unpack4 (r : solve_result)
  : result (bool * option string * option (list string) * gmap string (gset string)) :=
  match r with
  | (ok, err, sol, Some rx) => Ok (ok, err, sol, rx)
  | (_, _, _, None) => Raise (ValueError "not enough values to unpack (expected 4, got 3)")
  end.

(** *** The four phases of one output (the body of the loop over [metas]) *)

(** [if build_req: ...] *)
Definition build_phase (build_solver : MambaSolver) (outnames : list string)
    (m : MetaData) (solvable : bool) (errors : list string) : M locals :=
  let build_req := requirements_build m in
  let host_req := requirements_host m in
  let run_req := requirements_run m in
  let ign_runex := ignore_run_exports m in
  let ign_runex_from := ignore_run_exports_from m in
  match build_req with
  | [] => mret {| l_solvable := solvable; l_errors := errors;
                  l_build_req := Some build_req; l_host_req := Some host_req;
                  l_run_req := run_req |}
  | _ =>
      let build_req := _clean_reqs build_req outnames in
      r ← solve build_solver build_req true ign_runex_from ign_runex;
      '(_solvable, _err, build_req, build_rx) ← lift (unpack4 r);
      let solvable := solvable && _solvable in
      let errors := add_error errors _err in
      '(host_req, run_req) ← lift (
        if is_cross m then
          strong ← bucket build_rx "strong";
          let host_req := merge_reqs host_req strong in
          if negb (noarch m || noarch_python m) then
            strong ← bucket build_rx "strong";
            Ok (host_req, merge_reqs run_req strong)
          else Ok (host_req, run_req)
        else if noarch m || noarch_python m then
          if build_is_host m then
            na ← bucket build_rx "noarch";
            Ok (host_req, merge_reqs run_req na)
          else Ok (host_req, run_req)
        else
          strong ← bucket build_rx "strong";
          let run_req := merge_reqs run_req strong in
          if build_is_host m then
            weak ← bucket build_rx "weak";
            Ok (host_req, merge_reqs run_req weak)
          else
            strong ← bucket build_rx "strong";
            Ok (merge_reqs host_req strong, run_req));
      mret {| l_solvable := solvable; l_errors := errors;
              l_build_req := build_req; l_host_req := Some host_req;
              l_run_req := run_req |}
  end.

(** [if host_req: ...] *)
Definition host_phase (solver : MambaSolver) (outnames : list string)
    (m : MetaData) (st : locals) : M locals :=
  match or_empty (l_host_req st) with
  | [] => mret st
  | host_req =>
      let host_req := _clean_reqs host_req outnames in
      r ← solve solver host_req true (ignore_run_exports_from m) (ignore_run_exports m);
      '(_solvable, _err, host_req, host_rx) ← lift (unpack4 r);
      let solvable := l_solvable st && _solvable in
      let errors := add_error (l_errors st) _err in
      run_req ← lift (
        if is_cross m then
          if noarch m || noarch_python m then
            na ← bucket host_rx "noarch"; Ok (merge_reqs (l_run_req st) na)
          else
            weak ← bucket host_rx "weak"; Ok (merge_reqs (l_run_req st) weak)
        else Ok (l_run_req st));
      mret {| l_solvable := solvable; l_errors := errors;
              l_build_req := l_build_req st; l_host_req := host_req;
              l_run_req := run_req |}
  end.

(** [if run_req: ...] *)
Definition run_phase (solver : MambaSolver) (outnames : list string)
    (m : MetaData) (st : locals) : M locals :=
  match l_run_req st with
  | [] => mret st
  | run_req =>
      run_req ← lift (apply_pins run_req (or_empty (l_host_req st))
                        (or_empty (l_build_req st)) outnames m);
      let run_req := _clean_reqs run_req outnames in
      '(_solvable, _err, _, _) ← solve solver run_req false [] [];
      mret {| l_solvable := l_solvable st && _solvable;
              l_errors := add_error (l_errors st) _err;
              l_build_req := l_build_req st; l_host_req := l_host_req st;
              l_run_req := run_req |}
  end.

(** [tst_req = ... + run_req] and [if tst_req: ...] *)
Definition test_phase (solver : MambaSolver) (outnames : list string)
    (m : MetaData) (st : locals) : M (bool * list string) :=
  let tst_req := test_requires m ++ test_requirements m ++ l_run_req st in
  match tst_req with
  | [] => mret (l_solvable st, l_errors st)
  | _ =>
      let tst_req := _clean_reqs tst_req outnames in
      '(_solvable, _err, _, _) ← solve solver tst_req false [] [];
      mret (l_solvable st && _solvable, add_error (l_errors st) _err)
  end.

(** One turn of [for m, _, _ in metas]. *)
Definition check_output (solver build_solver : MambaSolver) (outnames : list string)
    (acc : bool * list string) (m : MetaData) : M (bool * list string) :=
  st ← build_phase build_solver outnames m acc.1 acc.2;
  st ← host_phase solver outnames m st;
  st ← run_phase solver outnames m st;
  test_phase solver outnames m st.

(** [channel_sources] as read from the variant file and the arguments. *)
Definition channels_of (cfg : cbc_cfg) (additional_channels : list string) : list string :=
  let channel_sources_ :=
    match channel_sources cfg with
    | Some sources => concat ((fun source => Py.strip <$> Py.split "," source) <$> sources)
    | None => ["conda-forge"; "defaults"; "msys2"]
    end in
  let channel_sources_ :=
    if bool_decide ("msys2" ∈ channel_sources_) then channel_sources_
    else channel_sources_ ++ ["msys2"] in
  match additional_channels with
  | [] => channel_sources_
  | _ => additional_channels ++ channel_sources_
  end.

(** [build_platform, build_arch = build_platform_arch.split("_")] *)
Definition build_target (platform_ arch : string) (build_platform_arch : option string)
  : result (string * string) :=
  match build_platform_arch with
  | Some bpa =>
      match Py.split "_" bpa with
      | [bp; ba] => Ok (bp, ba)
      | [] | [_] => Raise (ValueError "not enough values to unpack (expected 2, got 1)")
      | _ => Raise (ValueError "too many values to unpack (expected 2)")
      end
  | None => Ok (platform_, arch)
  end.

Definition _is_recipe_solvable_on_platform (recipe_dir cbc_path platform_ arch : string)
    (build_platform_arch : option string) (additional_channels : list string)
  : M (bool * list string) :=
  cfg ← lift (load_cbc cbc_path);
  let channel_sources_ := channels_of cfg additional_channels in
  metas ← lift (render recipe_dir platform_ arch cbc_path channel_sources_);
  '(build_platform, build_arch) ← lift (build_target platform_ arch build_platform_arch);
  let solver := _mamba_factory channel_sources_ (platform_ +:+ "-" +:+ arch) in
  let build_solver :=
    _mamba_factory channel_sources_ (build_platform +:+ "-" +:+ build_arch) in
  let outnames := name <$> metas in
  for_eachM (check_output solver build_solver outnames) metas (true, []).

(** *** The variant iteration driver *)

Definition NO_CI_SUPPORT : string :=
  "No `.ci_support/*.yaml` files found! This can happen when a rerender " +:+
  "results in no builds for a recipe (e.g., a recipe is python 2.7 only). " +:+
  "This attempted migration is being reported as not solvable.".

Definition NO_META_YAML : string :=
  "No `recipe/meta.yaml` file found! This issue is quite weird and " +:+
  "someone should investigate!".

Definition KNOWN_ARCHS : list string := ["32"; "aarch64"; "ppc64le"; "armv7l"; "arm64"].

(** Platform and architecture from the name of a variant file. *)
Definition platform_arch (cbc_fname : string) : result (string * string) :=
  let _parts := Py.split "_" (Py.basename cbc_fname) in
  match _parts with
  | platform_ :: arch :: _ =>
      Ok (platform_, if bool_decide (arch ∈ KNOWN_ARCHS) then arch else "64")
  | _ => Raise (IndexError "list index out of range")
  end.

(** One turn of [for cbc_fname in cbcs]. *)
Definition check_variant (feedstock_dir : string) (additional_channels : list string)
    (build_platform : gmap string string)
    (acc : bool * list string * gmap string bool) (cbc_fname : string)
  : M (bool * list string * gmap string bool) :=
  let '(solvable, errors, solvable_by_cbc) := acc in
  '(platform_, arch) ← lift (platform_arch cbc_fname);
  let key := platform_ +:+ "_" +:+ arch in
  '(_solvable, _errors) ←
    _is_recipe_solvable_on_platform
      (Py.path_join feedstock_dir "recipe") cbc_fname platform_ arch
      (Some (default key (build_platform !! key))) additional_channels;
  let cbc_name := Py.rsplit1_head "." (Py.basename cbc_fname) in
  mret (solvable && _solvable,
        errors ++ ((fun e => cbc_name +:+ ": " +:+ e) <$> _errors),
        <[cbc_name := _solvable]> solvable_by_cbc).

Definition _is_recipe_solvable (feedstock_dir : string) (additional_channels : list string)
    (build_platform : gmap string string) (verbosity : Z)
  : M (bool * list string * gmap string bool) :=
  let additional_channels := additional_channels ++ [virtual_package_repodata] in
  let errors : list string := [] in
  let cbcs := ci_support_yamls feedstock_dir in
  if bool_decide (Py.len cbcs = 0) then
    mret (false, errors ++ [NO_CI_SUPPORT], ∅)
  else if negb (meta_yaml_exists feedstock_dir) then
    mret (false, errors ++ [NO_META_YAML], ∅)
  else
    for_eachM (check_variant feedstock_dir additional_channels build_platform)
      cbcs (true, errors, ∅).

(** *** The bounded-execution wrapper *)

(** The worker: it runs on its own copy of the process state and sends
    either the result or the exception. *)
Definition _func (feedstock_dir : string) (additional_channels : list string)
    (build_platform : gmap string string) (verbosity : Z) (w : world) : message :=
  match _is_recipe_solvable feedstock_dir additional_channels build_platform verbosity w with
  | (Ok res, _) => SentResult res
  | (Raise e, _) => SentException e
  end.

(** [if timeout:] for [None] or an integer *)
Definition timeout_set (timeout : option Z) : bool :=
  match timeout with
  | Some t => bool_decide (t ≠ 0)
  | None => false
  end.

Definition is_recipe_solvable (fate : worker_fate) (feedstock_dir : string)
    (additional_channels : list string) (timeout : option Z)
    (build_platform : gmap string string) (verbosity : Z)
  : M (bool * list string * gmap string bool) :=
  if timeout_set timeout then
    fun w =>
      match fate with
      | Delivers =>
          match _func feedstock_dir additional_channels build_platform verbosity w with
          | SentResult res => (Ok res, w)
          | SentException e => (Ok (false, [repr e], ∅), w)
          end
      | Late => (Ok (true, [], ∅), w)
      end
  else
    _is_recipe_solvable feedstock_dir additional_channels build_platform verbosity.


(** * Properties *)

(** Forgets the collaborators, in the proof of a property that is not
    about them. *)
Ltac pure :=
  clear MatchSpec find_run_exports libsolv get_pin_from_build load_cbc render
        ci_support_yamls meta_yaml_exists virtual_package_repodata repr.

(** ** Strings *)

Lemma append_nil_l (s : string) : "" +:+ s = s.
Proof. reflexivity. Qed.

Lemma append_cons (c : ascii) (s t : string) : String c s +:+ t = String c (s +:+ t).
Proof. reflexivity. Qed.

(** Unfolds [+:+] on constructors ([simpl] leaves it alone). *)
Ltac sapp := simpl; rewrite ?append_cons, ?append_nil_l; simpl.

Lemma append_empty_r (s : string) : s +:+ "" = s.
Proof. induction s as [|c s IH]; sapp; [done | by rewrite IH]. Qed.

Lemma append_assoc (a b c : string) : (a +:+ b) +:+ c = a +:+ (b +:+ c).
Proof. induction a as [|x a IH]; sapp; [done | by rewrite IH]. Qed.

Lemma join_empty_app (l1 l2 : list string) :
  Py.join "" (l1 ++ l2) = Py.join "" l1 +:+ Py.join "" l2.
Proof.
  induction l1 as [|x l1 IH]; [done |].
  destruct l1 as [|y l1].
  - destruct l2 as [|z l2]; [by rewrite app_nil_r; simpl; rewrite append_empty_r | done].
  - change (Py.join "" (x :: (y :: l1) ++ l2) = (x +:+ "" +:+ Py.join "" (y :: l1)) +:+ Py.join "" l2).
    change (x +:+ "" +:+ Py.join "" ((y :: l1) ++ l2) = (x +:+ "" +:+ Py.join "" (y :: l1)) +:+ Py.join "" l2).
    rewrite IH. sapp. by rewrite append_assoc.
Qed.

Lemma join_intersperse (sep : string) (l : list string) :
  Py.join "" (intersperse sep l) = Py.join sep l.
Proof.
  induction l as [|x l IH]; [done |].
  destruct l as [|y l]; [done |].
  change (Py.join "" ([x; sep] ++ intersperse sep (y :: l)) = x +:+ sep +:+ Py.join sep (y :: l)).
  rewrite join_empty_app, IH.
  change (Py.join "" [x; sep]) with (x +:+ "" +:+ sep).
  by rewrite append_nil_l, append_assoc.
Qed.

Lemma contains_app (c : ascii) (a b : string) :
  Py.contains c (a +:+ b) = Py.contains c a || Py.contains c b.
Proof.
  induction a as [|x a IH]; sapp; [done |]. by rewrite IH, orb_assoc.
Qed.

Lemma contains_lstrip (c : ascii) (s : string) :
  Py.contains c s = false -> Py.contains c (Py.lstrip s) = false.
Proof.
  induction s as [|x s IH]; simpl; [done |].
  intros [? ?]%orb_false_iff. destruct (Py.isspace x); simpl; [auto |].
  apply orb_false_iff; auto.
Qed.

Lemma contains_rstrip (c : ascii) (s : string) :
  Py.contains c s = false -> Py.contains c (Py.rstrip s) = false.
Proof.
  induction s as [|x s IH]; simpl; [done |].
  intros [Hx Hs]%orb_false_iff. specialize (IH Hs).
  destruct (Py.rstrip s) as [|y r].
  - destruct (Py.isspace x); simpl; [done | by rewrite Hx].
  - simpl in *. by rewrite Hx, IH.
Qed.

Lemma contains_strip (c : ascii) (s : string) :
  Py.contains c s = false -> Py.contains c (Py.strip s) = false.
Proof. intros. by apply contains_rstrip, contains_lstrip. Qed.

Lemma split_nonempty (c : ascii) (s : string) : Py.split c s ≠ [].
Proof.
  induction s as [|x s IH]; simpl; [done |].
  destruct (Py.ascii_eqb x c); [done |]. by destruct (Py.split c s).
Qed.

(** No piece of [s.split(c)] holds [c]. *)
Lemma split_pieces (c : ascii) (s : string) :
  Forall (fun p => Py.contains c p = false) (Py.split c s).
Proof.
  induction s as [|x s IH]; simpl.
  - by repeat constructor.
  - destruct (Py.ascii_eqb x c) eqn:E.
    + constructor; [done | exact IH].
    + pose proof (split_nonempty c s) as Hne.
      destruct (Py.split c s) as [|h t]; [done |].
      inversion IH as [|? ? Hh Ht]; subst. constructor; [|done].
      simpl. rewrite Hh, orb_false_r.
      unfold Py.ascii_eqb in *. apply bool_decide_eq_false.
      apply bool_decide_eq_false in E. congruence.
Qed.

Lemma split_no_sep (c : ascii) (s : string) :
  Py.contains c s = false -> Py.split c s = [s].
Proof.
  induction s as [|x s IH]; simpl; [done |].
  intros [Hx Hs]%orb_false_iff. rewrite (IH Hs).
  unfold Py.ascii_eqb in *. apply bool_decide_eq_false in Hx.
  rewrite bool_decide_eq_false_2; [done | congruence].
Qed.

Lemma split_app_sep (c : ascii) (a b : string) :
  Py.contains c a = false ->
  Py.split c (a +:+ String c b) = a :: Py.split c b.
Proof.
  induction a as [|x a IH]; sapp.
  - intros _. unfold Py.ascii_eqb. by rewrite bool_decide_eq_true_2.
  - intros [Hx Ha]%orb_false_iff. rewrite (IH Ha).
    unfold Py.ascii_eqb in *. apply bool_decide_eq_false in Hx.
    rewrite bool_decide_eq_false_2; [done | congruence].
Qed.

(** Splitting what was joined gives the pieces back. *)
Lemma split_join (c : ascii) (l : list string) :
  l ≠ [] -> Forall (fun p => Py.contains c p = false) l ->
  Py.split c (Py.join (String c "") l) = l.
Proof.
  induction l as [|x l IH]; [done |]. intros _ Hall.
  inversion Hall as [|? ? Hx Hl]; subst.
  destruct l as [|y l].
  - simpl. by apply split_no_sep.
  - change (Py.split c (x +:+ String c (Py.join (String c "") (y :: l))) = x :: y :: l).
    rewrite split_app_sep by done. f_equal. by apply IH.
Qed.

Lemma contains_join (c : ascii) (sep : string) (l : list string) :
  Py.contains c sep = false ->
  Forall (fun p => Py.contains c p = false) l ->
  Py.contains c (Py.join sep l) = false.
Proof.
  intros Hsep. induction l as [|x l IH]; [done |]. intros Hall.
  inversion Hall as [|? ? Hx Hl]; subst. destruct l as [|y l]; [done |].
  change (Py.contains c (x +:+ sep +:+ Py.join sep (y :: l)) = false).
  rewrite !contains_app, Hx, Hsep. simpl. by apply IH.
Qed.

Lemma join_concat_intersperse (sep : string) (ls : list (list string)) :
  Py.join "" (concat (intersperse [sep] ls)) = Py.join sep (Py.join "" <$> ls).
Proof.
  induction ls as [|x ls IH]; [done |].
  destruct ls as [|y ls].
  - simpl. by rewrite app_nil_r.
  - change (Py.join "" (x ++ [sep] ++ concat (intersperse [sep] (y :: ls)))
            = Py.join "" x +:+ sep +:+ Py.join sep (Py.join "" <$> y :: ls)).
    by rewrite !join_empty_app, IH.
Qed.

(** ** Version broadening *)

(** A loop that appends what [g] gives for each element and puts [sep]
    after every element but the last appends the pieces with [sep] between. *)
Lemma separated_loop {A} (g : A -> list string) (sep : string) (n : Z) (l : list A) :
  forall (k : nat) (reqs : list string),
  n = Z.of_nat (k + length l) ->
  fold_left
    (fun reqs '(i, a) =>
       let reqs := reqs ++ g a in
       if bool_decide (i ≠ n - 1) then reqs ++ [sep] else reqs)
    (imap (fun i x => (Z.of_nat (k + i), x)) l) reqs
  = reqs ++ concat (intersperse [sep] (g <$> l)).
Proof.
  induction l as [|a l IH]; intros k reqs Hn.
  - simpl. by rewrite app_nil_r.
  - rewrite imap_cons. cbn [fold_left].
    rewrite (imap_ext _ (fun i x => (Z.of_nat (S k + i), x)))
      by (intros; simpl; do 2 f_equal; lia).
    rewrite IH by (simpl in Hn; lia).
    destruct l as [|b l].
    + simpl in *. rewrite bool_decide_eq_false_2 by lia. by rewrite !app_nil_r.
    + rewrite bool_decide_eq_true_2 by (simpl in Hn; lia).
      change (intersperse [sep] (g <$> a :: b :: l))
        with (g a :: [sep] :: intersperse [sep] (g <$> b :: l)).
      cbn [concat]. by rewrite <- !app_assoc.
Qed.

Lemma concat_intersperse_singletons (sep : string) (l : list string) :
  concat (intersperse [sep] ((fun x => [x]) <$> l)) = intersperse sep l.
Proof.
  induction l as [|x [|y l] IH]; [done | done |].
  change (intersperse [sep] ((fun x => [x]) <$> x :: y :: l))
    with ([x] :: [sep] :: intersperse [sep] ((fun x => [x]) <$> y :: l)).
  cbn [concat]. by rewrite IH.
Qed.

Lemma munge_pipe_loop_spec (psplit reqs : list string) :
  munge_pipe_loop psplit reqs
  = reqs ++ intersperse "|" (munge_alternative <$> psplit).
Proof.
  unfold munge_pipe_loop, Py.enumerate, Py.len.
  rewrite (separated_loop (fun pp => [munge_alternative pp]) "|" _ psplit 0 reqs) by done.
  f_equal. rewrite <- concat_intersperse_singletons. by rewrite <- list_fmap_compose.
Qed.

Lemma munge_comma_loop_spec (csplit reqs : list string) :
  munge_comma_loop csplit reqs
  = reqs ++ concat (intersperse [","]
      ((fun p => intersperse "|" (munge_alternative <$> Py.split "|" p)) <$> csplit)).
Proof.
  unfold munge_comma_loop, Py.enumerate, Py.len.
  rewrite <- (separated_loop _ "," _ csplit 0 reqs) by done.
  change (fun i x => (Z.of_nat (0 + i), x)) with (fun i (x : string) => (Z.of_nat i, x)).
  generalize (imap (fun i (x : string) => (Z.of_nat i, x)) csplit).
  change (0 + length csplit)%nat with (length csplit).
  intros l. revert reqs. induction l as [|[i p] l IH]; intros reqs; [done |].
  cbn [fold_left]. rewrite munge_pipe_loop_spec. apply IH.
Qed.

Lemma munge_req_star_join (req : string) :
  _munge_req_star req = broaden_alternatives req.
Proof.
  unfold _munge_req_star, broaden_alternatives, alternatives.
  rewrite munge_comma_loop_spec, app_nil_l, join_concat_intersperse.
  f_equal. rewrite <- !list_fmap_compose. apply list_fmap_ext.
  intros _ p _. simpl. apply join_intersperse.
Qed.

(** Broadening one alternative brings in no separator. *)
Lemma munge_alternative_no_sep (c : ascii) (pp : string) :
  Py.contains c ".*" = false ->
  Py.contains c pp = false -> Py.contains c (munge_alternative pp) = false.
Proof.
  intros Hc Hpp. unfold munge_alternative.
  pose proof (contains_strip c pp Hpp) as Hs.
  destruct (_ || _); [done |].
  rewrite contains_app, Hc, orb_false_r.
  destruct (Py.startswith _ _); [| done].
  destruct (Py.strip pp) as [|x t]; [done |].
  simpl in *. by apply orb_false_iff in Hs as [_ ?].
Qed.

Lemma munged_pieces (c : ascii) (p : string) :
  Py.contains c ".*" = false ->
  Forall (fun a => Py.contains c a = false) (munge_alternative <$> Py.split c p).
Proof.
  intros Hc. apply Forall_fmap. eapply Forall_impl; [apply split_pieces |].
  intros a Ha. by apply munge_alternative_no_sep.
Qed.

(** A piece of a split holds no character the string does not hold. *)
Lemma split_pieces_sub (c d : ascii) (s : string) :
  Py.contains c s = false ->
  Forall (fun a => Py.contains c a = false) (Py.split d s).
Proof.
  induction s as [|x s IH]; simpl.
  - by repeat constructor.
  - intros [Hx Hs]%orb_false_iff. specialize (IH Hs).
    destruct (Py.ascii_eqb x d); [by constructor |].
    destruct (Py.split d s) as [|h t]; [by repeat constructor; simpl; rewrite Hx |].
    inversion IH; subst. constructor; [simpl; by rewrite Hx | done].
Qed.

Lemma split_broadened (req : string) :
  alternatives (broaden_alternatives req)
  = fmap (M := list) munge_alternative <$> alternatives req.
Proof.
  unfold alternatives, broaden_alternatives, alternatives.
  rewrite split_join.
  - rewrite <- !list_fmap_compose. apply list_fmap_ext. intros _ p _. simpl.
    apply split_join; [| by apply munged_pieces].
    pose proof (split_nonempty "|" p). by destruct (Py.split "|" p).
  - pose proof (split_nonempty "," req). by destruct (Py.split "," req).
  - rewrite <- !list_fmap_compose. apply Forall_fmap.
    eapply Forall_impl; [apply (split_pieces "," req) |].
    intros p Hp. simpl. apply contains_join; [done |].
    apply Forall_fmap. eapply Forall_impl; [apply (split_pieces_sub "," "|" p Hp) |].
    intros a Ha. simpl. by apply munge_alternative_no_sep.
Qed.

Lemma munge_single_alternative (req : string) :
  Py.contains "," req = false -> Py.contains "|" req = false ->
  _munge_req_star req = munge_alternative req.
Proof.
  intros Hc Hp. rewrite munge_req_star_join.
  unfold broaden_alternatives, alternatives.
  by rewrite (split_no_sep _ _ Hc); simpl; rewrite (split_no_sep _ _ Hp).
Qed.

(** C3, as amended: [_munge_req_star] treats every alternative of the
    version string on its own, the alternatives being the pieces between
    the [,] and [|] separators, and puts the separators back where they
    were: splitting the result gives the broadened alternatives. An
    alternative is first stripped of surrounding white space; it is then
    kept as it is when it starts with one of [REQ_START] or holds a [*],
    and otherwise gets [.*] appended after one leading [=] is removed. *)
Theorem munge_req_star_per_alternative (req : string) :
  _munge_req_star req = broaden_alternatives req
  ∧ alternatives (_munge_req_star req)
    = fmap (M := list) munge_alternative <$> alternatives req
  ∧ (Py.contains "," req = false -> Py.contains "|" req = false ->
     _munge_req_star req =
       let pp := Py.strip req in
       if starts_with_req_start pp || Py.contains "*" pp then pp
       else (if Py.startswith pp "=" then Py.drop1 pp else pp) +:+ ".*").
Proof.
  split; [apply munge_req_star_join |]. split.
  - rewrite munge_req_star_join. apply split_broadened.
  - intros Hc Hp. by rewrite munge_single_alternative.
Qed.

(** ** Running the monad *)

Lemma bind_run {A B} (m : M A) (k : A -> M B) (w : world) :
  (m ≫= k) w =
  match m w with
  | (Ok a, w') => k a w'
  | (Raise e, w') => (Raise e, w')
  end.
Proof. reflexivity. Qed.

Lemma bind_ok {A B} (m : M A) (k : A -> M B) (w w' : world) (a : A) :
  m w = (Ok a, w') -> (m ≫= k) w = k a w'.
Proof. intros H. by rewrite bind_run, H. Qed.

Lemma bind_raise {A B} (m : M A) (k : A -> M B) (w w' : world) (e : exn) :
  m w = (Raise e, w') -> (m ≫= k) w = (Raise e, w').
Proof. intros H. by rewrite bind_run, H. Qed.

Lemma lift_bind {A B} (r : result A) (k : A -> M B) (w : world) :
  (lift r ≫= k) w =
  match r with
  | Ok a => k a w
  | Raise e => (Raise e, w)
  end.
Proof. by destruct r. Qed.

Lemma comprehension_raises {A B} (f : A -> result B) (l : list A) (x : A) (e : exn) :
  x ∈ l -> f x = Raise e -> exists e', comprehension f l = Raise e'.
Proof.
  induction l as [|y l IH]; [by intros ?%not_elem_of_nil |].
  intros [-> | Hin]%elem_of_cons Hx; simpl.
  - rewrite Hx. by eexists.
  - destruct (f y); [| by eexists].
    destruct (IH Hin Hx) as [e' ->]. by eexists.
Qed.

(** ** Spec normalisation *)

Lemma norm_parsed_build_without_version (myspec : string) (m : match_spec) :
  truthy (raw_build m) = true -> truthy (raw_version m) = false ->
  norm_parsed myspec m
  = Raise (RuntimeError ("spec '" +:+ myspec +:+ "' has build but not version!")).
Proof. intros Hb Hv. unfold norm_parsed. by rewrite Hb, Hv. Qed.

Lemma norm_parsed_ok (myspec n : string) (m : match_spec) :
  exact_name m = Some n ->
  truthy (raw_version m) = true ∨ truthy (raw_build m) = false ->
  norm_parsed myspec m = Ok (Py.join " " (normal_parts n m)).
Proof.
  intros Hn Hvb. unfold norm_parsed, normal_parts, raw_version in *. rewrite Hn.
  destruct m as [nm [[[|c1 rv] ss]|] [[|c2 b]|]]; simpl in Hvb;
    try reflexivity; destruct Hvb; discriminate.
Qed.

Lemma norm_parsed_pattern_name (myspec : string) (m : match_spec) :
  exact_name m = None ->
  truthy (raw_version m) = true ∨ truthy (raw_build m) = false ->
  norm_parsed myspec m
  = Raise (TypeError "sequence item 0: expected str instance, NoneType found").
Proof.
  intros Hn Hvb. unfold norm_parsed, raw_version in *. rewrite Hn.
  destruct m as [nm [[[|c1 rv] ss]|] [[|c2 b]|]]; simpl in Hvb;
    try reflexivity; destruct Hvb; discriminate.
Qed.

(** C9, as amended: a spec with a build string and no version makes
    [_norm_spec] raise its [RuntimeError], and a [solve] whose list holds
    such a spec raises when it has been entered and before any job
    reaches libmamba (the state it leaves has the [EvSolve] of the call
    and no [EvJobs]). Of the other specs, those with a name only or with
    a version, one with an exact name is normalised to the name, the
    broadened version and the build string that are there, joined by
    spaces; one whose name is a pattern, with no exact value, makes
    [_norm_spec] raise the [TypeError] of the join. *)
Theorem norm_spec_rejects_build_without_version
    (myspec : string) (m : match_spec) :
  MatchSpec myspec = Ok m ->
  (truthy (raw_build m) = true -> truthy (raw_version m) = false ->
   _norm_spec myspec
   = Raise (RuntimeError ("spec '" +:+ myspec +:+ "' has build but not version!"))
   ∧ forall self specs get_run_exports ign_from ign w,
       myspec ∈ specs ->
       exists e,
         solve self specs get_run_exports ign_from ign w
         = (Raise e, {| solver_log := solver_log w ++ [EvSolve self specs];
                        rx_cache := rx_cache w |}))
  ∧ (forall n,
       exact_name m = Some n ->
       truthy (raw_version m) = true ∨ truthy (raw_build m) = false ->
       _norm_spec myspec = Ok (Py.join " " (normal_parts n m)))
  ∧ (exact_name m = None ->
     truthy (raw_version m) = true ∨ truthy (raw_build m) = false ->
     _norm_spec myspec
     = Raise (TypeError "sequence item 0: expected str instance, NoneType found")).
Proof.
  intros Hm. split; [| split].
  - intros Hb Hv.
    assert (_norm_spec myspec
            = Raise (RuntimeError ("spec '" +:+ myspec +:+ "' has build but not version!")))
      as Hraise.
    { unfold _norm_spec. rewrite Hm. simpl.
      by apply norm_parsed_build_without_version. }
    split; [done |].
    intros self specs gre igf ig w Hin.
    destruct (comprehension_raises _norm_spec specs myspec _ Hin Hraise) as [e He].
    exists e. unfold solve. rewrite bind_run. simpl.
    rewrite lift_bind, He. done.
  - intros n Hn Hvb. unfold _norm_spec. rewrite Hm. simpl.
    by apply norm_parsed_ok.
  - intros Hn Hvb. unfold _norm_spec. rewrite Hm. simpl.
    by apply norm_parsed_pattern_name.
Qed.

(** ** Run-export bundles *)

Lemma DEFAULT_is_empty_bundle : DEFAULT_RUN_EXPORTS = mk_bundle ∅ ∅ ∅.
Proof. reflexivity. Qed.

Lemma mk_bundle_weak (w s n : gset string) : mk_bundle w s n !! "weak" = Some w.
Proof. unfold mk_bundle. by simplify_map_eq. Qed.

Lemma mk_bundle_strong (w s n : gset string) : mk_bundle w s n !! "strong" = Some s.
Proof. unfold mk_bundle. by simplify_map_eq. Qed.

Lemma mk_bundle_noarch (w s n : gset string) : mk_bundle w s n !! "noarch" = Some n.
Proof. unfold mk_bundle. by simplify_map_eq. Qed.

Lemma mk_bundle_other (w s n : gset string) (k : string) :
  k ∉ BUCKETS -> mk_bundle w s n !! k = None.
Proof. pure.
  unfold BUCKETS, mk_bundle. intros Hk.
  rewrite !lookup_insert_ne, lookup_singleton_ne; [done | set_solver..].
Qed.

Lemma mk_bundle_dom (w s n : gset string) : dom (mk_bundle w s n) = BUCKETS.
Proof. unfold mk_bundle, BUCKETS. rewrite !dom_insert_L, dom_singleton_L. set_solver. Qed.

Lemma set_weak (w s n x : gset string) : <["weak" := x]> (mk_bundle w s n) = mk_bundle x s n.
Proof. unfold mk_bundle. by rewrite insert_insert_eq. Qed.

Lemma set_strong (w s n x : gset string) :
  <["strong" := x]> (mk_bundle w s n) = mk_bundle w x n.
Proof.
  unfold mk_bundle. rewrite (insert_insert_ne _ "strong" "weak") by done.
  by rewrite insert_insert_eq.
Qed.

Lemma set_noarch (w s n x : gset string) :
  <["noarch" := x]> (mk_bundle w s n) = mk_bundle w s x.
Proof.
  unfold mk_bundle.
  rewrite (insert_insert_ne _ "noarch" "weak"), (insert_insert_ne _ "noarch" "strong") by done.
  by rewrite insert_singleton_eq.
Qed.

(** A bundle with the three keys is given by its three buckets. *)
Lemma bundle_wf_mk (b : gmap string (gset string)) :
  bundle_wf b <-> exists w s n, b = mk_bundle w s n.
Proof.
  split.
  - intros Hdom.
    assert (forall k, k ∈ BUCKETS -> is_Some (b !! k)) as Hin.
    { intros k Hk. apply elem_of_dom. by rewrite Hdom. }
    destruct (Hin "weak") as [w Hw]; [unfold BUCKETS; set_solver |].
    destruct (Hin "strong") as [s Hs]; [unfold BUCKETS; set_solver |].
    destruct (Hin "noarch") as [n Hn]; [unfold BUCKETS; set_solver |].
    exists w, s, n. apply map_eq. intros k.
    destruct (decide (k ∈ BUCKETS)) as [Hk | Hk].
    + unfold BUCKETS in Hk.
      apply elem_of_union in Hk as [[->%elem_of_singleton | ->%elem_of_singleton]%elem_of_union
                                   | ->%elem_of_singleton].
      * by rewrite mk_bundle_weak.
      * by rewrite mk_bundle_strong.
      * by rewrite mk_bundle_noarch.
    + rewrite mk_bundle_other by done. apply not_elem_of_dom. by rewrite Hdom.
  - intros (w & s & n & ->). apply mk_bundle_dom.
Qed.

Lemma DEFAULT_wf : bundle_wf DEFAULT_RUN_EXPORTS.
Proof. apply mk_bundle_dom. Qed.

Lemma dom_DEFAULT : dom DEFAULT_RUN_EXPORTS = BUCKETS.
Proof. apply mk_bundle_dom. Qed.

Lemma bucket_weak (w s n : gset string) : bucket (mk_bundle w s n) "weak" = Ok w.
Proof. unfold bucket. by rewrite mk_bundle_weak. Qed.

Lemma bucket_strong (w s n : gset string) : bucket (mk_bundle w s n) "strong" = Ok s.
Proof. unfold bucket. by rewrite mk_bundle_strong. Qed.

Lemma bucket_noarch (w s n : gset string) : bucket (mk_bundle w s n) "noarch" = Ok n.
Proof. unfold bucket. by rewrite mk_bundle_noarch. Qed.

Lemma in_BUCKETS (k : string) :
  k ∈ BUCKETS <-> k = "weak" ∨ k = "strong" ∨ k = "noarch".
Proof. pure. unfold BUCKETS. set_solver. Qed.

Lemma sanitize_list_step_unknown (w s n : gset string) (k : string) :
  k ∉ BUCKETS ->
  sanitize_list_step (mk_bundle w s n) k = Ok (mk_bundle (w ∪ {[ k ]}) s n).
Proof.
  intros Hk. unfold sanitize_list_step.
  rewrite dom_DEFAULT, bool_decide_eq_false_2 by done.
  rewrite bucket_weak. simpl. by rewrite set_weak.
Qed.

Lemma sanitize_list_step_bucket (b : gmap string (gset string)) (k : string) :
  k ∈ BUCKETS ->
  sanitize_list_step b k
  = Raise (TypeError "list indices must be integers or slices, not str").
Proof.
  intros Hk. unfold sanitize_list_step.
  by rewrite dom_DEFAULT, bool_decide_eq_true_2.
Qed.

Lemma sanitize_map_step_spec (w s n : gset string) (k : string) (v : list string) :
  sanitize_map_step (mk_bundle w s n) (k, v)
  = Ok (mk_bundle
          (w ∪ (if bool_decide (k = "weak") then list_to_set v else ∅)
             ∪ (if bool_decide (k ∉ BUCKETS) then {[ k ]} else ∅))
          (s ∪ (if bool_decide (k = "strong") then list_to_set v else ∅))
          (n ∪ (if bool_decide (k = "noarch") then list_to_set v else ∅))).
Proof. pure.
  unfold sanitize_map_step. rewrite dom_DEFAULT.
  destruct (decide (k ∈ BUCKETS)) as [Hk | Hk].
  - rewrite bool_decide_eq_true_2 by done.
    rewrite (bool_decide_eq_false_2 (k ∉ BUCKETS)) by auto.
    apply in_BUCKETS in Hk as [-> | [-> | ->]]; simpl.
    + rewrite bucket_weak. simpl. rewrite set_weak. f_equal. f_equal; set_solver.
    + rewrite bucket_strong. simpl. rewrite set_strong. f_equal. f_equal; set_solver.
    + rewrite bucket_noarch. simpl. rewrite set_noarch. f_equal. f_equal; set_solver.
  - rewrite bool_decide_eq_false_2 by done.
    rewrite (bool_decide_eq_true_2 (k ∉ BUCKETS)) by done.
    rewrite bucket_weak. simpl. rewrite set_weak.
    rewrite !bool_decide_eq_false_2
      by (intros ->; apply Hk, in_BUCKETS; auto).
    f_equal. f_equal; set_solver.
Qed.

Lemma sanitize_map_loop (l : list (string * list string)) :
  forall w s n : gset string,
  for_each sanitize_map_step l (mk_bundle w s n)
  = Ok (mk_bundle (w ∪ declared_in l "weak" ∪ unknown_keys l)
                  (s ∪ declared_in l "strong") (n ∪ declared_in l "noarch")).
Proof. pure.
  induction l as [|[k v] l IH]; intros w s n.
  - simpl. f_equal. unfold declared_in, unknown_keys. simpl.
    f_equal; set_solver.
  - cbn [for_each]. rewrite sanitize_map_step_spec. simpl. rewrite IH.
    f_equal. unfold declared_in, unknown_keys. cbn [fmap list_fmap union_list fst snd filter].
    simpl. destruct (bool_decide (k ∉ BUCKETS)); simpl; f_equal; set_solver.
Qed.

Lemma elem_of_declared_in (l : list (string * list string)) (key x : string) :
  x ∈ declared_in l key <-> exists v, (key, v) ∈ l ∧ x ∈ v.
Proof.
  unfold declared_in. rewrite elem_of_union_list. split.
  - intros (X & [[k v] [-> Hkv]]%list_elem_of_fmap & Hx). simpl in Hx.
    case_bool_decide as Hk; [| set_solver]. simpl in Hk. subst k.
    exists v. split; [done |]. by apply elem_of_list_to_set in Hx.
  - intros (v & Hkv & Hx). exists (list_to_set v). split.
    + apply list_elem_of_fmap. exists (key, v). simpl.
      by rewrite bool_decide_eq_true_2.
    + by apply elem_of_list_to_set.
Qed.

Lemma declared_in_map (d : gmap string (list string)) (key : string) :
  declared_in (map_to_list d) key = declared d key.
Proof.
  apply set_eq. intros x. rewrite elem_of_declared_in. unfold declared.
  rewrite elem_of_list_to_set. split.
  - intros (v & Hkv%elem_of_map_to_list & Hx). by rewrite Hkv.
  - destruct (d !! key) as [v|] eqn:Hd; simpl; [| by intros ?%not_elem_of_nil].
    intros Hx. exists v. split; [by apply elem_of_map_to_list | done].
Qed.

Lemma unknown_keys_map (d : gmap string (list string)) :
  unknown_keys (map_to_list d) = dom d ∖ BUCKETS.
Proof.
  apply set_eq. intros x. unfold unknown_keys.
  rewrite elem_of_list_to_set, list_elem_of_In, filter_In, <- list_elem_of_In.
  rewrite bool_decide_eq_true, elem_of_difference, elem_of_dom.
  split; intros [Hx ?]; (split; [| done]).
  - apply list_elem_of_fmap in Hx as [[k v] [-> Hkv%elem_of_map_to_list]]. by eexists.
  - destruct Hx as [v Hv]. apply list_elem_of_fmap. exists (x, v).
    split; [done | by apply elem_of_map_to_list].
Qed.

(** C8, as amended: a declaration that is one non-empty string other than
    a bucket name yields the bundle whose only entry is that string, in
    [weak]; a mapping yields the bundle with, in every bucket, the tokens
    declared under its name and, in [weak] besides, every key of the
    mapping that is no bucket name. *)
Theorem sanitize_run_exports_spec :
  (forall s : string,
     s ≠ "" -> s ∉ BUCKETS ->
     sanitize_run_exports (RxStr s) = Ok (mk_bundle {[ s ]} ∅ ∅))
  ∧ (forall d : gmap string (list string),
       sanitize_run_exports (RxMap d)
       = Ok (mk_bundle (declared d "weak" ∪ (dom d ∖ BUCKETS))
                       (declared d "strong") (declared d "noarch"))).
Proof. pure.
  split.
  - intros s Hs Hk. unfold sanitize_run_exports.
    assert (rx_truthy (RxStr s) = true) as -> by by destruct s.
    cbn [for_each]. rewrite DEFAULT_is_empty_bundle.
    rewrite sanitize_list_step_unknown by done. simpl.
    f_equal. f_equal. set_solver.
  - intros d. unfold sanitize_run_exports. cbn [rx_truthy].
    case_bool_decide as Hd.
    + rewrite DEFAULT_is_empty_bundle, sanitize_map_loop.
      rewrite !declared_in_map, unknown_keys_map.
      f_equal. f_equal; set_solver.
    + subst d. rewrite DEFAULT_is_empty_bundle.
      unfold declared. rewrite !lookup_empty, dom_empty_L. simpl.
      by replace ((∅ : gset string) ∪ ∅ ∖ BUCKETS) with (∅ : gset string) by set_solver.
Qed.

(** *** Every bundle has the three buckets *)

Lemma overwrite_dom (b : gmap string (gset string)) (k : string) (s x : gset string) :
  bucket b k = Ok s -> dom (<[k := x]> b) = dom b.
Proof.
  unfold bucket. destruct (b !! k) eqn:Hk; [| done]. intros _.
  apply dom_insert_lookup_L. by eexists.
Qed.

Lemma for_each_dom {A} (body : gmap string (gset string) -> A -> result (gmap string (gset string)))
    (l : list A) :
  (forall b x b', body b x = Ok b' -> dom b' = dom b) ->
  forall b b', for_each body l b = Ok b' -> dom b' = dom b.
Proof.
  intros Hbody. induction l as [|x l IH]; intros b b'; simpl.
  - by intros [= ->].
  - destruct (body b x) as [b1|] eqn:Hb; [| done]. simpl.
    intros H. rewrite (IH _ _ H). by eapply Hbody.
Qed.

Lemma sanitize_list_step_dom (b : gmap string (gset string)) (k : string)
    (b' : gmap string (gset string)) :
  sanitize_list_step b k = Ok b' -> dom b' = dom b.
Proof.
  unfold sanitize_list_step. case_bool_decide; [done |].
  destruct (bucket b "weak") as [s|] eqn:Hs; [| done]. simpl.
  intros [= <-]. by eapply overwrite_dom.
Qed.

Lemma sanitize_map_step_dom (b : gmap string (gset string)) (kv : string * list string)
    (b' : gmap string (gset string)) :
  sanitize_map_step b kv = Ok b' -> dom b' = dom b.
Proof.
  unfold sanitize_map_step. destruct kv as [k v]. case_bool_decide.
  - destruct (bucket b k) as [s|] eqn:Hs; [| done]. simpl.
    intros [= <-]. by eapply overwrite_dom.
  - destruct (bucket b "weak") as [s|] eqn:Hs; [| done]. simpl.
    intros [= <-]. by eapply overwrite_dom.
Qed.

Lemma sanitize_run_exports_wf (rx : raw_run_exports) (b : gmap string (gset string)) :
  sanitize_run_exports rx = Ok b -> bundle_wf b.
Proof.
  unfold sanitize_run_exports, bundle_wf. rewrite <- dom_DEFAULT.
  destruct (rx_truthy rx); [| by intros [= <-]].
  destruct rx as [|s|l|d].
  - by intros [= <-].
  - apply for_each_dom, sanitize_list_step_dom.
  - apply for_each_dom, sanitize_list_step_dom.
  - apply for_each_dom, sanitize_map_step_dom.
Qed.

Lemma union_buckets_dom (a rx c : gmap string (gset string)) :
  union_buckets a rx = Ok c -> dom c = dom a.
Proof.
  unfold union_buckets. apply for_each_dom. intros b key b'.
  destruct (bucket b key) as [s|] eqn:Hs; [| done]. simpl.
  destruct (bucket rx key); [| done]. simpl.
  intros [= <-]. by eapply overwrite_dom.
Qed.

Lemma cache_lookup_wf (lt : link_tuple) (cache : list (link_tuple * gmap string (gset string)))
    (b : gmap string (gset string)) :
  cache_wf cache -> cache_lookup lt cache = Some b -> bundle_wf b.
Proof.
  unfold cache_wf, cache_lookup. intros Hwf.
  destruct (List.find _ cache) as [[k v]|] eqn:Hfind; [| done].
  intros [= <-]. apply find_some in Hfind as [Hin _].
  rewrite Forall_forall in Hwf. apply list_elem_of_In in Hin. exact (Hwf _ Hin).
Qed.

Lemma cache_put_wf (lt : link_tuple) (b : gmap string (gset string))
    (cache : list (link_tuple * gmap string (gset string))) :
  cache_wf cache -> bundle_wf b -> cache_wf (cache_put lt b cache).
Proof.
  unfold cache_wf, cache_put, cache_remove. intros Hwf Hb.
  apply Forall_take. constructor; [done |].
  rewrite Forall_forall in *. intros e He.
  apply list_elem_of_In, filter_In in He as [He _]. by apply Hwf, list_elem_of_In.
Qed.

Lemma cache_mutate_wf (lt : link_tuple) (b : gmap string (gset string))
    (cache : list (link_tuple * gmap string (gset string))) :
  cache_wf cache -> bundle_wf b -> cache_wf (cache_mutate lt b cache).
Proof.
  unfold cache_wf, cache_mutate. intros Hwf Hb.
  apply Forall_fmap. eapply Forall_impl; [exact Hwf |].
  intros e He. simpl. by case_bool_decide.
Qed.

Lemma keeps_ret {A} (a : A) (Post : A -> Prop) : Post a -> keeps_cache (mret a) Post.
Proof. intros Ha w r w' Hwf [= <- <-]. split; [done |]. by intros ? [= <-]. Qed.

Lemma keeps_lift {A} (r : result A) (Post : A -> Prop) :
  (forall a, r = Ok a -> Post a) -> keeps_cache (lift r) Post.
Proof. intros Hr w r' w' Hwf [= <- <-]. by split. Qed.

Lemma keeps_log (ev : event) : keeps_cache (log ev) (fun _ => True).
Proof. intros w r w' Hwf [= <- <-]. by split. Qed.

Lemma keeps_bind {A B} (m : M A) (k : A -> M B) (P : A -> Prop) (Q : B -> Prop) :
  keeps_cache m P -> (forall a, P a -> keeps_cache (k a) Q) ->
  keeps_cache (m ≫= k) Q.
Proof.
  intros Hm Hk w r w' Hwf. rewrite bind_run.
  destruct (m w) as [[a|e] w1] eqn:Hmw.
  - destruct (Hm _ _ _ Hwf Hmw) as [Hwf1 Ha].
    intros Hka. eapply Hk; eauto.
  - destruct (Hm _ _ _ Hwf Hmw) as [Hwf1 _].
    intros [= <- <-]. by split.
Qed.

Lemma keeps_weaken {A} (m : M A) (P Q : A -> Prop) :
  (forall a, P a -> Q a) -> keeps_cache m P -> keeps_cache m Q.
Proof.
  intros HPQ Hm w r w' Hwf Hrun. destruct (Hm _ _ _ Hwf Hrun) as [? Ha].
  split; [done |]. intros a ->. by apply HPQ, Ha.
Qed.

Lemma keeps_for_eachM {S A} (body : S -> A -> M S) (I : S -> Prop) (l : list A) :
  (forall s x, I s -> keeps_cache (body s x) I) ->
  forall s, I s -> keeps_cache (for_eachM body l s) I.
Proof.
  intros Hbody. induction l as [|x l IH]; intros s Hs; simpl.
  - by apply keeps_ret.
  - eapply keeps_bind; [by apply Hbody |]. intros s' Hs'. by apply IH.
Qed.

Lemma keeps_set_cache (f : list (link_tuple * gmap string (gset string)) ->
                           list (link_tuple * gmap string (gset string))) :
  (forall c, cache_wf c -> cache_wf (f c)) -> keeps_cache (set_cache f) (fun _ => True).
Proof. intros Hf w r w' Hwf [= <- <-]. split; [by apply Hf | done]. Qed.

Lemma _get_run_export_wf (lt : link_tuple) :
  keeps_cache (_get_run_export lt) bundle_wf.
Proof.
  intros w r w' Hwf. unfold _get_run_export.
  destruct (cache_lookup lt (rx_cache w)) as [b|] eqn:Hhit.
  - pose proof (cache_lookup_wf _ _ _ Hwf Hhit) as Hb.
    intros [= <- <-]. simpl. split; [by apply cache_put_wf |]. by intros ? [= <-].
  - assert (keeps_cache
              (rx ← lift (find_run_exports lt);
               run_exports ← lift (sanitize_run_exports rx);
               _ ← set_cache (cache_put lt run_exports);
               mret run_exports) bundle_wf) as Hmiss; [| by apply Hmiss].
    eapply keeps_bind; [apply (keeps_lift _ (fun _ => True)); done |]. intros rx _.
    eapply keeps_bind; [apply (keeps_lift _ bundle_wf), sanitize_run_exports_wf |].
    intros b Hb.
    eapply keeps_bind; [apply keeps_set_cache; intros; by apply cache_put_wf |].
    intros _ _. by apply keeps_ret.
Qed.

Lemma _get_run_exports_wf (link_tuples : list link_tuple)
    (_specs ign_from ign : list string) :
  keeps_cache (_get_run_exports link_tuples _specs ign_from ign) bundle_wf.
Proof.
  unfold _get_run_exports.
  eapply keeps_bind; [apply (keeps_lift _ (fun _ => True)); done |]. intros names _.
  eapply keeps_bind; [apply (keeps_lift _ (fun _ => True)); done |]. intros ign_rex_from _.
  eapply keeps_bind; [apply (keeps_lift _ (fun _ => True)); done |]. intros ign_rex _.
  apply keeps_for_eachM; [| apply DEFAULT_wf].
  intros acc lt Hacc. destruct (_ && _); [| by apply keeps_ret].
  eapply keeps_bind; [apply _get_run_export_wf |]. intros rx Hrx.
  assert (bundle_wf (drop_ignored ign_rex <$> rx)) as Hrx'.
  { unfold bundle_wf in *. by rewrite dom_fmap_L. }
  eapply keeps_bind; [apply keeps_set_cache; intros; by apply cache_mutate_wf |].
  intros _ _. apply keeps_lift. intros c Hc.
  unfold bundle_wf in *. by rewrite (union_buckets_dom _ _ _ Hc).
Qed.

Lemma solve_wf (self : MambaSolver) (specs ign_from ign : list string) :
  keeps_cache (solve self specs true ign_from ign) exports_wf.
Proof.
  unfold solve.
  eapply keeps_bind; [apply keeps_log |]. intros _ _.
  eapply keeps_bind; [apply (keeps_lift _ (fun _ => True)); done |]. intros _specs _.
  eapply keeps_bind; [apply keeps_log |]. intros _ _.
  destruct (libsolv _ _ _) as [problems | to_link].
  - apply keeps_ret. exists DEFAULT_RUN_EXPORTS. split; [done |].
    split; [apply DEFAULT_wf | done].
  - eapply keeps_bind; [apply _get_run_exports_wf |]. intros b Hb.
    apply keeps_ret. exists b. by split.
Qed.

Lemma solve_unsat (self : MambaSolver) (specs _specs ign_from ign : list string)
    (get_run_exports : bool) (problems : string) (w : world) :
  comprehension _norm_spec specs = Ok _specs ->
  libsolv (channels self) (platform self) _specs = Unsat problems ->
  solve self specs get_run_exports ign_from ign w
  = (Ok (false, Some problems, None,
         if get_run_exports then Some DEFAULT_RUN_EXPORTS else None),
     {| solver_log := solver_log w ++ [EvSolve self specs; EvJobs self _specs];
        rx_cache := rx_cache w |}).
Proof.
  intros Hn Hs. unfold solve. rewrite bind_run. simpl.
  rewrite lift_bind, Hn, bind_run. simpl. rewrite Hs. simpl.
  by rewrite <- app_assoc.
Qed.

Lemma solve_keeps_cache (self : MambaSolver) (specs ign_from ign : list string)
    (get_run_exports : bool) :
  keeps_cache (solve self specs get_run_exports ign_from ign) (fun _ => True).
Proof.
  unfold solve.
  eapply keeps_bind; [apply keeps_log |]. intros _ _.
  eapply keeps_bind; [apply (keeps_lift _ (fun _ => True)); done |]. intros _specs _.
  eapply keeps_bind; [apply keeps_log |]. intros _ _.
  destruct (libsolv _ _ _) as [problems | to_link]; [by apply keeps_ret |].
  destruct get_run_exports; [| by apply keeps_ret].
  eapply keeps_bind; [apply _get_run_exports_wf |]. intros b _. by apply keeps_ret.
Qed.

(** Chains the rules of [keeps_cache] where what is returned does not
    matter. *)
Ltac keeps_step :=
  first
    [ by apply keeps_ret
    | by apply keeps_lift
    | apply solve_keeps_cache
    | eapply (keeps_bind _ _ (fun _ => True));
      [ try first [by apply keeps_lift | apply solve_keeps_cache] | intros ? _ ] ].

Lemma check_output_keeps_cache (solver build_solver : MambaSolver)
    (outnames : list string) (acc : bool * list string) (m : MetaData) :
  keeps_cache (check_output solver build_solver outnames acc m) (fun _ => True).
Proof.
  unfold check_output.
  eapply (keeps_bind _ _ (fun _ => True)); [| intros st1 _].
  { unfold build_phase. destruct (requirements_build m); [by apply keeps_ret |].
    keeps_step. keeps_step. destruct a0 as [[[? ?] ?] ?]. keeps_step.
    destruct a0. keeps_step. }
  eapply (keeps_bind _ _ (fun _ => True)); [| intros st2 _].
  { unfold host_phase. destruct (or_empty (l_host_req st1)); [by apply keeps_ret |].
    keeps_step. keeps_step. destruct a0 as [[[? ?] ?] ?]. keeps_step. keeps_step. }
  eapply (keeps_bind _ _ (fun _ => True)); [| intros st3 _].
  { unfold run_phase. destruct (l_run_req st2); [by apply keeps_ret |].
    keeps_step. keeps_step. destruct a0 as [[[? ?] ?] ?]. keeps_step. }
  unfold test_phase. destruct (test_requires m ++ _); [by apply keeps_ret |].
  keeps_step. destruct a as [[[? ?] ?] ?]. keeps_step.
Qed.

Lemma driver_keeps_cache (feedstock_dir : string) (additional_channels : list string)
    (build_platform : gmap string string) (verbosity : Z) :
  keeps_cache
    (_is_recipe_solvable feedstock_dir additional_channels build_platform verbosity)
    (fun _ => True).
Proof.
  unfold _is_recipe_solvable. case_bool_decide; [by apply keeps_ret |].
  destruct (negb _); [by apply keeps_ret |].
  apply keeps_for_eachM; [| done]. intros [[solvable errors] by_cbc] cbc _.
  unfold check_variant. keeps_step. destruct a as [platform_ arch].
  eapply (keeps_bind _ _ (fun _ => True)); [| intros [? ?] _; by apply keeps_ret].
  unfold _is_recipe_solvable_on_platform.
  keeps_step. keeps_step. keeps_step. destruct a1 as [bp ba].
  apply keeps_for_eachM; [| done]. intros acc m _. apply check_output_keeps_cache.
Qed.

(** C10: from a state whose cache holds well-formed bundles (the empty
    cache of a fresh process is one, and a check leaves the cache well
    formed), the bundle [_get_run_export] returns, the bundle
    [_get_run_exports] aggregates and the bundle a [solve] with run
    exports asked for returns each have exactly the keys [weak], [strong]
    and [noarch], and the cache stays well formed; a [solve] that libmamba
    cannot satisfy returns, with its explanation, the bundle whose three
    buckets are empty. *)
Theorem run_export_bundles_well_formed (w : world) :
  cache_wf (rx_cache w) ->
  (forall lt b w',
     _get_run_export lt w = (Ok b, w') -> bundle_wf b ∧ cache_wf (rx_cache w'))
  ∧ (forall link_tuples _specs ign_from ign b w',
       _get_run_exports link_tuples _specs ign_from ign w = (Ok b, w') ->
       bundle_wf b ∧ cache_wf (rx_cache w'))
  ∧ (forall self specs ign_from ign r w',
       solve self specs true ign_from ign w = (Ok r, w') ->
       exports_wf r ∧ cache_wf (rx_cache w'))
  ∧ (forall self specs _specs ign_from ign problems,
       comprehension _norm_spec specs = Ok _specs ->
       libsolv (channels self) (platform self) _specs = Unsat problems ->
       solve self specs true ign_from ign w
       = (Ok (false, Some problems, None, Some (mk_bundle ∅ ∅ ∅)),
          {| solver_log := solver_log w ++ [EvSolve self specs; EvJobs self _specs];
             rx_cache := rx_cache w |}))
  ∧ (forall feedstock_dir additional_channels build_platform verbosity r w',
       _is_recipe_solvable feedstock_dir additional_channels build_platform verbosity w
       = (r, w') ->
       cache_wf (rx_cache w')).
Proof.
  intros Hwf. repeat split.
  - by eapply (_get_run_export_wf lt w (Ok b) w').
  - by eapply (_get_run_export_wf lt w (Ok b) w').
  - by eapply (_get_run_exports_wf _ _ _ _ w (Ok b) w').
  - by eapply (_get_run_exports_wf _ _ _ _ w (Ok b) w').
  - by eapply (solve_wf _ _ _ _ w (Ok r) w').
  - by eapply (solve_wf _ _ _ _ w (Ok r) w').
  - intros. by apply solve_unsat.
  - intros fd ac bp v r w' Hrun. by eapply (driver_keeps_cache fd ac bp v w r w').
Qed.

(** ** The calls that reach the solver *)

Lemma emits_nothing {A} (Q : event -> Prop) (m : M A) :
  (forall w, solver_log (m w).2 = solver_log w) -> emits Q m.
Proof. intros H w. exists []. by rewrite app_nil_r, H. Qed.

Lemma emits_ret {A} (Q : event -> Prop) (a : A) : emits Q (mret a).
Proof. by apply emits_nothing. Qed.

Lemma emits_lift {A} (Q : event -> Prop) (r : result A) : emits Q (lift r).
Proof. by apply emits_nothing. Qed.

Lemma emits_set_cache (Q : event -> Prop) f : emits Q (set_cache f).
Proof. by apply emits_nothing. Qed.

Lemma emits_log (Q : event -> Prop) (ev : event) : Q ev -> emits Q (log ev).
Proof. intros H w. exists [ev]. split; [done | by constructor]. Qed.

Lemma emits_bind {A B} (Q : event -> Prop) (m : M A) (k : A -> M B) :
  emits Q m -> (forall a, emits Q (k a)) -> emits Q (m ≫= k).
Proof.
  intros Hm Hk w. rewrite bind_run.
  destruct (Hm w) as (new1 & Hlog1 & HQ1).
  destruct (m w) as [[a|e] w1]; simpl in *.
  - destruct (Hk a w1) as (new2 & Hlog2 & HQ2).
    exists (new1 ++ new2). split; [by rewrite Hlog2, Hlog1, app_assoc |].
    by apply Forall_app.
  - by exists new1.
Qed.

Lemma emits_for_eachM {S A} (Q : event -> Prop) (body : S -> A -> M S) (l : list A) :
  (forall s x, emits Q (body s x)) -> forall s, emits Q (for_eachM body l s).
Proof.
  intros Hbody. induction l as [|x l IH]; intros s; simpl.
  - apply emits_ret.
  - apply emits_bind; [apply Hbody | apply IH].
Qed.

(** Applies the rules of [emits] down a sequence of binds. *)
Ltac emits_step :=
  first
    [ apply emits_ret | apply emits_lift | apply emits_set_cache
    | apply emits_bind;
      [ try first [apply emits_lift | apply emits_set_cache] | intros ? ] ].

Lemma emits__get_run_export (Q : event -> Prop) (lt : link_tuple) :
  emits Q (_get_run_export lt).
Proof.
  intros w. unfold _get_run_export.
  destruct (cache_lookup lt (rx_cache w)) as [b|].
  - exists []. simpl. by rewrite app_nil_r.
  - revert w. change (emits Q (rx ← lift (find_run_exports lt);
               run_exports ← lift (sanitize_run_exports rx);
               _ ← set_cache (cache_put lt run_exports);
               mret run_exports)).
    repeat emits_step.
Qed.

Lemma emits__get_run_exports (Q : event -> Prop) (link_tuples : list link_tuple)
    (_specs ign_from ign : list string) :
  emits Q (_get_run_exports link_tuples _specs ign_from ign).
Proof.
  unfold _get_run_exports. do 3 emits_step.
  apply emits_for_eachM. intros acc lt. destruct (_ && _); [| apply emits_ret].
  apply emits_bind; [apply emits__get_run_export |]. intros rx.
  repeat emits_step.
Qed.

Lemma emits_solve (Q : event -> Prop) (self : MambaSolver)
    (specs ign_from ign : list string) (get_run_exports : bool) :
  Q (EvSolve self specs) -> (forall _specs, Q (EvJobs self _specs)) ->
  emits Q (solve self specs get_run_exports ign_from ign).
Proof.
  intros Hs Hj. unfold solve.
  apply emits_bind; [by apply emits_log |]. intros _.
  emits_step. apply emits_bind; [by apply emits_log |]. intros _.
  destruct (libsolv _ _ _); [apply emits_ret |].
  destruct get_run_exports; [| apply emits_ret].
  apply emits_bind; [apply emits__get_run_exports |]. intros b. apply emits_ret.
Qed.

(** ** The self-reference guard *)







Lemma emits_lift_bind {A B} (Q : event -> Prop) (r : result A) (k : A -> M B) :
  (forall a, r = Ok a -> emits Q (k a)) -> emits Q (lift r ≫= k).
Proof.
  intros H w. rewrite lift_bind. destruct r as [a|e]; [by apply H |].
  exists []. simpl. by rewrite app_nil_r.
Qed.

Lemma emits_weaken {A} (Q Q' : event -> Prop) (m : M A) :
  (forall ev, Q ev -> Q' ev) -> emits Q m -> emits Q' m.
Proof.
  intros HQ Hm w. destruct (Hm w) as (new & Hlog & Hall).
  exists new. split; [done |]. eapply Forall_impl; [exact Hall | exact HQ].
Qed.



(** ** Propagation of the run exports of the build phase *)

Lemma elem_of_merge_reqs (reqs : list string) (exported : gset string) (x : string) :
  x ∈ merge_reqs reqs exported <-> x ∈ reqs ∨ x ∈ exported.
Proof.
  unfold merge_reqs. rewrite elem_of_elements, elem_of_union, elem_of_list_to_set.
  done.
Qed.

Lemma merge_reqs_NoDup (reqs : list string) (exported : gset string) :
  NoDup (merge_reqs reqs exported).
Proof. apply NoDup_elements. Qed.

Lemma bucket_lookup (b : gmap string (gset string)) (key : string) (s : gset string) :
  b !! key = Some s -> bucket b key = Ok s.
Proof. unfold bucket. by intros ->. Qed.

(** C1, as amended: for an output that is neither cross-compiled nor
    noarch and that declares build requirements, once the build
    requirements (less the self-references) are solved with the bundle
    [rx] of run exports, the run requirements are the declared ones, the
    [strong] exports and, when build and host are declared identical, the
    [weak] exports; the host requirements are the declared ones and, when
    build and host are not declared identical, the [strong] exports (the
    [weak] exports then go nowhere). *)
Theorem build_phase_propagates_exports
    (build_solver : MambaSolver) (outnames : list string) (m : MetaData)
    (solvable : bool) (errors : list string) (w w' : world)
    (ok : bool) (err : option string) (sol : option (list string))
    (rx : gmap string (gset string)) (strong weak : gset string) :
  is_cross m = false -> noarch m = false -> noarch_python m = false ->
  requirements_build m ≠ [] ->
  solve build_solver (_clean_reqs (requirements_build m) outnames) true
    (ignore_run_exports_from m) (ignore_run_exports m) w
  = (Ok (ok, err, sol, Some rx), w') ->
  rx !! "strong" = Some strong -> rx !! "weak" = Some weak ->
  exists st,
    build_phase build_solver outnames m solvable errors w = (Ok st, w')
    ∧ l_build_req st = sol
    ∧ (forall x, x ∈ l_run_req st <->
         x ∈ requirements_run m ∨ x ∈ strong ∨ (build_is_host m = true ∧ x ∈ weak))
    ∧ (forall x, x ∈ or_empty (l_host_req st) <->
         x ∈ requirements_host m ∨ (build_is_host m = false ∧ x ∈ strong)).
Proof.
  clear get_pin_from_build load_cbc render ci_support_yamls meta_yaml_exists
        virtual_package_repodata repr.
  intros Hcross Hna Hnap Hbuild Hsolve Hstrong Hweak.
  unfold build_phase. destruct (requirements_build m) as [|r0 reqs] eqn:Hreqs; [done |].
  rewrite (bind_ok _ _ _ _ _ Hsolve). rewrite lift_bind. cbn [unpack4].
  rewrite lift_bind. rewrite Hcross, Hna, Hnap. cbn [orb negb].
  pose proof (bucket_lookup _ _ _ Hstrong) as Hbs.
  pose proof (bucket_lookup _ _ _ Hweak) as Hbw.
  rewrite Hbs. cbn [mbind result_bind].
  destruct (build_is_host m) eqn:Hbih.
  - rewrite Hbw. cbn [mbind result_bind].
    eexists. split; [reflexivity |]. cbn [l_build_req l_run_req l_host_req or_empty default].
    split; [done |]. split; intros x.
    + unfold merge_reqs. set_unfold. naive_solver.
    + naive_solver.
  - eexists. split; [reflexivity |]. cbn [l_build_req l_run_req l_host_req or_empty default].
    split; [done |]. split; intros x.
    + unfold merge_reqs. set_unfold. naive_solver.
    + unfold merge_reqs. set_unfold. naive_solver.
Qed.

(** ** The requirements of the test phase *)

Lemma clean_reqs_app (a b names : list string) :
  _clean_reqs (a ++ b) names = _clean_reqs a names ++ _clean_reqs b names.
Proof. unfold _clean_reqs. apply List.filter_app. Qed.

Lemma clean_reqs_idemp (reqs names : list string) :
  _clean_reqs (_clean_reqs reqs names) names = _clean_reqs reqs names.
Proof.
  unfold _clean_reqs. induction reqs as [|r reqs IH]; [done |]. simpl.
  destruct (negb (names_req names r)) eqn:Hr; simpl; [| done].
  by rewrite Hr, IH.
Qed.

Lemma log_first {A} (ev : event) (k : () -> M A) (w : world) :
  emits (fun _ => True) (k ()) ->
  exists rest, solver_log ((log ev ≫= k) w).2 = solver_log w ++ ev :: rest.
Proof.
  intros Hk. rewrite bind_run. cbn [log].
  destruct (Hk {| solver_log := solver_log w ++ [ev]; rx_cache := rx_cache w |})
    as (rest & Hlog & _).
  exists rest. rewrite Hlog. simpl. by rewrite <- app_assoc.
Qed.

(** The first call [solve] logs is its own. *)
Lemma solve_logs_call (self : MambaSolver) (specs ign_from ign : list string)
    (get_run_exports : bool) (w : world) :
  exists rest,
    solver_log (solve self specs get_run_exports ign_from ign w).2
    = solver_log w ++ EvSolve self specs :: rest.
Proof.
  unfold solve. apply log_first.
  emits_step. apply emits_bind; [by apply emits_log |]. intros _.
  destruct (libsolv _ _ _); [apply emits_ret |].
  destruct get_run_exports; [| apply emits_ret].
  apply emits_bind; [apply emits__get_run_exports |]. intros b. apply emits_ret.
Qed.

(** C4, as amended: the list the test phase hands to the solver is the
    declared test requirements ([test/requires], then
    [test/requirements]) less the self-references, followed by the list
    the run phase handed to the solver, which is the run requirements
    as pinned and cleaned and not the packages the run phase resolved.
    Nothing is removed as a duplicate: a requirement occurs as often as in
    the two lists together. *)
Theorem test_phase_requirements
    (solver : MambaSolver) (outnames : list string) (m : MetaData)
    (st0 st : locals) (w0 w : world) :
  l_run_req st0 ≠ [] ->
  run_phase solver outnames m st0 w0 = (Ok st, w) ->
  test_requires m ++ test_requirements m ++ l_run_req st ≠ [] ->
  let tests := _clean_reqs (test_requires m ++ test_requirements m) outnames in
  (exists rest, solver_log w = solver_log w0 ++ EvSolve solver (l_run_req st) :: rest)
  ∧ (exists rest,
       solver_log (test_phase solver outnames m st w).2
       = solver_log w ++ EvSolve solver (tests ++ l_run_req st) :: rest)
  ∧ (forall r,
       count_occ String.eq_dec (tests ++ l_run_req st) r
       = (count_occ String.eq_dec tests r + count_occ String.eq_dec (l_run_req st) r)%nat).
Proof.
  intros Hrun Hphase Htests tests. unfold run_phase in Hphase.
  destruct (l_run_req st0) as [|r0 reqs] eqn:Hreqs; [done |].
  rewrite lift_bind in Hphase.
  destruct (apply_pins _ _ _ _ _) as [pinned|e]; [| done].
  rewrite bind_run in Hphase.
  destruct (solve_logs_call solver (_clean_reqs pinned outnames) [] [] false w0)
    as (rest & Hlog).
  destruct (solve solver (_clean_reqs pinned outnames) false [] [] w0)
    as [[[[[ok err] sol] rx]|e] w1] eqn:Hsolve; [| done].
  injection Hphase as <- <-. cbn [l_run_req] in *.
  split; [by exists rest |]. split; [| intros r; apply count_occ_app].
  unfold test_phase. cbn [l_run_req].
  assert (_clean_reqs ((test_requires m ++ test_requirements m)
                       ++ _clean_reqs pinned outnames) outnames
          = tests ++ _clean_reqs pinned outnames) as Hclean.
  { by rewrite clean_reqs_app, clean_reqs_idemp. }
  rewrite (app_assoc (test_requires m)).
  destruct ((test_requires m ++ test_requirements m) ++ _clean_reqs pinned outnames)
    as [|t0 ts] eqn:Htst.
  - exfalso. apply Htests. by rewrite app_assoc.
  - cbv zeta. rewrite Hclean, bind_run.
    destruct (solve_logs_call solver (tests ++ _clean_reqs pinned outnames) [] [] false w1)
      as (rest' & Hlog').
    destruct (solve solver _ false [] [] w1) as [[[[[ok' err'] sol'] rx']|e'] w2];
      by exists rest'.
Qed.

(** ** The variant iteration driver *)




(** C7: with no variant file under [.ci_support], and with variant files
    but no [recipe/meta.yaml], the check returns [false], the one message
    that says so and the empty map, and leaves the state as it was: no
    solver was called and nothing was rendered. [is_recipe_solvable]
    returns the same, in process and from a worker that delivers. *)
Theorem missing_configuration_is_reported
    (feedstock_dir : string) (additional_channels : list string)
    (build_platform : gmap string string) (verbosity : Z) (w : world) :
  (ci_support_yamls feedstock_dir = [] ->
   _is_recipe_solvable feedstock_dir additional_channels build_platform verbosity w
   = (Ok (false, [NO_CI_SUPPORT], ∅), w)
   ∧ forall timeout,
       is_recipe_solvable Delivers feedstock_dir additional_channels timeout
         build_platform verbosity w
       = (Ok (false, [NO_CI_SUPPORT], ∅), w))
  ∧ (ci_support_yamls feedstock_dir ≠ [] ->
     meta_yaml_exists feedstock_dir = false ->
     _is_recipe_solvable feedstock_dir additional_channels build_platform verbosity w
     = (Ok (false, [NO_META_YAML], ∅), w)
     ∧ forall timeout,
         is_recipe_solvable Delivers feedstock_dir additional_channels timeout
           build_platform verbosity w
         = (Ok (false, [NO_META_YAML], ∅), w)).
Proof.
  assert (forall res,
            _is_recipe_solvable feedstock_dir additional_channels build_platform
              verbosity w = (Ok res, w) ->
            forall timeout,
              is_recipe_solvable Delivers feedstock_dir additional_channels timeout
                build_platform verbosity w = (Ok res, w)) as Hwrap.
  { intros res Hres timeout. unfold is_recipe_solvable, _func.
    destruct (timeout_set timeout); by rewrite Hres. }
  assert (ci_support_yamls feedstock_dir = [] ->
          _is_recipe_solvable feedstock_dir additional_channels build_platform verbosity w
          = (Ok (false, [NO_CI_SUPPORT], ∅), w)) as Hnone.
  { unfold _is_recipe_solvable, Py.len. by intros ->. }
  assert (ci_support_yamls feedstock_dir ≠ [] ->
          meta_yaml_exists feedstock_dir = false ->
          _is_recipe_solvable feedstock_dir additional_channels build_platform verbosity w
          = (Ok (false, [NO_META_YAML], ∅), w)) as Hmeta.
  { unfold _is_recipe_solvable, Py.len. intros Hne Hmeta.
    rewrite bool_decide_eq_false_2.
    - by rewrite Hmeta.
    - destruct (ci_support_yamls feedstock_dir); [done | simpl; lia]. }
  split.
  - intros Hcbcs. split; [by apply Hnone | by apply Hwrap, Hnone].
  - intros Hcbcs Hno. split; [by apply Hmeta | by apply Hwrap, Hmeta].
Qed.

(** C2: with a timeout set, a worker that is late gives
    [(true, [], {})] whatever the check would have computed, a worker that
    delivers the exception the check raised gives [(false, [repr e], {})],
    and a worker that delivers the result of the check gives that result;
    the state of the caller is left as it was. *)
Theorem wrapper_fails_open_on_timeout
    (feedstock_dir : string) (additional_channels : list string)
    (timeout : option Z) (build_platform : gmap string string)
    (verbosity : Z) (w : world) :
  timeout_set timeout = true ->
  is_recipe_solvable Late feedstock_dir additional_channels timeout
    build_platform verbosity w
  = (Ok (true, [], ∅), w)
  ∧ (forall e w',
       _is_recipe_solvable feedstock_dir additional_channels build_platform verbosity w
       = (Raise e, w') ->
       is_recipe_solvable Delivers feedstock_dir additional_channels timeout
         build_platform verbosity w
       = (Ok (false, [repr e], ∅), w))
  ∧ (forall res w',
       _is_recipe_solvable feedstock_dir additional_channels build_platform verbosity w
       = (Ok res, w') ->
       is_recipe_solvable Delivers feedstock_dir additional_channels timeout
         build_platform verbosity w
       = (Ok res, w)).
Proof.
  intros Ht. unfold is_recipe_solvable, _func. rewrite Ht.
  split; [done |]. split; intros ? ? ->; done.
Qed.



(** * Further properties *)

(** ** What a computation returns *)

Lemma returns_ret {A} (a : A) (Post : A -> Prop) : Post a -> returns (mret a) Post.
Proof. intros Ha w a' w' [= <- <-]. exact Ha. Qed.

Lemma returns_lift {A} (r : result A) (Post : A -> Prop) :
  (forall a, r = Ok a -> Post a) -> returns (lift r) Post.
Proof. intros Hr w a w' [= -> <-]. by apply Hr. Qed.

Lemma returns_bind {A B} (m : M A) (k : A -> M B) (P : A -> Prop) (Q : B -> Prop) :
  returns m P -> (forall a, P a -> returns (k a) Q) -> returns (m ≫= k) Q.
Proof.
  intros Hm Hk w b w'. rewrite bind_run.
  destruct (m w) as [[a|e] w1] eqn:Hmw; [| done].
  intros Hka. eapply Hk; [by eapply Hm | exact Hka].
Qed.

Lemma returns_weaken {A} (m : M A) (P Q : A -> Prop) :
  (forall a, P a -> Q a) -> returns m P -> returns m Q.
Proof. intros HPQ Hm w a w' Hrun. by eapply HPQ, Hm. Qed.

(** A loop keeps an invariant that may mention the elements done. *)
Lemma returns_for_eachM {S A} (body : S -> A -> M S) (I : list A -> S -> Prop)
    (l : list A) :
  (forall done x s, I done s -> returns (body s x) (I (done ++ [x]))) ->
  forall done s, I done s -> returns (for_eachM body l s) (I (done ++ l)).
Proof.
  intros Hbody. induction l as [|x l IH]; intros done s Hs; simpl.
  - rewrite app_nil_r. by apply returns_ret.
  - eapply returns_bind; [by apply Hbody |]. intros s' Hs'.
    rewrite (cons_middle x done l), app_assoc. by apply IH.
Qed.

(** A computation that emits nothing leaves the log as it is. *)
Lemma silent_log {A} (m : M A) (w : world) :
  emits (fun _ => False) m -> solver_log (m w).2 = solver_log w.
Proof.
  intros Hm. destruct (Hm w) as (new & Hlog & Hall).
  destruct new as [|ev new]; [by rewrite Hlog, app_nil_r |].
  by inversion Hall.
Qed.

(** ** The outcome of a solve *)

(** X1: a [solve] that returns has normalised every spec and called
    libmamba once, on the normalised specs; it succeeds with no error and
    one concrete spec for each package to link, or fails with libmamba's
    explanation and no solution, and it returns run exports exactly when
    they were asked for. *)
Theorem solve_outcome (self : MambaSolver) (specs ign_from ign : list string)
    (get_run_exports : bool) (w w' : world) (r : solve_result) :
  solve self specs get_run_exports ign_from ign w = (Ok r, w') ->
  outcome_consistent r
  ∧ (is_Some r.2 <-> get_run_exports = true)
  ∧ exists _specs,
      comprehension _norm_spec specs = Ok _specs
      ∧ solver_log w' = solver_log w ++ [EvSolve self specs; EvJobs self _specs]
      ∧ match libsolv (channels self) (platform self) _specs with
        | Sat to_link => r.1.1.1 = true ∧ r.1.2 = Some (concrete_spec <$> to_link)
        | Unsat problems => r.1.1.1 = false ∧ r.1.1.2 = Some problems
        end.
Proof.
  unfold solve. rewrite bind_run. cbn [log]. rewrite lift_bind.
  destruct (comprehension _norm_spec specs) as [_specs|e]; [| done].
  rewrite bind_run. cbn [log]. cbn [solver_log rx_cache].
  destruct (libsolv (channels self) (platform self) _specs) as [problems|to_link] eqn:Hsat.
  - intros [= <- <-]. simpl. split; [by eauto |].
    split; [destruct get_run_exports; split; (done || by eauto || by intros []) |].
    exists _specs. rewrite Hsat, <- app_assoc. done.
  - destruct get_run_exports.
    + rewrite bind_run.
      match goal with |- context [_get_run_exports ?a ?b ?c ?d ?w0] =>
        pose proof (silent_log (_get_run_exports a b c d) w0
                      (emits__get_run_exports _ a b c d)) as Hlog;
        destruct (_get_run_exports a b c d w0) as [[b0|e] w1]; [| done]
      end.
      intros [= <- <-]. simpl in *. split; [by eauto |]. split; [by eauto |].
      exists _specs. rewrite Hsat, Hlog, <- app_assoc. done.
    + intros [= <- <-]. simpl. split; [by eauto |].
      split; [split; [by intros [] | done] |].
      exists _specs. rewrite Hsat, <- app_assoc. done.
Qed.

(** ** Verdicts and errors *)

Lemma solve_consistent (self : MambaSolver) (specs ign_from ign : list string)
    (get_run_exports : bool) :
  returns (solve self specs get_run_exports ign_from ign) outcome_consistent.
Proof.
  unfold solve.
  eapply (returns_bind _ _ (fun _ => True)); [by intros ? ? ? _ |]. intros _ _.
  eapply (returns_bind _ _ (fun _ => True)); [by apply returns_lift |]. intros _specs _.
  eapply (returns_bind _ _ (fun _ => True)); [by intros ? ? ? _ |]. intros _ _.
  destruct (libsolv _ _ _) as [problems|to_link].
  - apply returns_ret. simpl. by eauto.
  - destruct get_run_exports.
    + eapply (returns_bind _ _ (fun _ => True)); [by intros ? ? ? _ |].
      intros b _. apply returns_ret. simpl. by eauto.
    + apply returns_ret. simpl. by eauto.
Qed.

(** One more solve keeps a verdict and its errors in agreement. *)
Lemma verdict_step (solvable ok : bool) (errors : list string) (err : option string)
    (sol : option (list string)) (rx : option (gmap string (gset string))) :
  outcome_consistent (ok, err, sol, rx) ->
  verdict_consistent solvable errors ->
  verdict_consistent (solvable && ok) (add_error errors err).
Proof.
  unfold outcome_consistent, verdict_consistent.
  destruct ok; intros [He Hs] Hv.
  - subst err. simpl. by rewrite andb_true_r.
  - destruct He as [e ->]. simpl. rewrite andb_false_r. split; [done |].
    intros H. by destruct errors.
Qed.

Lemma unpack4_inv (r : solve_result) ok err sol rx :
  unpack4 r = Ok (ok, err, sol, rx) -> r = (ok, err, sol, Some rx).
Proof. destruct r as [[[? ?] ?] [?|]]; simpl; [by intros [= -> -> -> ->] | done]. Qed.

Lemma build_phase_verdict (build_solver : MambaSolver) (outnames : list string)
    (m : MetaData) (solvable : bool) (errors : list string) :
  verdict_consistent solvable errors ->
  returns (build_phase build_solver outnames m solvable errors)
    (fun st => verdict_consistent (l_solvable st) (l_errors st)).
Proof.
  intros Hv. unfold build_phase.
  destruct (requirements_build m); [by apply returns_ret |].
  eapply returns_bind; [apply solve_consistent |]. intros r Hr.
  eapply returns_bind; [apply (returns_lift _ (fun x => r = (x.1.1.1, x.1.1.2, x.1.2, Some x.2))) |].
  { intros [[[ok err] sol] rx]. apply unpack4_inv. }
  intros [[[ok err] sol] rx] Heq. simpl in Heq. subst r.
  eapply (returns_bind _ _ (fun _ => True)); [by apply returns_lift |].
  intros [host_req run_req] _. apply returns_ret. simpl. by eapply verdict_step.
Qed.

Lemma host_phase_verdict (solver : MambaSolver) (outnames : list string)
    (m : MetaData) (st : locals) :
  verdict_consistent (l_solvable st) (l_errors st) ->
  returns (host_phase solver outnames m st)
    (fun st' => verdict_consistent (l_solvable st') (l_errors st')).
Proof.
  intros Hv. unfold host_phase.
  destruct (or_empty (l_host_req st)); [by apply returns_ret |].
  eapply returns_bind; [apply solve_consistent |]. intros r Hr.
  eapply returns_bind; [apply (returns_lift _ (fun x => r = (x.1.1.1, x.1.1.2, x.1.2, Some x.2))) |].
  { intros [[[ok err] sol] rx]. apply unpack4_inv. }
  intros [[[ok err] sol] rx] Heq. simpl in Heq. subst r.
  eapply (returns_bind _ _ (fun _ => True)); [by apply returns_lift |].
  intros run_req _. apply returns_ret. simpl. by eapply verdict_step.
Qed.

Lemma run_phase_verdict (solver : MambaSolver) (outnames : list string)
    (m : MetaData) (st : locals) :
  verdict_consistent (l_solvable st) (l_errors st) ->
  returns (run_phase solver outnames m st)
    (fun st' => verdict_consistent (l_solvable st') (l_errors st')).
Proof.
  intros Hv. unfold run_phase.
  destruct (l_run_req st); [by apply returns_ret |].
  eapply (returns_bind _ _ (fun _ => True)); [by apply returns_lift |]. intros pinned _.
  eapply returns_bind; [apply solve_consistent |].
  intros [[[ok err] sol] rx] Hr. apply returns_ret. simpl. by eapply verdict_step.
Qed.

Lemma test_phase_verdict (solver : MambaSolver) (outnames : list string)
    (m : MetaData) (st : locals) :
  verdict_consistent (l_solvable st) (l_errors st) ->
  returns (test_phase solver outnames m st)
    (fun acc => verdict_consistent acc.1 acc.2).
Proof.
  intros Hv. unfold test_phase.
  destruct (test_requires m ++ _); [by apply returns_ret |].
  eapply returns_bind; [apply solve_consistent |].
  intros [[[ok err] sol] rx] Hr. apply returns_ret. simpl. by eapply verdict_step.
Qed.

Lemma check_output_verdict (solver build_solver : MambaSolver) (outnames : list string)
    (acc : bool * list string) (m : MetaData) :
  verdict_consistent acc.1 acc.2 ->
  returns (check_output solver build_solver outnames acc m)
    (fun acc' => verdict_consistent acc'.1 acc'.2).
Proof.
  intros Hv. unfold check_output.
  eapply returns_bind; [by apply build_phase_verdict |]. intros st1 H1.
  eapply returns_bind; [by apply host_phase_verdict |]. intros st2 H2.
  eapply returns_bind; [by apply run_phase_verdict |]. intros st3 H3.
  by apply test_phase_verdict.
Qed.

Lemma on_platform_verdict (recipe_dir cbc_path platform_ arch : string)
    (build_platform_arch : option string) (additional_channels : list string) :
  returns (_is_recipe_solvable_on_platform recipe_dir cbc_path platform_ arch
             build_platform_arch additional_channels)
    (fun acc => verdict_consistent acc.1 acc.2).
Proof.
  unfold _is_recipe_solvable_on_platform.
  eapply (returns_bind _ _ (fun _ => True)); [by apply returns_lift |]. intros cfg _.
  eapply (returns_bind _ _ (fun _ => True)); [by apply returns_lift |]. intros metas _.
  eapply (returns_bind _ _ (fun _ => True)); [by apply returns_lift |]. intros [bp ba] _.
  pose proof (returns_for_eachM
                (check_output (_mamba_factory (channels_of cfg additional_channels)
                                 (platform_ +:+ "-" +:+ arch))
                              (_mamba_factory (channels_of cfg additional_channels)
                                 (bp +:+ "-" +:+ ba))
                              (name <$> metas))
                (fun _ acc => verdict_consistent acc.1 acc.2) metas) as Hloop.
  apply (Hloop (fun done x s Hs => check_output_verdict _ _ _ s x Hs) [] (true, [])).
  done.
Qed.

(** X2: the check of one variant returns a verdict and errors that agree,
    as the docstring of [is_recipe_solvable] has it: the variant is
    solvable exactly when the list of errors is empty. *)
Theorem variant_solvable_iff_no_error (recipe_dir cbc_path platform_ arch : string)
    (build_platform_arch : option string) (additional_channels : list string)
    (w w' : world) (solvable : bool) (errors : list string) :
  _is_recipe_solvable_on_platform recipe_dir cbc_path platform_ arch
    build_platform_arch additional_channels w
  = (Ok (solvable, errors), w') ->
  solvable = true <-> errors = [].
Proof. intros Hrun. exact (on_platform_verdict _ _ _ _ _ _ _ _ _ Hrun). Qed.

Lemma check_variant_invariant (feedstock_dir : string) (additional_channels : list string)
    (build_platform : gmap string string) (done : list string) (cbc : string)
    (acc : bool * list string * gmap string bool) :
  driver_invariant done acc ->
  returns (check_variant feedstock_dir additional_channels build_platform acc cbc)
    (driver_invariant (done ++ [cbc])).
Proof.
  clear ci_support_yamls meta_yaml_exists virtual_package_repodata repr.
  destruct acc as [[solvable errors] by_cbc]. intros (Hv & Hvals & Hdom & Hpre).
  unfold check_variant.
  eapply (returns_bind _ _ (fun _ => True)); [by apply returns_lift |].
  intros [platform_ arch] _.
  eapply returns_bind; [apply on_platform_verdict |]. intros [s errs] Hs.
  apply returns_ret. fold (cbc_name cbc). simpl in Hs.
  unfold driver_invariant, verdict_consistent in *.
  split; [| split; [| split]].
  - rewrite andb_true_iff, Hv, Hs. split.
    + by intros [-> ->].
    + intros Heq. destruct errors; [| done]. destruct errs; done.
  - intros [Hsolv ->]%andb_true_iff k v.
    destruct (decide (k = cbc_name cbc)) as [-> | Hk].
    + rewrite lookup_insert_eq. by intros [= <-].
    + rewrite lookup_insert_ne by done. by apply Hvals.
  - rewrite dom_insert_L, Hdom, fmap_app, list_to_set_app_L. simpl. set_solver.
  - apply Forall_app. split.
    + eapply Forall_impl; [exact Hpre |]. intros e (c & e0 & Hc & ->).
      exists c, e0. split; [set_solver | done].
    + apply Forall_fmap, Forall_forall. intros e0 _. exists cbc, e0.
      split; [set_solver | done].
Qed.

(** X3: what the driver returns hangs together. The recipe is solvable
    exactly when the list of errors is empty; when it is solvable every
    variant of the map is; past the two early returns the map has one key
    for each variant file, its base name less the extension; and every
    error is one of the two configuration messages or carries the name of
    its variant file in front. *)
Theorem driver_result_is_coherent (feedstock_dir : string)
    (additional_channels : list string) (build_platform : gmap string string)
    (verbosity : Z) (w w' : world) (solvable : bool) (errors : list string)
    (solvable_by_cbc : gmap string bool) :
  _is_recipe_solvable feedstock_dir additional_channels build_platform verbosity w
  = (Ok (solvable, errors, solvable_by_cbc), w') ->
  (solvable = true <-> errors = [])
  ∧ (solvable = true -> forall k v, solvable_by_cbc !! k = Some v -> v = true)
  ∧ (ci_support_yamls feedstock_dir ≠ [] -> meta_yaml_exists feedstock_dir = true ->
     dom solvable_by_cbc = list_to_set (cbc_name <$> ci_support_yamls feedstock_dir))
  ∧ Forall (fun e => e = NO_CI_SUPPORT ∨ e = NO_META_YAML
                     ∨ exists cbc e0, cbc ∈ ci_support_yamls feedstock_dir
                                      ∧ e = cbc_name cbc +:+ ": " +:+ e0) errors.
Proof.
  unfold _is_recipe_solvable, Py.len.
  destruct (ci_support_yamls feedstock_dir) as [|cbc cbcs] eqn:Hcbcs.
  { intros [= <- <- <- <-]. split; [by split |]. split; [done |]. split; [done |].
    constructor; [by left | constructor]. }
  rewrite bool_decide_eq_false_2 by (simpl; lia).
  destruct (meta_yaml_exists feedstock_dir) eqn:Hmeta; cbn [negb].
  2:{ intros [= <- <- <- <-]. split; [by split |]. split; [done |]. split; [done |].
      constructor; [right; by left | constructor]. }
  intros Hrun.
  pose proof (returns_for_eachM
                (check_variant feedstock_dir
                   (additional_channels ++ [virtual_package_repodata]) build_platform)
                driver_invariant (cbc :: cbcs)
                (fun done x s Hs => check_variant_invariant _ _ _ done x s Hs)
                [] (true, [], ∅)) as Hloop.
  destruct (Hloop ltac:(by repeat split) _ _ _ Hrun) as (Hv & Hvals & Hdom & Hpre).
  split; [exact Hv |]. split; [exact Hvals |]. split; [by intros _ _ |].
  eapply Forall_impl; [exact Hpre |]. intros e (c & e0 & Hc & ->). right. right. by eauto.
Qed.

(** ** One solve for each phase *)

(** After a computation whose continuation emits nothing, the log is the
    log of the computation. *)
Lemma log_of_bind {A B} (m : M A) (k : A -> M B) (w : world) :
  (forall a, emits (fun _ => False) (k a)) ->
  solver_log ((m ≫= k) w).2 = solver_log (m w).2.
Proof.
  intros Hk. rewrite bind_run. destruct (m w) as [[a|e] w1]; [| done].
  simpl. by apply silent_log.
Qed.

(** X4: a phase whose requirement list is empty calls no solver and
    leaves the local variables as they are; a phase whose list is not
    empty makes one call to [solve] and no other, to the build solver in
    the build phase and to the host solver in the other three, with the
    list less the self-references (in the run phase, the pinned list; no
    call when the pinning raises). *)
Theorem one_solve_for_each_phase (solver build_solver : MambaSolver)
    (outnames : list string) (m : MetaData) (w : world) :
  (forall solvable errors,
     solver_log (build_phase build_solver outnames m solvable errors w).2
     = match requirements_build m with
       | [] => solver_log w
       | reqs => solver_log
                   (solve build_solver (_clean_reqs reqs outnames) true
                      (ignore_run_exports_from m) (ignore_run_exports m) w).2
       end)
  ∧ (forall st,
       solver_log (host_phase solver outnames m st w).2
       = match or_empty (l_host_req st) with
         | [] => solver_log w
         | reqs => solver_log
                     (solve solver (_clean_reqs reqs outnames) true
                        (ignore_run_exports_from m) (ignore_run_exports m) w).2
         end)
  ∧ (forall st,
       solver_log (run_phase solver outnames m st w).2
       = match l_run_req st with
         | [] => solver_log w
         | reqs =>
             match apply_pins reqs (or_empty (l_host_req st))
                     (or_empty (l_build_req st)) outnames m with
             | Ok pinned =>
                 solver_log
                   (solve solver (_clean_reqs pinned outnames) false [] [] w).2
             | Raise _ => solver_log w
             end
         end)
  ∧ (forall st,
       solver_log (test_phase solver outnames m st w).2
       = match test_requires m ++ test_requirements m ++ l_run_req st with
         | [] => solver_log w
         | reqs => solver_log
                     (solve solver (_clean_reqs reqs outnames) false [] [] w).2
         end)
  ∧ (forall st,
       l_run_req st = [] -> test_requires m = [] -> test_requirements m = [] ->
       or_empty (l_host_req st) = [] ->
       (st' ← host_phase solver outnames m st;
        st' ← run_phase solver outnames m st';
        test_phase solver outnames m st') w
       = (Ok (l_solvable st, l_errors st), w)).
Proof.
  split; [| split; [| split; [| split]]].
  - intros solvable errors. unfold build_phase.
    destruct (requirements_build m) as [|r0 reqs]; [done |].
    apply log_of_bind. intros r. repeat emits_step.
    destruct a as [[[? ?] ?] ?]. repeat emits_step. destruct a. apply emits_ret.
  - intros st. unfold host_phase.
    destruct (or_empty (l_host_req st)) as [|r0 reqs]; [done |].
    apply log_of_bind. intros r. repeat emits_step.
    destruct a as [[[? ?] ?] ?]. repeat emits_step.
  - intros st. unfold run_phase.
    destruct (l_run_req st) as [|r0 reqs]; [done |].
    rewrite lift_bind.
    destruct (apply_pins _ _ _ _ _) as [pinned|e]; [| done].
    apply log_of_bind.
    intros [[[? ?] ?] ?]. apply emits_ret.
  - intros st. unfold test_phase.
    destruct (test_requires m ++ _) as [|r0 reqs]; [done |].
    apply log_of_bind. intros [[[? ?] ?] ?]. apply emits_ret.
  - intros st Hrun Ht1 Ht2 Hhost. rewrite bind_run. unfold host_phase. rewrite Hhost.
    simpl. rewrite bind_run. unfold run_phase. rewrite Hrun. simpl.
    unfold test_phase. by rewrite Ht1, Ht2, Hrun.
Qed.

(** ** How the run exports of a phase reach the later phases *)

Lemma mk_bundle_inj (w s n w' s' n' : gset string) :
  mk_bundle w s n = mk_bundle w' s' n' -> w = w' ∧ s = s' ∧ n = n'.
Proof.
  pure. intros Heq.
  pose proof (mk_bundle_weak w s n) as Hw.
  pose proof (mk_bundle_strong w s n) as Hs.
  pose proof (mk_bundle_noarch w s n) as Hn.
  rewrite Heq in Hw, Hs, Hn.
  rewrite mk_bundle_weak in Hw. rewrite mk_bundle_strong in Hs.
  rewrite mk_bundle_noarch in Hn.
  split; [| split]; symmetry; by apply (inj Some).
Qed.

(** A solve that is asked for the run exports returns the three buckets. *)
Lemma solve_exports (self : MambaSolver) (specs ign_from ign : list string)
    (w w' : world) (r : solve_result) :
  cache_wf (rx_cache w) ->
  solve self specs true ign_from ign w = (Ok r, w') ->
  exists weak strong na, r = (r.1.1.1, r.1.1.2, r.1.2, Some (mk_bundle weak strong na)).
Proof.
  intros Hwf Hsolve.
  destruct (solve_wf self specs ign_from ign w (Ok r) w' Hwf Hsolve) as [_ Hr].
  destruct (Hr r eq_refl) as (b & Hb & (weak & strong & na & ->)%bundle_wf_mk & _).
  exists weak, strong, na. destruct r as [[[ok err] sol] orx]. simpl in *. by subst.
Qed.

(** X5: with a cache of well-formed bundles, the build phase and the host
    phase raise nothing of their own: the lookups [build_rx["strong"]],
    [build_rx["weak"]], [build_rx["noarch"]], [host_rx["weak"]] and
    [host_rx["noarch"]] and the unpacking of the solve's result never
    fail, so an exception that leaves one of these phases is the one its
    solve raised, on a requirement list that was not empty. *)
Theorem export_phases_raise_what_solve_raises (solver build_solver : MambaSolver)
    (outnames : list string) (m : MetaData) (w w' : world) (e : exn) :
  cache_wf (rx_cache w) ->
  (forall solvable errors,
     build_phase build_solver outnames m solvable errors w = (Raise e, w') ->
     requirements_build m ≠ []
     ∧ solve build_solver (_clean_reqs (requirements_build m) outnames) true
         (ignore_run_exports_from m) (ignore_run_exports m) w = (Raise e, w'))
  ∧ (forall st,
       host_phase solver outnames m st w = (Raise e, w') ->
       or_empty (l_host_req st) ≠ []
       ∧ solve solver (_clean_reqs (or_empty (l_host_req st)) outnames) true
           (ignore_run_exports_from m) (ignore_run_exports m) w = (Raise e, w')).
Proof.
  intros Hwf. split.
  - intros solvable errors. unfold build_phase.
    destruct (requirements_build m) as [|r0 reqs]; [done |].
    rewrite bind_run.
    destruct (solve _ _ _ _ _ w) as [[r|e0] w1] eqn:Hsolve; [| by intros [= -> ->]].
    destruct (solve_exports _ _ _ _ _ _ _ Hwf Hsolve) as (weak & strong & na & ->).
    rewrite lift_bind. cbn [unpack4]. rewrite lift_bind.
    rewrite !bucket_strong, ?bucket_weak, ?bucket_noarch.
    destruct (is_cross m), (noarch m || noarch_python m), (build_is_host m);
      cbn [negb mbind result_bind];
      rewrite ?bucket_strong, ?bucket_weak, ?bucket_noarch; done.
  - intros st. unfold host_phase.
    destruct (or_empty (l_host_req st)) as [|r0 reqs]; [done |].
    rewrite bind_run.
    destruct (solve _ _ _ _ _ w) as [[r|e0] w1] eqn:Hsolve; [| by intros [= -> ->]].
    destruct (solve_exports _ _ _ _ _ _ _ Hwf Hsolve) as (weak & strong & na & ->).
    rewrite lift_bind. cbn [unpack4]. rewrite lift_bind.
    destruct (is_cross m), (noarch m || noarch_python m);
      rewrite ?bucket_weak, ?bucket_noarch; done.
Qed.

(** X6: the host phase of an output with host requirements, once these
    (less the self-references) are solved: the solution replaces the host
    requirements, the build requirements stay, and the run requirements
    stay as they are unless the output is cross-compiled; then they are
    joined with the [noarch] exports of the host environment for a noarch
    output and with its [weak] exports otherwise. The [strong] exports of
    the host environment are never used. *)
Theorem host_phase_propagates_exports (solver : MambaSolver)
    (outnames : list string) (m : MetaData) (st : locals) (w w' : world)
    (r : solve_result) :
  cache_wf (rx_cache w) ->
  or_empty (l_host_req st) ≠ [] ->
  solve solver (_clean_reqs (or_empty (l_host_req st)) outnames) true
    (ignore_run_exports_from m) (ignore_run_exports m) w = (Ok r, w') ->
  exists weak strong na st',
    r.2 = Some (mk_bundle weak strong na)
    ∧ host_phase solver outnames m st w = (Ok st', w')
    ∧ l_host_req st' = r.1.2
    ∧ l_build_req st' = l_build_req st
    ∧ l_solvable st' = l_solvable st && r.1.1.1
    ∧ l_errors st' = add_error (l_errors st) r.1.1.2
    ∧ (is_cross m = false -> l_run_req st' = l_run_req st)
    ∧ (is_cross m = true -> forall x,
         x ∈ l_run_req st' <->
         x ∈ l_run_req st ∨ x ∈ (if noarch m || noarch_python m then na else weak)).
Proof.
  clear get_pin_from_build load_cbc render ci_support_yamls meta_yaml_exists
        virtual_package_repodata repr.
  intros Hwf Hhost Hsolve.
  destruct (solve_exports _ _ _ _ _ _ _ Hwf Hsolve) as (weak & strong & na & Hr).
  destruct r as [[[ok err] sol] orx]. simpl in Hr. injection Hr as ->.
  exists weak, strong, na. unfold host_phase.
  destruct (or_empty (l_host_req st)) as [|r0 reqs]; [done |].
  rewrite (bind_ok _ _ _ _ _ Hsolve). rewrite lift_bind. cbn [unpack4].
  rewrite lift_bind.
  destruct (is_cross m), (noarch m || noarch_python m);
    rewrite ?bucket_weak, ?bucket_noarch; cbn [mbind result_bind];
    (eexists; split; [done |]; split; [reflexivity |]);
    cbn [l_host_req l_build_req l_solvable l_errors l_run_req];
    do 4 (split; [done |]); (split; [done |]); try done.
  all: intros _ x; by rewrite elem_of_merge_reqs.
Qed.

(** X7: the build phase of a cross-compiled or noarch output that
    declares build requirements, once these (less the self-references)
    are solved. Cross-compiled: the [strong] exports of the build
    environment join the host requirements, and the run requirements too
    unless the output is noarch. Not cross-compiled and noarch: the host
    requirements stay as declared, and the run requirements are joined
    with the [noarch] exports when build and host are declared identical
    and stay as declared otherwise. The [weak] exports of the build
    environment are used in neither case. *)
Theorem build_phase_cross_and_noarch (build_solver : MambaSolver)
    (outnames : list string) (m : MetaData) (solvable : bool)
    (errors : list string) (w w' : world) (r : solve_result) :
  cache_wf (rx_cache w) ->
  requirements_build m ≠ [] ->
  solve build_solver (_clean_reqs (requirements_build m) outnames) true
    (ignore_run_exports_from m) (ignore_run_exports m) w = (Ok r, w') ->
  exists weak strong na st',
    r.2 = Some (mk_bundle weak strong na)
    ∧ build_phase build_solver outnames m solvable errors w = (Ok st', w')
    ∧ l_build_req st' = r.1.2
    ∧ l_solvable st' = solvable && r.1.1.1
    ∧ l_errors st' = add_error errors r.1.1.2
    ∧ (is_cross m = true ->
         (forall x, x ∈ or_empty (l_host_req st') <->
                    x ∈ requirements_host m ∨ x ∈ strong)
         ∧ (noarch m || noarch_python m = true ->
            l_run_req st' = requirements_run m)
         ∧ (noarch m || noarch_python m = false ->
            forall x, x ∈ l_run_req st' <-> x ∈ requirements_run m ∨ x ∈ strong))
    ∧ (is_cross m = false -> noarch m || noarch_python m = true ->
         l_host_req st' = Some (requirements_host m)
         ∧ (build_is_host m = false -> l_run_req st' = requirements_run m)
         ∧ (build_is_host m = true ->
            forall x, x ∈ l_run_req st' <-> x ∈ requirements_run m ∨ x ∈ na)).
Proof.
  clear get_pin_from_build load_cbc render ci_support_yamls meta_yaml_exists
        virtual_package_repodata repr.
  intros Hwf Hbuild Hsolve.
  destruct (solve_exports _ _ _ _ _ _ _ Hwf Hsolve) as (weak & strong & na & Hr).
  destruct r as [[[ok err] sol] orx]. simpl in Hr. injection Hr as ->.
  exists weak, strong, na. unfold build_phase.
  destruct (requirements_build m) as [|r0 reqs]; [done |].
  rewrite (bind_ok _ _ _ _ _ Hsolve). rewrite lift_bind. cbn [unpack4].
  rewrite lift_bind.
  destruct (is_cross m), (noarch m || noarch_python m), (build_is_host m);
    cbn [negb mbind result_bind];
    rewrite ?bucket_strong, ?bucket_weak, ?bucket_noarch; cbn [mbind result_bind];
    rewrite ?bucket_strong, ?bucket_weak, ?bucket_noarch; cbn [mbind result_bind];
    (eexists; split; [done |]; split; [reflexivity |]);
    cbn [l_host_req l_build_req l_solvable l_errors l_run_req or_empty default id];
    do 3 (split; [done |]); (split; [| try done]).
  all: try done.
  all: try (intros _; split; [intros x; by rewrite elem_of_merge_reqs |];
            split; [done |]; try done; intros _ x; by rewrite elem_of_merge_reqs).
  all: intros _ _; split; [done |]; split; [done |]; try done;
       intros _ x; by rewrite elem_of_merge_reqs.
Qed.

(** ** Pinning the run requirements *)





(** ** The solvers of a variant *)

Lemma emits_for_eachM_in {S A} (Q : event -> Prop) (body : S -> A -> M S) (l : list A) :
  (forall s x, x ∈ l -> emits Q (body s x)) -> forall s, emits Q (for_eachM body l s).
Proof.
  induction l as [|x l IH]; intros Hbody s; [apply emits_ret |].
  cbn [for_eachM]. apply emits_bind; [apply Hbody; by left |].
  intros s'. apply IH. intros s0 y Hy. apply Hbody. by right.
Qed.

Lemma solve_emits_solver (P : MambaSolver -> Prop) (self : MambaSolver)
    (specs ign_from ign : list string) (get_run_exports : bool) :
  P self ->
  emits (fun ev => P (event_solver ev)) (solve self specs get_run_exports ign_from ign).
Proof. intros HP. by apply emits_solve. Qed.

Lemma check_output_solvers (P : MambaSolver -> Prop) (solver build_solver : MambaSolver)
    (outnames : list string) (acc : bool * list string) (m : MetaData) :
  P solver -> P build_solver ->
  emits (fun ev => P (event_solver ev))
    (check_output solver build_solver outnames acc m).
Proof.
  intros Hs Hb. unfold check_output.
  apply emits_bind.
  { unfold build_phase. destruct (requirements_build m) as [|r0 reqs]; [apply emits_ret |].
    apply emits_bind; [by apply solve_emits_solver |]. intros r.
    emits_step. destruct a as [[[? ?] ?] ?]. repeat emits_step.
    destruct a. apply emits_ret. }
  intros st1. apply emits_bind.
  { unfold host_phase. destruct (or_empty (l_host_req st1)) as [|r0 reqs]; [apply emits_ret |].
    apply emits_bind; [by apply solve_emits_solver |]. intros r.
    emits_step. destruct a as [[[? ?] ?] ?]. repeat emits_step. }
  intros st2. apply emits_bind.
  { unfold run_phase. destruct (l_run_req st2) as [|r0 reqs]; [apply emits_ret |].
    emits_step. apply emits_bind; [by apply solve_emits_solver |].
    intros [[[? ?] ?] ?]. apply emits_ret. }
  intros st3. unfold test_phase.
  destruct (test_requires m ++ _) as [|r0 reqs]; [apply emits_ret |].
  apply emits_bind; [by apply solve_emits_solver |].
  intros [[[? ?] ?] ?]. apply emits_ret.
Qed.

(** The solvers of a variant are built from the channels of its
    configuration file, for the host target and for the build target. *)
Lemma on_platform_solvers (recipe_dir cbc_path platform_ arch : string)
    (build_platform_arch : option string) (additional_channels : list string) :
  emits
    (fun ev =>
       exists cfg bp ba,
         load_cbc cbc_path = Ok cfg
         ∧ build_target platform_ arch build_platform_arch = Ok (bp, ba)
         ∧ channels (event_solver ev) = channels_of cfg additional_channels
         ∧ (platform (event_solver ev) = platform_ +:+ "-" +:+ arch
            ∨ platform (event_solver ev) = bp +:+ "-" +:+ ba))
    (_is_recipe_solvable_on_platform recipe_dir cbc_path platform_ arch
       build_platform_arch additional_channels).
Proof.
  unfold _is_recipe_solvable_on_platform.
  apply emits_lift_bind. intros cfg Hcfg.
  apply emits_lift_bind. intros metas _.
  apply emits_lift_bind. intros [bp ba] Hbt.
  apply emits_for_eachM. intros acc m.
  apply (check_output_solvers
           (fun s => exists cfg bp ba,
              load_cbc cbc_path = Ok cfg
              ∧ build_target platform_ arch build_platform_arch = Ok (bp, ba)
              ∧ channels s = channels_of cfg additional_channels
              ∧ (platform s = platform_ +:+ "-" +:+ arch
                 ∨ platform s = bp +:+ "-" +:+ ba))).
  - exists cfg, bp, ba. repeat (split; [done |]). by left.
  - exists cfg, bp, ba. repeat (split; [done |]). by right.
Qed.

Lemma check_variant_solvers (P : MambaSolver -> Prop) (feedstock_dir : string)
    (additional_channels : list string) (build_platform : gmap string string)
    (acc : bool * list string * gmap string bool) (cbc_fname : string) :
  (forall platform_ arch cfg bp ba s,
     platform_arch cbc_fname = Ok (platform_, arch) ->
     load_cbc cbc_fname = Ok cfg ->
     build_target platform_ arch
       (Some (default (platform_ +:+ "_" +:+ arch)
                (build_platform !! (platform_ +:+ "_" +:+ arch)))) = Ok (bp, ba) ->
     channels s = channels_of cfg additional_channels ->
     platform s = platform_ +:+ "-" +:+ arch ∨ platform s = bp +:+ "-" +:+ ba ->
     P s) ->
  emits (fun ev => P (event_solver ev))
    (check_variant feedstock_dir additional_channels build_platform acc cbc_fname).
Proof.
  intros HP. unfold check_variant. destruct acc as [[solvable errors] by_cbc].
  apply emits_lift_bind. intros [platform_ arch] Hpa.
  apply emits_bind; [| intros [? ?]; apply emits_ret].
  eapply emits_weaken; [| apply on_platform_solvers].
  intros ev (cfg & bp & ba & Hcfg & Hbt & Hch & Hpl). by eapply HP.
Qed.

Lemma channels_of_msys2 (cfg : cbc_cfg) (additional_channels : list string) :
  "msys2" ∈ channels_of cfg additional_channels.
Proof.
  pure. unfold channels_of.
  set (cs := match channel_sources cfg with Some _ => _ | None => _ end).
  assert ("msys2" ∈ (if bool_decide ("msys2" ∈ cs) then cs else cs ++ ["msys2"])) as H.
  { case_bool_decide; [done | set_solver]. }
  destruct additional_channels; [done | set_solver].
Qed.

Lemma channels_of_additional (cfg : cbc_cfg) (additional_channels : list string) :
  channels_of cfg additional_channels = additional_channels ++ channels_of cfg [].
Proof. unfold channels_of. by destruct additional_channels. Qed.

(** X9: every solver that [_is_recipe_solvable] calls has among its
    channels [msys2], each of the additional channels and the virtual
    package repodata, and the additional channels come first, in the
    order given and followed by the virtual package repodata, before the
    channels of the variant's configuration file. *)
Theorem driver_solver_channels (feedstock_dir : string)
    (additional_channels : list string) (build_platform : gmap string string)
    (verbosity : Z) :
  emits
    (fun ev =>
       "msys2" ∈ channels (event_solver ev)
       ∧ virtual_package_repodata ∈ channels (event_solver ev)
       ∧ (forall c, c ∈ additional_channels -> c ∈ channels (event_solver ev))
       ∧ exists cbc_fname cfg,
           cbc_fname ∈ ci_support_yamls feedstock_dir
           ∧ load_cbc cbc_fname = Ok cfg
           ∧ channels (event_solver ev)
             = additional_channels ++ [virtual_package_repodata] ++ channels_of cfg [])
    (_is_recipe_solvable feedstock_dir additional_channels build_platform verbosity).
Proof.
  clear repr. unfold _is_recipe_solvable.
  case_bool_decide; [apply emits_ret |].
  destruct (negb _); [apply emits_ret |].
  apply emits_for_eachM_in. intros acc cbc Hcbc.
  apply (check_variant_solvers
           (fun s =>
              "msys2" ∈ channels s
              ∧ virtual_package_repodata ∈ channels s
              ∧ (forall c, c ∈ additional_channels -> c ∈ channels s)
              ∧ exists cbc_fname cfg,
                  cbc_fname ∈ ci_support_yamls feedstock_dir
                  ∧ load_cbc cbc_fname = Ok cfg
                  ∧ channels s
                    = additional_channels ++ [virtual_package_repodata]
                      ++ channels_of cfg [])).
  intros platform_ arch cfg bp ba s _ Hcfg _ Hch _. rewrite Hch.
  split; [apply channels_of_msys2 |].
  rewrite channels_of_additional, <- app_assoc.
  split; [set_solver |]. split; [set_solver |].
  by exists cbc, cfg.
Qed.

(** ** The build target of a variant *)

Lemma known_arch_no_underscore (arch : string) :
  arch ∈ KNOWN_ARCHS -> Py.contains "_" arch = false.
Proof.
  pure. unfold KNOWN_ARCHS. rewrite !elem_of_cons, elem_of_nil.
  intros [-> | [-> | [-> | [-> | [-> | []]]]]]; reflexivity.
Qed.

(** What [platform_arch] returns: a platform with no underscore and one
    of the known architectures, or ["64"]. *)
Lemma platform_arch_shape (cbc_fname platform_ arch : string) :
  platform_arch cbc_fname = Ok (platform_, arch) ->
  Py.contains "_" platform_ = false
  ∧ Py.contains "_" arch = false
  ∧ (arch ∈ KNOWN_ARCHS ∨ arch = "64").
Proof.
  pure. unfold platform_arch.
  pose proof (split_pieces "_" (Py.basename cbc_fname)) as Hp.
  destruct (Py.split "_" (Py.basename cbc_fname)) as [|p [|a0 rest]]; [done | done |].
  intros [= <- <-]. apply Forall_cons in Hp as [Hp _]. split; [done |].
  case_bool_decide as Ha.
  - split; [by apply known_arch_no_underscore | by left].
  - split; [done | by right].
Qed.

Lemma build_target_of_key (platform_ arch : string) :
  Py.contains "_" platform_ = false -> Py.contains "_" arch = false ->
  build_target platform_ arch (Some (platform_ +:+ "_" +:+ arch)) = Ok (platform_, arch).
Proof.
  intros Hp Ha. unfold build_target.
  change ("_" +:+ arch) with (String "_" arch).
  by rewrite (split_app_sep _ _ _ Hp), (split_no_sep _ _ Ha).
Qed.

(** X10: for a variant file whose name gives a platform and an
    architecture, the architecture is one of the known ones or ["64"];
    and when [build_platform] has no entry for the pair, the build target
    is the host target, so that every solve of the variant, in each of
    the four phases, goes to a solver for [<platform>-<arch>]. *)
Theorem variant_without_override_uses_host_target (feedstock_dir : string)
    (additional_channels : list string) (build_platform : gmap string string)
    (cbc_fname platform_ arch : string) :
  platform_arch cbc_fname = Ok (platform_, arch) ->
  build_platform !! (platform_ +:+ "_" +:+ arch) = None ->
  (arch ∈ KNOWN_ARCHS ∨ arch = "64")
  ∧ build_target platform_ arch
      (Some (default (platform_ +:+ "_" +:+ arch)
               (build_platform !! (platform_ +:+ "_" +:+ arch))))
    = Ok (platform_, arch)
  ∧ forall acc,
      emits (fun ev => platform (event_solver ev) = platform_ +:+ "-" +:+ arch)
        (check_variant feedstock_dir additional_channels build_platform acc cbc_fname).
Proof.
  intros Hpa Hnone.
  destruct (platform_arch_shape _ _ _ Hpa) as (Hp & Ha & Harch).
  split; [done |]. rewrite Hnone. cbn [default].
  split; [by apply build_target_of_key |].
  intros acc.
  apply (check_variant_solvers
           (fun s => platform s = platform_ +:+ "-" +:+ arch)).
  intros p a cfg bp ba s Hpa' _ Hbt _ Hpl.
  rewrite Hpa in Hpa'. injection Hpa' as <- <-.
  rewrite Hnone in Hbt. cbn [default] in Hbt.
  rewrite build_target_of_key in Hbt by done. injection Hbt as <- <-.
  by destruct Hpl.
Qed.

(** X11: an entry of [build_platform] that is not of the shape
    [<platform>_<arch>], with one underscore, makes the check of the
    variant raise before any solver is called: [ValueError] from the
    unpacking once the configuration is loaded and the recipe rendered,
    and what loading or rendering raised otherwise. *)
Theorem malformed_build_platform_raises (feedstock_dir : string)
    (additional_channels : list string) (build_platform : gmap string string)
    (acc : bool * list string * gmap string bool)
    (cbc_fname platform_ arch bpa : string) (w : world) :
  platform_arch cbc_fname = Ok (platform_, arch) ->
  build_platform !! (platform_ +:+ "_" +:+ arch) = Some bpa ->
  length (Py.split "_" bpa) ≠ 2%nat ->
  exists e,
    check_variant feedstock_dir additional_channels build_platform acc cbc_fname w
    = (Raise e, w)
    ∧ forall cfg metas,
        load_cbc cbc_fname = Ok cfg ->
        render (Py.path_join feedstock_dir "recipe") platform_ arch cbc_fname
          (channels_of cfg additional_channels) = Ok metas ->
        exists msg, e = ValueError msg.
Proof.
  intros Hpa Hsome Hlen. unfold check_variant. destruct acc as [[solvable errors] by_cbc].
  rewrite lift_bind, Hpa. cbn match. rewrite bind_run.
  unfold _is_recipe_solvable_on_platform. rewrite lift_bind.
  destruct (load_cbc cbc_fname) as [cfg0|e1] eqn:Hcfg.
  2:{ exists e1. split; [done |]. intros ? ? [=]. }
  rewrite lift_bind.
  destruct (render _ _ _ _ _) as [metas0|e2] eqn:Hrender.
  2:{ exists e2. split; [done |]. intros ? ? [= <-]. by rewrite Hrender. }
  rewrite lift_bind, Hsome. cbn [default build_target id].
  destruct (Py.split "_" bpa) as [|bp [|ba [|x rest]]]; [| | done |];
    (eexists; split; [reflexivity |]); intros ? ? _ _; by eexists.
Qed.

(** ** The run exports of a solution *)

Lemma for_each_invariant {S A} (body : S -> A -> result S) (I : S -> Prop)
    (l : list A) (s0 s : S) :
  (forall s x s', I s -> body s x = Ok s' -> I s') ->
  I s0 -> for_each body l s0 = Ok s -> I s.
Proof.
  intros Hbody. revert s0. induction l as [|x l IH]; intros s0 Hs0; simpl.
  - by intros [= <-].
  - destruct (body s0 x) as [s1|] eqn:Hx; [| done]. cbn [mbind result_bind].
    apply IH. by eapply Hbody.
Qed.

Lemma drop_ignored_avoids (ign_rex : list (option string))
    (rx : gmap string (gset string)) :
  tokens_avoid ign_rex (drop_ignored ign_rex <$> rx).
Proof.
  pure. intros key s v Hs Hv. rewrite lookup_fmap in Hs.
  destruct (rx !! key) as [s0|]; [| done]. injection Hs as <-.
  unfold drop_ignored in Hv. by apply elem_of_filter in Hv as [? _].
Qed.

Lemma union_buckets_avoids (ign_rex : list (option string))
    (a rx c : gmap string (gset string)) :
  tokens_avoid ign_rex a -> tokens_avoid ign_rex rx ->
  union_buckets a rx = Ok c -> tokens_avoid ign_rex c.
Proof.
  pure. intros Ha Hrx. unfold union_buckets.
  apply for_each_invariant; [| done].
  intros b key b' Hb. unfold bucket.
  destruct (b !! key) as [mine|] eqn:Hmine; [| done]. cbn [mbind result_bind].
  destruct (rx !! key) as [theirs|] eqn:Htheirs; [| done]. cbn [mbind result_bind].
  intros [= <-] k s v Hs Hv.
  destruct (decide (k = key)) as [-> | Hne].
  - rewrite lookup_insert_eq in Hs. injection Hs as <-.
    apply elem_of_union in Hv as [Hv | Hv]; [by eapply Hb | by eapply Hrx].
  - rewrite lookup_insert_ne in Hs by done. by eapply Hb.
Qed.

(** X12: the run exports [_get_run_exports] returns hold no token that
    is, as a whole, one of the exact names of [ignore_run_exports]; and
    when no linked package is both named by the specs and not named by
    [ignore_run_exports_from], the result is the empty bundle and the
    state, the cache with it, is left as it was. *)
Theorem run_exports_leave_out_ignored (link_tuples : list link_tuple)
    (_specs ignore_run_exports_from ignore_run_exports : list string)
    (names ign_rex_from ign_rex : list (option string)) :
  comprehension spec_name _specs = Ok names ->
  comprehension spec_name ignore_run_exports_from = Ok ign_rex_from ->
  comprehension spec_name ignore_run_exports = Ok ign_rex ->
  returns (_get_run_exports link_tuples _specs ignore_run_exports_from ignore_run_exports)
    (tokens_avoid ign_rex)
  ∧ (Forall (fun lt => Some (lt_name lt) ∉ names ∨ Some (lt_name lt) ∈ ign_rex_from)
       link_tuples ->
     forall w,
       _get_run_exports link_tuples _specs ignore_run_exports_from ignore_run_exports w
       = (Ok DEFAULT_RUN_EXPORTS, w)).
Proof.
  clear libsolv get_pin_from_build load_cbc render ci_support_yamls
        meta_yaml_exists virtual_package_repodata repr.
  intros Hn Hf Hi. unfold _get_run_exports. rewrite Hn, Hf, Hi. split.
  - intros w b w'. rewrite !lift_bind. cbn match. revert w b w'.
    apply (returns_for_eachM _ (fun _ => tokens_avoid ign_rex) link_tuples)
      with (done := []).
    + intros _ lt acc Hacc. cbn beta in *.
      destruct (_ && _); [| apply returns_ret; exact Hacc].
      eapply (returns_bind _ _ (fun _ => True)); [done |]. intros rx _.
      eapply (returns_bind _ _ (fun _ => True)); [done |]. intros _ _.
      apply returns_lift. intros c Hc.
      eapply union_buckets_avoids; [exact Hacc | apply drop_ignored_avoids | exact Hc].
    + intros key s v Hs Hv. unfold DEFAULT_RUN_EXPORTS in Hs.
      apply lookup_insert_Some in Hs as [[_ <-] | [_ Hs]]; [set_solver |].
      apply lookup_insert_Some in Hs as [[_ <-] | [_ Hs]]; [set_solver |].
      apply lookup_singleton_Some in Hs as [_ <-]. set_solver.
  - intros Hall w. rewrite !lift_bind. cbn match.
    generalize DEFAULT_RUN_EXPORTS.
    induction Hall as [|lt l Hlt Hl IH]; intros acc; [done |].
    cbn [for_eachM]. rewrite bind_run.
    assert (bool_decide (Some (lt_name lt) ∈ names)
            && bool_decide (Some (lt_name lt) ∉ ign_rex_from) = false) as ->.
    { apply andb_false_iff. destruct Hlt as [Hlt | Hlt].
      - left. by apply bool_decide_eq_false.
      - right. apply bool_decide_eq_false. by intros ?. }
    apply IH.
Qed.

(** ** The cache of [_get_run_export] *)

Lemma cache_lookup_cons (lt lt0 : link_tuple) (b0 : gmap string (gset string))
    (cache : list (link_tuple * gmap string (gset string))) :
  cache_lookup lt ((lt0, b0) :: cache)
  = if bool_decide (lt0 = lt) then Some b0 else cache_lookup lt cache.
Proof. unfold cache_lookup. simpl. by case_bool_decide. Qed.

Lemma cache_lookup_take (lt : link_tuple) (n : nat)
    (cache : list (link_tuple * gmap string (gset string)))
    (b : gmap string (gset string)) :
  cache_lookup lt (take n cache) = Some b -> cache_lookup lt cache = Some b.
Proof.
  revert n. induction cache as [|[lt0 b0] cache IH]; intros [|n]; simpl; try done.
  rewrite !cache_lookup_cons. case_bool_decide; [done | apply IH].
Qed.

Lemma cache_lookup_remove (lt lt' : link_tuple)
    (cache : list (link_tuple * gmap string (gset string))) :
  cache_lookup lt' (cache_remove lt cache)
  = if bool_decide (lt' = lt) then None else cache_lookup lt' cache.
Proof.
  induction cache as [|[lt0 b0] cache IH]; simpl.
  - by case_bool_decide.
  - destruct (decide (lt0 = lt)) as [-> | H0].
    + rewrite bool_decide_eq_true_2 by done. simpl. rewrite IH, cache_lookup_cons.
      destruct (decide (lt' = lt)) as [-> | H1].
      * by rewrite bool_decide_eq_true_2.
      * rewrite !bool_decide_eq_false_2; [done | congruence | done].
    + rewrite bool_decide_eq_false_2 by done. simpl.
      rewrite !cache_lookup_cons, IH.
      destruct (decide (lt0 = lt')) as [-> | H1].
      * rewrite bool_decide_eq_true_2 by done. by rewrite bool_decide_eq_false_2.
      * by rewrite (bool_decide_eq_false_2 (lt0 = lt')).
Qed.

Lemma cache_remove_absent (lt : link_tuple)
    (cache : list (link_tuple * gmap string (gset string))) :
  cache_lookup lt cache = None -> cache_remove lt cache = cache.
Proof.
  induction cache as [|[lt0 b0] cache IH]; [done |].
  rewrite cache_lookup_cons. simpl. case_bool_decide; [done |]. simpl.
  intros H0. by rewrite IH.
Qed.

Lemma cache_remove_take (lt : link_tuple) (n : nat)
    (cache : list (link_tuple * gmap string (gset string))) :
  cache_lookup lt cache = None -> cache_remove lt (take n cache) = take n cache.
Proof.
  intros Hnone. apply cache_remove_absent.
  destruct (cache_lookup lt (take n cache)) as [b|] eqn:Hb; [| done].
  apply cache_lookup_take in Hb. congruence.
Qed.

Lemma RX_CACHE_MAXSIZE_pos : exists n, RX_CACHE_MAXSIZE = S n.
Proof. exists (Z.to_nat 10239). unfold RX_CACHE_MAXSIZE. lia. Qed.

(** A bundle that was put is found, and what else is found was there. *)
Lemma cache_lookup_put (lt lt' : link_tuple) (b r : gmap string (gset string))
    (cache : list (link_tuple * gmap string (gset string))) :
  cache_lookup lt' (cache_put lt b cache) = Some r ->
  (lt' = lt ∧ r = b) ∨ (lt' ≠ lt ∧ cache_lookup lt' cache = Some r).
Proof.
  intros Hr%cache_lookup_take. rewrite cache_lookup_cons in Hr.
  case_bool_decide as Hlt.
  - left. by injection Hr as <-.
  - right. rewrite cache_lookup_remove in Hr.
    case_bool_decide; [done |]. split; [congruence | done].
Qed.

Lemma cache_lookup_put_same (lt : link_tuple) (b : gmap string (gset string))
    (cache : list (link_tuple * gmap string (gset string))) :
  cache_lookup lt (cache_put lt b cache) = Some b.
Proof.
  unfold cache_put. destruct RX_CACHE_MAXSIZE_pos as [n ->]. simpl.
  rewrite cache_lookup_cons. by rewrite bool_decide_eq_true_2.
Qed.

(** Putting again what is the most recent entry changes nothing. *)
Lemma cache_put_again (lt : link_tuple) (b : gmap string (gset string))
    (cache : list (link_tuple * gmap string (gset string))) :
  cache_put lt b (cache_put lt b cache) = cache_put lt b cache.
Proof.
  unfold cache_put. destruct RX_CACHE_MAXSIZE_pos as [n ->].
  rewrite !firstn_cons. simpl. rewrite bool_decide_eq_true_2 by done. simpl.
  f_equal. rewrite cache_remove_take.
  - apply take_idemp.
  - rewrite cache_lookup_remove. by rewrite bool_decide_eq_true_2.
Qed.

Lemma cache_put_length (lt : link_tuple) (b : gmap string (gset string))
    (cache : list (link_tuple * gmap string (gset string))) :
  (length (cache_put lt b cache) <= RX_CACHE_MAXSIZE)%nat.
Proof. unfold cache_put. rewrite length_take. lia. Qed.

Lemma cache_mutate_length (lt : link_tuple) (b : gmap string (gset string))
    (cache : list (link_tuple * gmap string (gset string))) :
  length (cache_mutate lt b cache) = length cache.
Proof. unfold cache_mutate. apply List.length_map. Qed.

Lemma cache_lookup_mutate (lt lt' : link_tuple) (b : gmap string (gset string))
    (cache : list (link_tuple * gmap string (gset string))) :
  cache_lookup lt' (cache_mutate lt b cache)
  = if bool_decide (lt' = lt) then (fun _ => b) <$> cache_lookup lt cache
    else cache_lookup lt' cache.
Proof.
  induction cache as [|[lt0 b0] cache IH]; simpl.
  - by case_bool_decide.
  - destruct (decide (lt0 = lt)) as [-> | H0].
    + rewrite bool_decide_eq_true_2 by done. rewrite !cache_lookup_cons.
      destruct (decide (lt' = lt)) as [-> | H1].
      * by rewrite !bool_decide_eq_true_2.
      * rewrite (bool_decide_eq_false_2 (lt = lt')) by congruence.
        rewrite IH. by rewrite bool_decide_eq_false_2.
    + rewrite bool_decide_eq_false_2 by done. rewrite !cache_lookup_cons, IH.
      destruct (decide (lt0 = lt')) as [-> | H1].
      * rewrite bool_decide_eq_true_2 by done. by rewrite !bool_decide_eq_false_2.
      * by rewrite !(bool_decide_eq_false_2 (lt0 = _)).
Qed.

(** What a call of [_get_run_export] that returns leaves in the cache. *)
Lemma _get_run_export_cache (lt : link_tuple) (w w' : world)
    (rx : gmap string (gset string)) :
  _get_run_export lt w = (Ok rx, w') ->
  w' = {| solver_log := solver_log w; rx_cache := cache_put lt rx (rx_cache w) |}.
Proof.
  unfold _get_run_export.
  destruct (cache_lookup lt (rx_cache w)) as [b|]; [by intros [= <- <-] |].
  rewrite lift_bind. destruct (find_run_exports lt) as [raw|]; [| done].
  rewrite lift_bind. destruct (sanitize_run_exports raw) as [b|]; [| done].
  by intros [= <- <-].
Qed.

(** One turn of the loop of [_get_run_exports] leaves in the cache, for
    the packages it has read so far, bundles without the ignored names. *)
Lemma run_exports_loop_cache (names ign_rex_from ign_rex : list (option string))
    (l done : list link_tuple) (acc b : gmap string (gset string)) (w w' : world) :
  (forall lt, lt ∈ done ->
     Some (lt_name lt) ∈ names -> Some (lt_name lt) ∉ ign_rex_from ->
     forall rx, cache_lookup lt (rx_cache w) = Some rx -> tokens_avoid ign_rex rx) ->
  for_eachM
    (fun run_exports lt =>
       if bool_decide (Some (lt_name lt) ∈ names)
          && bool_decide (Some (lt_name lt) ∉ ign_rex_from)
       then
         rx ← _get_run_export lt;
         let rx := drop_ignored ign_rex <$> rx in
         _ ← set_cache (cache_mutate lt rx);
         lift (union_buckets run_exports rx)
       else mret run_exports) l acc w = (Ok b, w') ->
  forall lt, lt ∈ done ++ l ->
    Some (lt_name lt) ∈ names -> Some (lt_name lt) ∉ ign_rex_from ->
    forall rx, cache_lookup lt (rx_cache w') = Some rx -> tokens_avoid ign_rex rx.
Proof.
  clear MatchSpec libsolv get_pin_from_build load_cbc render ci_support_yamls
        meta_yaml_exists virtual_package_repodata repr.
  revert done acc w. induction l as [|lt0 l IH]; intros done acc w HJ.
  - intros [= <- <-]. rewrite app_nil_r. exact HJ.
  - cbn [for_eachM]. rewrite bind_run.
    destruct (bool_decide (Some (lt_name lt0) ∈ names)
              && bool_decide (Some (lt_name lt0) ∉ ign_rex_from)) eqn:Hcond.
    + rewrite bind_run.
      destruct (_get_run_export lt0 w) as [[rx0|e] wa] eqn:Hget; [| done].
      apply _get_run_export_cache in Hget as ->.
      rewrite bind_run. cbn [set_cache solver_log rx_cache]. unfold lift.
      destruct (union_buckets acc _) as [acc1|e]; [| done].
      intros Hloop. rewrite (cons_middle lt0 done l), app_assoc.
      eapply IH; [| exact Hloop]. cbn [rx_cache].
      intros lt Hlt Hn Hf rx. rewrite cache_lookup_mutate.
      destruct (decide (lt = lt0)) as [-> | Heq].
      * rewrite bool_decide_eq_true_2 by done.
        rewrite cache_lookup_put_same. intros [= <-].
        apply drop_ignored_avoids.
      * rewrite bool_decide_eq_false_2 by done.
        intros [[? _] | [_ Hold]]%cache_lookup_put; [done |].
        apply elem_of_app in Hlt as [Hlt | Hlt%list_elem_of_singleton]; [| done].
        by eapply HJ.
    + intros Hloop. rewrite (cons_middle lt0 done l), app_assoc.
      eapply IH; [| exact Hloop].
      intros lt [Hlt | Hlt%list_elem_of_singleton]%elem_of_app Hn Hf.
      * by apply HJ.
      * subst lt. apply andb_false_iff in Hcond as [Hc | Hc];
          apply bool_decide_eq_false in Hc; by destruct Hc.
Qed.

(** X14: [_get_run_exports] assigns the filtered sets into the
    dictionary [_get_run_export] returned, which is the one its cache
    holds. So after it returns, the bundle the cache holds for a linked
    package that is named by the specs and not by
    [ignore_run_exports_from] has no token that is one of the ignored
    names; and this bundle is what the next [_get_run_export] of the
    package returns, whatever is to be ignored by then. *)
Theorem ignored_exports_stay_out_of_cache (link_tuples : list link_tuple)
    (_specs ignore_run_exports_from ignore_run_exports : list string)
    (names ign_rex_from ign_rex : list (option string))
    (w w' : world) (b : gmap string (gset string)) :
  comprehension spec_name _specs = Ok names ->
  comprehension spec_name ignore_run_exports_from = Ok ign_rex_from ->
  comprehension spec_name ignore_run_exports = Ok ign_rex ->
  _get_run_exports link_tuples _specs ignore_run_exports_from ignore_run_exports w
  = (Ok b, w') ->
  forall lt rx,
    lt ∈ link_tuples ->
    Some (lt_name lt) ∈ names -> Some (lt_name lt) ∉ ign_rex_from ->
    cache_lookup lt (rx_cache w') = Some rx ->
    tokens_avoid ign_rex rx
    ∧ exists w'', _get_run_export lt w' = (Ok rx, w'').
Proof.
  clear libsolv get_pin_from_build load_cbc render ci_support_yamls
        meta_yaml_exists virtual_package_repodata repr.
  intros Hn Hf Hi. unfold _get_run_exports. rewrite Hn, Hf, Hi, !lift_bind.
  cbn match. intros Hloop lt rx Hlt Hnames Hfrom Hrx. split.
  - eapply (run_exports_loop_cache names ign_rex_from ign_rex link_tuples []);
      [| exact Hloop | done | done | done | exact Hrx].
    intros lt0 Hlt0. by apply elem_of_nil in Hlt0.
  - unfold _get_run_export. rewrite Hrx. by eexists.
Qed.

(** ** Anaconda tokens in channel urls *)

Lemma enumerate_is_enumerate_from (l : list string) :
  Py.enumerate l = enumerate_from 0 l.
Proof.
  unfold Py.enumerate.
  enough (forall o, imap (fun i x => (o + Z.of_nat i, x)) l = enumerate_from o l) as H
    by (rewrite <- (H 0); by apply imap_ext).
  induction l as [|x l IH]; intros o; [done |].
  simpl. rewrite Z.add_0_r. f_equal. rewrite <- IH.
  apply imap_ext. intros i y _. simpl. f_equal. lia.
Qed.

Lemma filter_beside_token_keeps (l : list string) (o k : Z) :
  k + 1 < o ∨ o + Py.len l <= k ->
  snd <$> List.filter (beside_token k) (enumerate_from o l) = l.
Proof.
  revert o. induction l as [|x l IH]; intros o Hk; [done |].
  unfold Py.len in *. cbn [enumerate_from List.filter length] in *.
  assert (beside_token k (o, x) = true) as ->.
  { unfold beside_token. cbn [fst]. apply andb_true_iff.
    split; apply negb_true_iff, Z.eqb_neq; lia. }
  cbn [fmap list_fmap snd]. f_equal. apply IH. lia.
Qed.

Lemma filter_beside_token_drops (pre post : list string) (a b : string) (o : Z) :
  snd <$> List.filter (beside_token (o + Py.len pre))
            (enumerate_from o (pre ++ a :: b :: post))
  = pre ++ post.
Proof.
  revert o. induction pre as [|p pre IH]; intros o.
  - unfold Py.len. cbn [length app enumerate_from List.filter].
    replace (o + Z.of_nat 0) with o by lia.
    assert (beside_token o (o, a) = false) as ->.
    { unfold beside_token. cbn [fst]. by rewrite Z.eqb_refl. }
    assert (beside_token o (o + 1, b) = false) as ->.
    { unfold beside_token. cbn [fst]. rewrite Z.eqb_refl. apply andb_false_r. }
    apply filter_beside_token_keeps. lia.
  - unfold Py.len in *. cbn [length app enumerate_from List.filter].
    assert (beside_token (o + Z.of_nat (S (length pre))) (o, p) = true) as ->.
    { unfold beside_token. cbn [fst]. apply andb_true_iff.
      split; apply negb_true_iff, Z.eqb_neq; lia. }
    cbn [fmap list_fmap snd]. f_equal.
    replace (o + Z.of_nat (S (length pre))) with ((o + 1) + Z.of_nat (length pre)) by lia.
    apply IH.
Qed.

Lemma py_index_found (x : string) (l : list string) :
  x ∈ l -> exists i, py_index x l = Ok i.
Proof.
  induction l as [|y l IH]; [by intros ?%elem_of_nil |].
  intros Hx. simpl. case_bool_decide as Hy; [by eexists |].
  apply elem_of_cons in Hx as [-> | Hx]; [done |].
  destruct (IH Hx) as [i ->]. by eexists.
Qed.

Lemma py_index_first (x : string) (pre l : list string) :
  x ∉ pre -> py_index x (pre ++ x :: l) = Ok (Py.len pre).
Proof.
  unfold Py.len. induction pre as [|y pre IH]; intros Hx; simpl.
  - by rewrite bool_decide_eq_true_2.
  - apply not_elem_of_cons in Hx as [Hne Hx].
    rewrite bool_decide_eq_false_2 by done. rewrite (IH Hx).
    cbn [mbind result_bind]. f_equal. lia.
Qed.

(** Where [/t/] occurs, [t] is a piece of the url, and not the first. *)
Lemma token_marker_is_a_piece (url : string) :
  contains_str "/t/" url = true -> "t" ∈ tail (Py.split "/" url).
Proof.
  induction url as [|c s IH]; [done |].
  cbn [contains_str]. intros [Hstart | Hlater]%orb_true_iff.
  - cbn [Py.startswith] in Hstart.
    apply andb_true_iff in Hstart as [Hc Hs]. apply bool_decide_eq_true in Hc. subst c.
    destruct s as [|c1 s]; [done |]. cbn [Py.startswith] in Hs.
    apply andb_true_iff in Hs as [Hc1 Hs]. apply bool_decide_eq_true in Hc1. subst c1.
    destruct s as [|c2 s]; [done |]. cbn [Py.startswith] in Hs.
    apply andb_true_iff in Hs as [Hc2 _]. apply bool_decide_eq_true in Hc2. subst c2.
    cbn [Py.split]. unfold Py.ascii_eqb.
    rewrite (bool_decide_eq_true_2 ("/"%char = "/"%char)) by done.
    rewrite (bool_decide_eq_false_2 ("t"%char = "/"%char)) by done.
    cbn [tail]. by left.
  - specialize (IH Hlater). cbn [Py.split].
    destruct (Py.ascii_eqb c "/").
    + cbn [tail]. destruct (Py.split "/" s) as [|h t]; [done |]. by right.
    + pose proof (split_nonempty "/" s) as Hne.
      by destruct (Py.split "/" s) as [|h t].
Qed.

Lemma contains_str_app (sub a b : string) :
  contains_str sub b = true -> contains_str sub (a +:+ b) = true.
Proof.
  intros Hb. induction a as [|c a IH]; sapp; [done |].
  cbn [contains_str]. rewrite IH. apply orb_true_r.
Qed.

Lemma startswith_empty (s : string) : Py.startswith s "" = true.
Proof. by destruct s. Qed.

Lemma join_has_token_marker (pre post : list string) (tok : string) :
  pre ≠ [] -> contains_str "/t/" (Py.join "/" (pre ++ "t" :: tok :: post)) = true.
Proof.
  induction pre as [|p pre IH]; [done |]. intros _.
  destruct pre as [|p' pre].
  - change (contains_str "/t/"
              (p +:+ "/" +:+ "t" +:+ "/" +:+ Py.join "/" (tok :: post)) = true).
    apply contains_str_app. rewrite !append_cons, !append_nil_l.
    cbn [contains_str Py.startswith]. unfold Py.ascii_eqb.
    rewrite !bool_decide_eq_true_2 by done. by rewrite startswith_empty.
  - change (contains_str "/t/"
              (p +:+ "/" +:+ Py.join "/" ((p' :: pre) ++ "t" :: tok :: post)) = true).
    apply contains_str_app. rewrite append_cons, append_nil_l.
    cbn [contains_str]. rewrite IH by done. apply orb_true_r.
Qed.

(** X15: [_strip_anaconda_tokens] returns for every url: where [/t/]
    occurs, [t] is one of the pieces between the slashes and
    [parts.index("t")] finds it. A url without [/t/] is returned as it
    is. A url whose first piece [t] is followed by a token loses these
    two pieces and nothing else:
    [<pre>/t/<token>/<post>] becomes [<pre>/<post>]. *)
Theorem strip_anaconda_tokens_spec :
  (forall url, exists stripped, _strip_anaconda_tokens url = Ok stripped)
  ∧ (forall url, contains_str "/t/" url = false -> _strip_anaconda_tokens url = Ok url)
  ∧ (forall pre post tok,
       pre ≠ [] -> "t" ∉ pre ->
       Forall (fun p => Py.contains "/" p = false) (pre ++ tok :: post) ->
       _strip_anaconda_tokens (Py.join "/" (pre ++ "t" :: tok :: post))
       = Ok (Py.join "/" (pre ++ post))).
Proof.
  pure. split; [| split].
  - intros url. unfold _strip_anaconda_tokens.
    destruct (contains_str "/t/" url) eqn:Ht; [| by eexists].
    apply token_marker_is_a_piece in Ht.
    destruct (py_index_found "t" (Py.split "/" url)) as [i ->]; [| by eexists].
    destruct (Py.split "/" url) as [|h t]; [done | by right].
  - intros url Ht. unfold _strip_anaconda_tokens. by rewrite Ht.
  - intros pre post tok Hpre Ht Hall. unfold _strip_anaconda_tokens.
    rewrite join_has_token_marker by done.
    rewrite split_join.
    + rewrite py_index_first by done. cbn [mbind result_bind].
      rewrite enumerate_is_enumerate_from.
      rewrite <- (Z.add_0_l (Py.len pre)).
      by rewrite filter_beside_token_drops.
    + by destruct pre.
    + apply Forall_app in Hall as [Hp Hq]. apply Forall_app. split; [done |].
      constructor; [done | exact Hq].
Qed.

(** ** The fake channel of virtual packages *)






End Engine.

(** * The properties on the sample recipes *)

Local Abbreviation sample_solve :=
  (solve Sample.MatchSpec Sample.find_run_exports Sample.libsolv).
Local Abbreviation sample_build_phase :=
  (build_phase Sample.MatchSpec Sample.find_run_exports Sample.libsolv).
Local Abbreviation sample_run_phase :=
  (run_phase Sample.MatchSpec Sample.find_run_exports Sample.libsolv
     Sample.get_pin_from_build).
Local Abbreviation sample_test_phase :=
  (test_phase Sample.MatchSpec Sample.find_run_exports Sample.libsolv).
Local Abbreviation sample_check_output :=
  (check_output Sample.MatchSpec Sample.find_run_exports Sample.libsolv
     Sample.get_pin_from_build).
Local Abbreviation sample_driver :=
  (_is_recipe_solvable Sample.MatchSpec Sample.find_run_exports Sample.libsolv
     Sample.get_pin_from_build Sample.load_cbc Sample.render
     Sample.ci_support_yamls Sample.meta_yaml_exists Sample.virtual_package_repodata).
Local Abbreviation sample_wrapper :=
  (is_recipe_solvable Sample.MatchSpec Sample.find_run_exports Sample.libsolv
     Sample.get_pin_from_build Sample.load_cbc Sample.render
     Sample.ci_support_yamls Sample.meta_yaml_exists Sample.virtual_package_repodata
     Sample.repr).
Local Abbreviation outnames := ["mylib"; "mypkg"] (only parsing).

(** ** Version broadening *)

Example munge_bare_version : _munge_req_star "1.1" = "1.1.*".
Proof. reflexivity. Qed.

Example munge_empty : _munge_req_star "" = ".*".
Proof. reflexivity. Qed.

(** The broadening of a string of several alternatives, through the
    theorem. *)
Lemma munge_alternatives_witness :
  _munge_req_star ">=1.1, 2|=3.4 ,4.*" = ">=1.1,2.*|3.4.*,4.*"
  ∧ alternatives (_munge_req_star ">=1.1, 2|=3.4 ,4.*")
    = [[">=1.1"]; ["2.*"; "3.4.*"]; ["4.*"]].
Proof.
  destruct (munge_req_star_per_alternative ">=1.1, 2|=3.4 ,4.*") as (Hjoin & Hsplit & _).
  split.
  - rewrite Hjoin. vm_compute. reflexivity.
  - rewrite Hsplit. vm_compute. reflexivity.
Defined.

(** C3 as stated fails: a string that starts with a comparator, or that
    holds a wildcard, is not always returned unchanged (white space around
    it is dropped, and its other alternatives are broadened), and a bare
    version does not always come back with [.*] appended to it as it
    stands. *)
Lemma munge_changes_some_comparator_strings :
  (starts_with_req_start ">=1.0 " = true ∧ _munge_req_star ">=1.0 " ≠ ">=1.0 ")
  ∧ (starts_with_req_start ">=1,2" = true ∧ _munge_req_star ">=1,2" = ">=1,2.*")
  ∧ (Py.contains "*" "1.*|2" = true ∧ _munge_req_star "1.*|2" = "1.*|2.*")
  ∧ (_munge_req_star " 1.0" = "1.0.*" ∧ " 1.0" +:+ ".*" ≠ "1.0.*").
Proof. vm_compute. repeat split; discriminate. Qed.

(** ** Spec normalisation *)

Example norm_spec_name_version_build :
  _norm_spec Sample.MatchSpec "numpy 1.21 py39h0" = Ok "numpy 1.21.* py39h0".
Proof. reflexivity. Qed.

(** A spec with a build string and no version is refused, and the solve
    that holds it stops before libmamba is given any job; a spec with a
    name and a version is normalised. *)
Lemma norm_spec_witness :
  _norm_spec Sample.MatchSpec "numpy[build=py3*]"
  = Raise (RuntimeError "spec 'numpy[build=py3*]' has build but not version!")
  ∧ (exists e,
       sample_solve Sample.linux64 ["python"; "numpy[build=py3*]"] false [] [] initial_world
       = (Raise e,
          {| solver_log := [EvSolve Sample.linux64 ["python"; "numpy[build=py3*]"]];
             rx_cache := [] |}))
  ∧ _norm_spec Sample.MatchSpec "python 3.9" = Ok "python 3.9.*".
Proof.
  destruct (norm_spec_rejects_build_without_version
              Sample.MatchSpec Sample.find_run_exports Sample.libsolv
              "numpy[build=py3*]" _ eq_refl) as [Hbad _].
  destruct (Hbad eq_refl eq_refl) as [Hraise Hsolve].
  destruct (norm_spec_rejects_build_without_version
              Sample.MatchSpec Sample.find_run_exports Sample.libsolv
              "python 3.9" _ eq_refl) as (_ & Hgood & _).
  split; [exact Hraise |]. split.
  - apply (Hsolve Sample.linux64 ["python"; "numpy[build=py3*]"] false [] [] initial_world).
    by repeat constructor.
  - rewrite (Hgood "python" eq_refl (or_introl eq_refl)). reflexivity.
Defined.

(** C9 as stated fails: [py*] is a spec with a name only and [py* 3.9]
    one with a version, neither has a build string, and [_norm_spec]
    raises on both: the name is a pattern, its exact value is [None], and
    the join of the parts refuses it. *)
Lemma norm_spec_fails_on_name_pattern :
  (exists m, Sample.MatchSpec "py*" = Ok m
             ∧ exact_name m = None ∧ version m = None ∧ raw_build m = None)
  ∧ _norm_spec Sample.MatchSpec "py*"
    = Raise (TypeError "sequence item 0: expected str instance, NoneType found")
  ∧ (exists m, Sample.MatchSpec "py* 3.9" = Ok m
               ∧ exact_name m = None ∧ raw_version m = Some "3.9" ∧ raw_build m = None)
  ∧ _norm_spec Sample.MatchSpec "py* 3.9"
    = Raise (TypeError "sequence item 0: expected str instance, NoneType found").
Proof.
  split; [eexists; repeat split; vm_compute; reflexivity |].
  split; [by vm_compute |].
  split; [eexists; repeat split; vm_compute; reflexivity | by vm_compute].
Qed.

(** ** Run-export bundles *)

(** A declaration that is one string, and one that is a mapping with an
    unknown key. *)
Lemma sanitize_run_exports_witness :
  sanitize_run_exports (RxStr "pyqt >=5.12") = Ok (mk_bundle {[ "pyqt >=5.12" ]} ∅ ∅)
  ∧ sanitize_run_exports
      (RxMap {[ "strong" := ["libgcc"]; "weak_constrains" := ["gxx <12"] ]})
    = Ok (mk_bundle {[ "weak_constrains" ]} {[ "libgcc" ]} ∅).
Proof.
  destruct sanitize_run_exports_spec as [Hstr Hmap]. split.
  - apply Hstr; [discriminate | intros [?|[?|?]]%in_BUCKETS; discriminate].
  - rewrite Hmap. vm_compute. reflexivity.
Defined.

(** C8 as stated fails: the empty string yields no entry at all, and a
    string that is the name of a bucket makes the normalisation raise. *)
Lemma single_string_is_not_always_one_weak_entry :
  sanitize_run_exports (RxStr "") = Ok (mk_bundle ∅ ∅ ∅)
  ∧ sanitize_run_exports (RxStr "strong")
    = Raise (TypeError "list indices must be integers or slices, not str").
Proof. split; vm_compute; reflexivity. Qed.

(** From the empty cache of a fresh process: the bundle of [gcc], the
    bundle of a solve that succeeds and the empty bundle of a solve that
    libmamba cannot satisfy. *)
Lemma run_export_bundles_witness :
  (exists r w',
     sample_solve Sample.linux64 ["gcc"; "zlib"] true [] [] initial_world = (Ok r, w')
     ∧ r.2 = Some (mk_bundle {[ "libstdcxx" ]} {[ "libgcc" ]} ∅)
     ∧ exports_wf r ∧ cache_wf (rx_cache w'))
  ∧ (sample_solve Sample.linux64 ["nonexistent 1.0"] true [] [] initial_world).1
    = Ok (false, Some "nothing provides nonexistent", None, Some (mk_bundle ∅ ∅ ∅)).
Proof.
  destruct (run_export_bundles_well_formed
              Sample.MatchSpec Sample.find_run_exports Sample.libsolv
              Sample.get_pin_from_build Sample.load_cbc Sample.render
              Sample.ci_support_yamls Sample.meta_yaml_exists
              Sample.virtual_package_repodata
              initial_world (List.Forall_nil _)) as (_ & _ & Hsolve & Hunsat & _).
  split.
  - destruct (sample_solve Sample.linux64 ["gcc"; "zlib"] true [] [] initial_world)
      as [[r|e] w'] eqn:Hrun; [| by vm_compute in Hrun].
    exists r, w'. split; [done |].
    split; [by vm_compute in Hrun; injection Hrun as <- _ |].
    by apply (Hsolve Sample.linux64 ["gcc"; "zlib"] [] []).
  - rewrite (Hunsat Sample.linux64 ["nonexistent 1.0"] ["nonexistent 1.0.*"] [] []
               "nothing provides nonexistent"); [done | by vm_compute..].
Defined.

(** ** The build phase on a compiled library *)

(** [mylib] is built with [gcc], whose strong export is [libgcc] and whose
    weak export is [libstdcxx]: after the build phase [libgcc] is a run
    and a host requirement. *)
Lemma build_phase_witness :
  exists st w',
    sample_build_phase Sample.linux64 outnames Sample.mylib true [] initial_world
    = (Ok st, w')
    ∧ l_build_req st = Some ["gcc 1.0 0"]
    ∧ "libgcc" ∈ l_run_req st
    ∧ "libgcc" ∈ or_empty (l_host_req st).
Proof.
  destruct (build_phase_propagates_exports
              Sample.MatchSpec Sample.find_run_exports Sample.libsolv
              Sample.linux64 outnames Sample.mylib true [] initial_world
              (sample_solve Sample.linux64 ["gcc"] true [] [] initial_world).2
              true None (Some ["gcc 1.0 0"])
              (mk_bundle {[ "libstdcxx" ]} {[ "libgcc" ]} ∅)
              {[ "libgcc" ]} {[ "libstdcxx" ]})
    as (st & Hrun & Hbuild & Hrun_req & Hhost_req);
    [reflexivity | reflexivity | reflexivity | discriminate
    | vm_compute; reflexivity | reflexivity | reflexivity |].
  exists st, (sample_solve Sample.linux64 ["gcc"] true [] [] initial_world).2.
  split; [exact Hrun |]. split; [exact Hbuild |]. split.
  - apply Hrun_req. right. left. by apply elem_of_singleton.
  - apply Hhost_req. right. split; [reflexivity | by apply elem_of_singleton].
Defined.

(** C1 as stated fails: [mylib] is neither cross-compiled nor noarch, its
    build and host are not declared identical, and its build requirement
    [gcc] is solved with the weak export [libstdcxx]; yet [libstdcxx] is
    no host requirement after the build phase, and the host phase hands
    [zlib] and [libgcc] to the solver. *)
Lemma weak_exports_do_not_reach_host :
  (is_cross Sample.mylib = false ∧ noarch Sample.mylib = false
   ∧ noarch_python Sample.mylib = false ∧ build_is_host Sample.mylib = false)
  ∧ (sample_solve Sample.linux64 ["gcc"] true [] [] initial_world).1
    = Ok (true, None, Some ["gcc 1.0 0"],
          Some (mk_bundle {[ "libstdcxx" ]} {[ "libgcc" ]} ∅))
  ∧ (sample_build_phase Sample.linux64 outnames Sample.mylib true [] initial_world).1
    = Ok {| l_solvable := true; l_errors := [];
            l_build_req := Some ["gcc 1.0 0"];
            l_host_req := Some ["zlib"; "libgcc"];
            l_run_req := ["zlib"; "libgcc"] |}
  ∧ ("libstdcxx" ∉ ["zlib"; "libgcc"])
  ∧ solver_log
      (sample_check_output Sample.linux64 Sample.linux64 outnames (true, [])
         Sample.mylib initial_world).2
    = [EvSolve Sample.linux64 ["gcc"]; EvJobs Sample.linux64 ["gcc"];
       EvSolve Sample.linux64 ["zlib"; "libgcc"];
       EvJobs Sample.linux64 ["zlib"; "libgcc"];
       EvSolve Sample.linux64 ["zlib"; "libgcc"];
       EvJobs Sample.linux64 ["zlib"; "libgcc"];
       EvSolve Sample.linux64 ["zlib"; "libgcc"];
       EvJobs Sample.linux64 ["zlib"; "libgcc"]].
Proof.
  split; [done |]. split; [by vm_compute |]. split; [by vm_compute |].
  split; [| by vm_compute].
  rewrite !elem_of_cons, elem_of_nil. intros [? | [? | []]]; discriminate.
Qed.

(** ** The test phase on a package whose tests repeat a run requirement *)

(** What the local variables are when the run phase of [mypkg] starts. *)
Local Abbreviation mypkg_before_run :=
  {| l_solvable := true; l_errors := []; l_build_req := Some [];
     l_host_req := Some ["python 1.0 0"]; l_run_req := ["foo"; "mylib"] |}.

Lemma test_phase_witness :
  exists st w rest,
    sample_run_phase Sample.linux64 outnames Sample.mypkg mypkg_before_run initial_world
    = (Ok st, w)
    ∧ l_run_req st = ["foo"]
    ∧ solver_log (sample_test_phase Sample.linux64 outnames Sample.mypkg st w).2
      = solver_log w ++ EvSolve Sample.linux64 ["foo"; "pytest"; "foo"] :: rest.
Proof.
  destruct (sample_run_phase Sample.linux64 outnames Sample.mypkg mypkg_before_run
              initial_world) as [[st|e] w] eqn:Hrun; [| by vm_compute in Hrun].
  assert (l_run_req st = ["foo"]) as Hreq by (by vm_compute in Hrun; injection Hrun as <- _).
  destruct (test_phase_requirements
              Sample.MatchSpec Sample.find_run_exports Sample.libsolv
              Sample.get_pin_from_build Sample.linux64 outnames Sample.mypkg
              mypkg_before_run st initial_world w)
    as (_ & [rest Htest] & _); [discriminate | exact Hrun | by rewrite Hreq |].
  exists st, w, rest. split; [done |]. split; [done |].
  rewrite Htest, Hreq. reflexivity.
Defined.

(** C4 as stated fails: [foo] is a run requirement of [mypkg] and one of
    its test requirements, and the list of the test-phase solve, the last
    of the three solves, holds it twice; the package the run phase
    resolved, [foo 1.0 0], is not in that list. *)
Lemma test_phase_repeats_run_requirement :
  solver_log
    (sample_check_output Sample.linux64 Sample.linux64 outnames (true, [])
       Sample.mypkg initial_world).2
  = [EvSolve Sample.linux64 ["python"]; EvJobs Sample.linux64 ["python"];
     EvSolve Sample.linux64 ["foo"]; EvJobs Sample.linux64 ["foo"];
     EvSolve Sample.linux64 ["foo"; "pytest"; "foo"];
     EvJobs Sample.linux64 ["foo"; "pytest"; "foo"]]
  ∧ count_occ String.eq_dec ["foo"; "pytest"; "foo"] "foo" = 2%nat
  ∧ (sample_solve Sample.linux64 ["foo"] false [] [] initial_world).1
    = Ok (true, None, Some ["foo 1.0 0"], None)
  ∧ count_occ String.eq_dec ["foo"; "pytest"; "foo"] "foo 1.0 0" = 0%nat.
Proof. repeat split; by vm_compute. Qed.

(** ** The self-reference guard on the sample recipe *)



(** ** The driver and the wrapper on the sample feedstocks *)

Example driver_on_sample_feedstock :
  (sample_driver "ok" [] ∅ 1 initial_world).1
  = Ok (true, [], {[ "linux_64_" := true ]}).
Proof. by vm_compute. Qed.

(** The feedstock without variant files and the one without recipe. *)
Lemma missing_configuration_witness :
  sample_driver "empty" [] ∅ 1 initial_world
  = (Ok (false, [NO_CI_SUPPORT], ∅), initial_world)
  ∧ sample_driver "nometa" [] ∅ 1 initial_world
    = (Ok (false, [NO_META_YAML], ∅), initial_world)
  ∧ sample_wrapper Delivers "nometa" [] (Some 600) ∅ 1 initial_world
    = (Ok (false, [NO_META_YAML], ∅), initial_world).
Proof.
  pose proof (fun dir => missing_configuration_is_reported
             Sample.MatchSpec Sample.find_run_exports Sample.libsolv
             Sample.get_pin_from_build Sample.load_cbc Sample.render
             Sample.ci_support_yamls Sample.meta_yaml_exists
             Sample.virtual_package_repodata Sample.repr dir [] ∅ 1 initial_world)
    as Hmissing.
  destruct (proj1 (Hmissing "empty") eq_refl) as [Hempty _].
  destruct (proj2 (Hmissing "nometa")) as [Hnometa Hwrapped];
    [discriminate | reflexivity |].
  split; [exact Hempty |]. split; [exact Hnometa | apply Hwrapped].
Defined.



(** A worker that is late, one that delivers an exception and one that
    delivers a result, with a timeout of 600 seconds. *)
Lemma wrapper_witness :
  sample_wrapper Late "ok" [] (Some 600) ∅ 1 initial_world
  = (Ok (true, [], ∅), initial_world)
  ∧ sample_wrapper Delivers "odd" [] (Some 600) ∅ 1 initial_world
    = (Ok (false, ["IndexError: list index out of range"], ∅), initial_world)
  ∧ sample_wrapper Delivers "empty" [] (Some 600) ∅ 1 initial_world
    = (Ok (false, [NO_CI_SUPPORT], ∅), initial_world).
Proof.
  pose proof (fun dir => wrapper_fails_open_on_timeout
             Sample.MatchSpec Sample.find_run_exports Sample.libsolv
             Sample.get_pin_from_build Sample.load_cbc Sample.render
             Sample.ci_support_yamls Sample.meta_yaml_exists
             Sample.virtual_package_repodata Sample.repr dir [] (Some 600) ∅ 1
             initial_world eq_refl) as Hwrap.
  split; [| split].
  - exact (proj1 (Hwrap "ok")).
  - apply (proj1 (proj2 (Hwrap "odd")) (IndexError "list index out of range")
             initial_world).
    by vm_compute.
  - apply (proj2 (proj2 (Hwrap "empty")) (false, [NO_CI_SUPPORT], ∅) initial_world).
    by vm_compute.
Defined.

(** * Further properties *)

(** ** The cache of [_get_run_export] *)

(** X13: [_get_run_export] is cached on the link tuple. Once a call has
    returned a bundle, the next call for the same link tuple returns the
    same bundle and leaves the state as it is, whatever the sources would
    answer by then; the cache never holds more than its [maxsize]
    entries and the call is no call to a solver. A call that raises
    leaves the state as it was: the link tuple was not cached and no
    entry is made for it. *)
Theorem cached_run_export_is_reused
    (sources later_sources : link_tuple -> result raw_run_exports)
    (lt : link_tuple) (w w1 : world) :
  (forall b,
     _get_run_export sources lt w = (Ok b, w1) ->
     _get_run_export later_sources lt w1 = (Ok b, w1)
     ∧ (length (rx_cache w1) <= RX_CACHE_MAXSIZE)%nat
     ∧ solver_log w1 = solver_log w)
  ∧ (forall e,
       _get_run_export sources lt w = (Raise e, w1) ->
       w1 = w ∧ cache_lookup lt (rx_cache w) = None).
Proof.
  split.
  - intros b Hget. apply _get_run_export_cache in Hget as ->.
    split; [| split; [apply cache_put_length | done]].
    unfold _get_run_export. cbn [rx_cache solver_log].
    rewrite cache_lookup_put_same, bind_run. unfold set_cache.
    cbn [rx_cache solver_log]. by rewrite cache_put_again.
  - intros e. unfold _get_run_export.
    destruct (cache_lookup lt (rx_cache w)) as [b|]; [done |].
    rewrite lift_bind. destruct (sources lt) as [raw|e0]; [| by intros [= <- <-]].
    rewrite lift_bind. destruct (sanitize_run_exports raw) as [b|e0]; [done |].
    by intros [= <- <-].
Qed.


(** ** The further properties on the sample recipes *)

Local Abbreviation sample_host_phase :=
  (host_phase Sample.MatchSpec Sample.find_run_exports Sample.libsolv).
Local Abbreviation sample_on_platform :=
  (_is_recipe_solvable_on_platform Sample.MatchSpec Sample.find_run_exports
     Sample.libsolv Sample.get_pin_from_build Sample.load_cbc Sample.render).
Local Abbreviation sample_check_variant :=
  (check_variant Sample.MatchSpec Sample.find_run_exports Sample.libsolv
     Sample.get_pin_from_build Sample.load_cbc Sample.render).
Local Abbreviation sample_get_run_exports :=
  (_get_run_exports Sample.MatchSpec Sample.find_run_exports).
Local Abbreviation gcc_exports :=
  (mk_bundle {[ "libstdcxx" ]} {[ "libgcc" ]} ∅) (only parsing).

(** The solve of [gcc] with its run exports. *)
Lemma solve_outcome_witness :
  (sample_solve Sample.linux64 ["gcc"] true [] [] initial_world).1
  = Ok (true, None, Some ["gcc 1.0 0"], Some gcc_exports)
  ∧ outcome_consistent (true, None, Some ["gcc 1.0 0"], Some gcc_exports)
  ∧ solver_log (sample_solve Sample.linux64 ["gcc"] true [] [] initial_world).2
    = [EvSolve Sample.linux64 ["gcc"]; EvJobs Sample.linux64 ["gcc"]].
Proof.
  assert (sample_solve Sample.linux64 ["gcc"] true [] [] initial_world
          = (Ok (true, None, Some ["gcc 1.0 0"], Some gcc_exports),
             (sample_solve Sample.linux64 ["gcc"] true [] [] initial_world).2))
    as Hrun by (vm_compute; reflexivity).
  destruct (solve_outcome _ _ _ _ _ _ _ _ _ _ _ Hrun)
    as (Hcons & _ & _specs & Hnorm & Hlog & _).
  split; [by rewrite Hrun |]. split; [exact Hcons |].
  rewrite Hlog. vm_compute in Hnorm. by injection Hnorm as <-.
Defined.

(** The variant of the sample feedstock. *)
Lemma variant_verdict_witness :
  (sample_on_platform "ok/recipe" "ok/.ci_support/linux_64_.yaml" "linux" "64"
     (Some "linux_64") [] initial_world).1 = Ok (true, [])
  ∧ (true = true <-> @nil string = []).
Proof.
  assert (sample_on_platform "ok/recipe" "ok/.ci_support/linux_64_.yaml" "linux" "64"
            (Some "linux_64") [] initial_world
          = (Ok (true, []),
             (sample_on_platform "ok/recipe" "ok/.ci_support/linux_64_.yaml" "linux"
                "64" (Some "linux_64") [] initial_world).2))
    as Hrun by (vm_compute; reflexivity).
  split; [by rewrite Hrun |].
  exact (variant_solvable_iff_no_error _ _ _ _ _ _ _ _ _ _ _ _ _ _ _ _ Hrun).
Defined.

(** The sample feedstock, through the driver. *)
Lemma driver_result_witness :
  (sample_driver "ok" [] ∅ 1 initial_world).1
  = Ok (true, [], {[ "linux_64_" := true ]})
  ∧ dom ({[ "linux_64_" := true ]} : gmap string bool)
    = list_to_set (cbc_name <$> Sample.ci_support_yamls "ok").
Proof.
  assert (sample_driver "ok" [] ∅ 1 initial_world
          = (Ok (true, [], {[ "linux_64_" := true ]}),
             (sample_driver "ok" [] ∅ 1 initial_world).2))
    as Hrun by (vm_compute; reflexivity).
  destruct (driver_result_is_coherent _ _ _ _ _ _ _ _ _ _ _ _ _ _ _ _ _ _ Hrun)
    as (_ & _ & Hdom & _).
  split; [by rewrite Hrun |]. apply Hdom; [discriminate | reflexivity].
Defined.

(** An output with a build requirement that cannot be normalised: the
    exception of the build phase is the one of its solve. *)
Lemma export_phases_witness :
  cache_wf (rx_cache initial_world)
  ∧ sample_build_phase Sample.linux64 ["badbuild"] CrossSample.badbuild true []
      initial_world
    = (Raise (RuntimeError "spec 'numpy[build=py3*]' has build but not version!"),
       {| solver_log := [EvSolve Sample.linux64 ["numpy[build=py3*]"]];
          rx_cache := [] |})
  ∧ sample_solve Sample.linux64 ["numpy[build=py3*]"] true [] [] initial_world
    = (Raise (RuntimeError "spec 'numpy[build=py3*]' has build but not version!"),
       {| solver_log := [EvSolve Sample.linux64 ["numpy[build=py3*]"]];
          rx_cache := [] |}).
Proof.
  assert (cache_wf (rx_cache initial_world)) as Hwf by constructor.
  assert (sample_build_phase Sample.linux64 ["badbuild"] CrossSample.badbuild true []
            initial_world
          = (Raise (RuntimeError "spec 'numpy[build=py3*]' has build but not version!"),
             {| solver_log := [EvSolve Sample.linux64 ["numpy[build=py3*]"]];
                rx_cache := [] |}))
    as Hrun by (vm_compute; reflexivity).
  split; [exact Hwf |]. split; [exact Hrun |].
  exact (proj2 (proj1 (export_phases_raise_what_solve_raises
                         Sample.MatchSpec Sample.find_run_exports Sample.libsolv
                         Sample.linux64 Sample.linux64 ["badbuild"]
                         CrossSample.badbuild initial_world _ _ Hwf)
                  true [] Hrun)).
Defined.

(** The host phase of the cross-compiled library: the weak export of
    [gcc] in the host environment becomes a run requirement, the strong
    one does not. *)
Lemma host_phase_witness :
  exists st',
    (sample_host_phase Sample.linux64 ["crosslib"] CrossSample.crosslib
       (CrossSample.before_host CrossSample.crosslib) initial_world).1 = Ok st'
    ∧ l_host_req st' = Some ["gcc 1.0 0"; "zlib 1.0 0"]
    ∧ "libstdcxx" ∈ l_run_req st'
    ∧ "libgcc" ∉ l_run_req st'.
Proof.
  assert (sample_solve Sample.linux64
            (_clean_reqs (or_empty (l_host_req (CrossSample.before_host CrossSample.crosslib)))
               ["crosslib"]) true
            (ignore_run_exports_from CrossSample.crosslib)
            (ignore_run_exports CrossSample.crosslib) initial_world
          = (Ok (true, None, Some ["gcc 1.0 0"; "zlib 1.0 0"], Some gcc_exports),
             (sample_solve Sample.linux64 ["gcc"; "zlib"] true [] [] initial_world).2))
    as Hsolve by (vm_compute; reflexivity).
  destruct (host_phase_propagates_exports
              Sample.MatchSpec Sample.find_run_exports Sample.libsolv
              Sample.linux64 ["crosslib"] CrossSample.crosslib
              (CrossSample.before_host CrossSample.crosslib) initial_world _ _
              ltac:(constructor) ltac:(discriminate) Hsolve)
    as (weak & strong & na & st' & Hrx & Hrun & Hhost & _ & _ & _ & _ & Hcross).
  cbn [snd] in Hrx. apply (inj Some), mk_bundle_inj in Hrx as (<- & _ & _).
  exists st'. split; [by rewrite Hrun |]. split; [exact Hhost |].
  specialize (Hcross eq_refl). cbn [CrossSample.crosslib noarch noarch_python orb] in Hcross.
  split.
  - apply Hcross. right. by apply elem_of_singleton.
  - intros [H | H]%Hcross.
    + apply list_elem_of_singleton in H. discriminate.
    + apply elem_of_singleton in H. discriminate.
Defined.

(** The build phase of the cross-compiled library: the strong export of
    [gcc] becomes a host requirement and a run requirement. *)
Lemma build_phase_cross_witness :
  exists st',
    (sample_build_phase Sample.linux64 ["crosslib"] CrossSample.crosslib true []
       initial_world).1 = Ok st'
    ∧ l_build_req st' = Some ["gcc 1.0 0"]
    ∧ "libgcc" ∈ or_empty (l_host_req st')
    ∧ "libgcc" ∈ l_run_req st'
    ∧ "libstdcxx" ∉ l_run_req st'.
Proof.
  assert (sample_solve Sample.linux64
            (_clean_reqs (requirements_build CrossSample.crosslib) ["crosslib"]) true
            (ignore_run_exports_from CrossSample.crosslib)
            (ignore_run_exports CrossSample.crosslib) initial_world
          = (Ok (true, None, Some ["gcc 1.0 0"], Some gcc_exports),
             (sample_solve Sample.linux64 ["gcc"] true [] [] initial_world).2))
    as Hsolve by (vm_compute; reflexivity).
  destruct (build_phase_cross_and_noarch
              Sample.MatchSpec Sample.find_run_exports Sample.libsolv
              Sample.linux64 ["crosslib"] CrossSample.crosslib true [] initial_world _ _
              ltac:(constructor) ltac:(discriminate) Hsolve)
    as (weak & strong & na & st' & Hrx & Hrun & Hbuild & _ & _ & Hcross & _).
  cbn [snd] in Hrx. apply (inj Some), mk_bundle_inj in Hrx as (_ & <- & _).
  exists st'. split; [by rewrite Hrun |]. split; [exact Hbuild |].
  destruct (Hcross eq_refl) as (Hhost & _ & Hrunreq).
  specialize (Hrunreq eq_refl).
  split; [apply Hhost; right; by apply elem_of_singleton |].
  split; [apply Hrunreq; right; by apply elem_of_singleton |].
  intros [H | H]%Hrunreq.
  - apply list_elem_of_singleton in H. discriminate.
  - apply elem_of_singleton in H. discriminate.
Defined.

(** A variant file for [linux] and [aarch64], with no [build_platform]. *)
Lemma variant_target_witness :
  platform_arch "x/.ci_support/linux_aarch64_python3.9.yaml" = Ok ("linux", "aarch64")
  ∧ build_target "linux" "aarch64"
      (Some (default "linux_aarch64" ((∅ : gmap string string) !! "linux_aarch64")))
    = Ok ("linux", "aarch64")
  ∧ forall acc,
      emits (fun ev => platform (event_solver ev) = "linux-aarch64")
        (sample_check_variant "x" [] ∅ acc "x/.ci_support/linux_aarch64_python3.9.yaml").
Proof.
  assert (platform_arch "x/.ci_support/linux_aarch64_python3.9.yaml"
          = Ok ("linux", "aarch64")) as Hpa by (vm_compute; reflexivity).
  split; [exact Hpa |].
  exact (proj2 (variant_without_override_uses_host_target
                  Sample.MatchSpec Sample.find_run_exports Sample.libsolv
                  Sample.get_pin_from_build Sample.load_cbc Sample.render
                  "x" [] ∅ _ _ _ Hpa (lookup_empty _))).
Defined.

(** A [build_platform] entry without underscore. *)
Lemma malformed_build_platform_witness :
  exists e msg,
    sample_check_variant "ok" [] {[ "linux_64" := "linux64" ]} (true, [], ∅)
      "ok/.ci_support/linux_64_.yaml" initial_world
    = (Raise e, initial_world)
    ∧ e = ValueError msg.
Proof.
  destruct (malformed_build_platform_raises
              Sample.MatchSpec Sample.find_run_exports Sample.libsolv
              Sample.get_pin_from_build Sample.load_cbc Sample.render
              "ok" [] {[ "linux_64" := "linux64" ]} (true, [], ∅)
              "ok/.ci_support/linux_64_.yaml" "linux" "64" "linux64" initial_world)
    as (e & Hrun & Hvalue);
    [vm_compute; reflexivity | vm_compute; reflexivity | vm_compute; lia |].
  destruct (Hvalue {| channel_sources := Some ["conda-forge"] |}
              [Sample.mylib; Sample.mypkg]) as [msg Hmsg];
    [reflexivity | vm_compute; reflexivity |].
  by exists e, msg.
Defined.

(** The exports of [gcc] with [libgcc] to be ignored. *)
Lemma run_exports_ignore_witness :
  (sample_get_run_exports [CrossSample.gcc_tuple] ["gcc"] [] ["libgcc"] initial_world).1
  = Ok (mk_bundle {[ "libstdcxx" ]} ∅ ∅)
  ∧ tokens_avoid [Some "libgcc"] (mk_bundle {[ "libstdcxx" ]} ∅ ∅).
Proof.
  assert (sample_get_run_exports [CrossSample.gcc_tuple] ["gcc"] [] ["libgcc"]
            initial_world
          = (Ok (mk_bundle {[ "libstdcxx" ]} ∅ ∅),
             (sample_get_run_exports [CrossSample.gcc_tuple] ["gcc"] [] ["libgcc"]
                initial_world).2))
    as Hrun by (vm_compute; reflexivity).
  split; [by rewrite Hrun |].
  exact (proj1 (run_exports_leave_out_ignored
                  Sample.MatchSpec Sample.find_run_exports [CrossSample.gcc_tuple]
                  ["gcc"] [] ["libgcc"] [Some "gcc"] [] [Some "libgcc"]
                  eq_refl eq_refl eq_refl) _ _ _ Hrun).
Defined.

(** After the exports of [gcc] were read with [libgcc] to be ignored, the
    next lookup of [gcc] yields no [libgcc], with sources that would give
    it and nothing to ignore. *)
Lemma cache_aliasing_witness :
  exists w'',
    _get_run_export Sample.find_run_exports CrossSample.gcc_tuple
      (sample_get_run_exports [CrossSample.gcc_tuple] ["gcc"] [] ["libgcc"]
         initial_world).2
    = (Ok (mk_bundle {[ "libstdcxx" ]} ∅ ∅), w'')
    ∧ sanitize_run_exports
        (RxMap {[ "strong" := ["libgcc"]; "weak" := ["libstdcxx"] ]})
      = Ok gcc_exports.
Proof.
  assert (sample_get_run_exports [CrossSample.gcc_tuple] ["gcc"] [] ["libgcc"]
            initial_world
          = (Ok (mk_bundle {[ "libstdcxx" ]} ∅ ∅),
             (sample_get_run_exports [CrossSample.gcc_tuple] ["gcc"] [] ["libgcc"]
                initial_world).2))
    as Hrun by (vm_compute; reflexivity).
  destruct (ignored_exports_stay_out_of_cache
              Sample.MatchSpec Sample.find_run_exports [CrossSample.gcc_tuple]
              ["gcc"] [] ["libgcc"] [Some "gcc"] [] [Some "libgcc"] _ _ _
              eq_refl eq_refl eq_refl Hrun CrossSample.gcc_tuple
              (mk_bundle {[ "libstdcxx" ]} ∅ ∅))
    as [_ [w'' Hnext]];
    [by left | by left | by intros ?%elem_of_nil | vm_compute; reflexivity |].
  exists w''. split; [exact Hnext | vm_compute; reflexivity].
Defined.

(** ** Channel urls and the fake channel *)

Example strip_token_of_channel_url :
  _strip_anaconda_tokens "https://conda.anaconda.org/t/tk-12-ab/conda-forge/linux-64"
  = Ok "https://conda.anaconda.org/conda-forge/linux-64".
Proof. by vm_compute. Qed.

Example glibc_file_name :
  (to_repodata_entry
     {| fp_name := "__glibc"; fp_version := "2.17"; fp_build_string := "";
        fp_build_number := 0; fp_noarch := ""; fp_depends := ∅;
        fp_timestamp := 1700000000000 |}).1
  = "__glibc-2.17-0.tar.bz2".
Proof. by vm_compute. Qed.
